(** * swiftmessageparser: tags and field codecs

    A shallow embedding of [lib/tags.js] and [lib/helperModels.js] of the
    swiftmessageparser package, and the properties of its tag registry,
    its extractors and its amount and date codecs.

    JavaScript strings are modelled as [string]: sequences of code units
    below 256.  A thrown [Error] is the [Throw] case of [result], carrying
    the message of the error. *)

From Stdlib Require Import ZArith NArith Ascii String List Bool Lia.
From stdpp Require Import base option strings gmap.

Local Open Scope string_scope.
Local Open Scope Z_scope.

(** ** Exceptions *)

Inductive result (A : Type) : Type :=
| Ok (a : A)
| Throw (msg : string).
Arguments Ok {A} a.
Arguments Throw {A} msg.

#[global] Instance result_ret : MRet result := fun A a => Ok a.
#[global] Instance result_bind : MBind result := fun A B k r =>
  match r with
  | Ok a => k a
  | Throw msg => Throw msg
  end.

(** ** JavaScript strings *)

Module JsString.

(** [s[i]]: the character at an index as a one-character string, or
    [undefined] past the end. *)
Definition at_index (s : string) (i : nat) : option string :=
  match String.get i s with
  | Some c => Some (String c EmptyString)
  | None => None
  end.

(** [s.replace(',', '.')] with a string pattern of one character: only
    the first occurrence is replaced. *)
Fixpoint replace_first (c : ascii) (by_ : ascii) (s : string) : string :=
  match s with
  | EmptyString => EmptyString
  | String x rest =>
      if Ascii.eqb x c then String by_ rest
      else String x (replace_first c by_ rest)
  end.

Definition is_digit (c : ascii) : bool :=
  (48 <=? Z.of_N (N_of_ascii c)) && (Z.of_N (N_of_ascii c) <=? 57).

Definition digit_value (c : ascii) : Z := Z.of_N (N_of_ascii c) - 48.

Fixpoint all_digits (s : string) : bool :=
  match s with
  | EmptyString => true
  | String c rest => is_digit c && all_digits rest
  end.

(** Value of a string of decimal digits, read left to right. *)
Fixpoint digits_value_acc (acc : Z) (s : string) : Z :=
  match s with
  | EmptyString => acc
  | String c rest => digits_value_acc (10 * acc + digit_value c) rest
  end.

Definition digits_value (s : string) : Z := digits_value_acc 0 s.

(** Decimal digits of a natural number, most significant first. *)
Fixpoint digits_of_pos_fuel (fuel : nat) (n : Z) (acc : string) : string :=
  match fuel with
  | O => acc
  | S f =>
      let acc' := String (ascii_of_N (Z.to_N (48 + n mod 10))) acc in
      if n <? 10 then acc' else digits_of_pos_fuel f (n / 10) acc'
  end.

(** [n.toString()] for an integer-valued number below [10^21] in
    magnitude (from there on JavaScript prints an exponent). *)
Definition of_Z (n : Z) : string :=
  let m := Z.abs n in
  let ds := digits_of_pos_fuel (S (Z.to_nat (Z.log2 m))) m EmptyString in
  if n <? 0 then String "-" ds else ds.

(** White space of JavaScript among the code units below 256: tab, line
    feed, vertical tab, form feed, carriage return, space, no-break
    space. *)
Definition is_space (c : ascii) : bool :=
  let n := Z.of_N (N_of_ascii c) in
  ((9 <=? n) && (n <=? 13)) || (n =? 32) || (n =? 160).

Fixpoint trim_start (s : string) : string :=
  match s with
  | String c rest => if is_space c then trim_start rest else s
  | EmptyString => EmptyString
  end.

(** The leading decimal digits of a string. *)
Fixpoint leading_digits (s : string) : string :=
  match s with
  | String c rest =>
      if is_digit c then String c (leading_digits rest) else EmptyString
  | EmptyString => EmptyString
  end.

(** The longest run of decimal digits at the start, and the rest. *)
Fixpoint span_digits (s : string) : string * string :=
  match s with
  | String c rest =>
      if is_digit c then
        let '(ds, tl) := span_digits rest in (String c ds, tl)
      else (EmptyString, s)
  | EmptyString => (EmptyString, EmptyString)
  end.

(** The optional exponent part, up to the end of the string. *)
Definition exponent_part (s : string) : option Z :=
  match s with
  | EmptyString => Some 0
  | String c rest =>
      if Ascii.eqb c "e" || Ascii.eqb c "E" then
        let '(neg, ds) :=
          match rest with
          | String "+" r => (false, r)
          | String "-" r => (true, r)
          | _ => (false, rest)
          end in
        if all_digits ds && negb (String.eqb ds EmptyString) then
          Some (if neg then - digits_value ds
                else digits_value ds)
        else None
      else None
  end.

Fixpoint trim_end (s : string) : string :=
  match s with
  | String c rest =>
      let rest' := trim_end rest in
      if String.eqb rest' EmptyString && is_space c then EmptyString
      else String c rest'
  | EmptyString => EmptyString
  end.

Definition trim (s : string) : string := trim_end (trim_start s).

End JsString.

(** ** bignumber.js

    The package's decimal type, an external dependency of the source.  A
    finite value is a sign, a coefficient and a decimal exponent; the sign
    of a zero is kept, as the library does.  The configuration is the
    library's default one: [ROUNDING_MODE = ROUND_HALF_UP] and
    [DECIMAL_PLACES = 20].  The exponent limits of the library ([1e9] in
    magnitude) are far beyond any value met here and are not modelled. *)

Module BigNumber.

Inductive t : Type :=
| NaN
| Infinity (neg : bool)
| Finite (neg : bool) (c : N) (e : Z).

(** The nine rounding modes, in the order of their numeric codes 0 to 8. *)
Inductive rounding_mode : Type :=
| ROUND_UP | ROUND_DOWN | ROUND_CEIL | ROUND_FLOOR
| ROUND_HALF_UP | ROUND_HALF_DOWN | ROUND_HALF_EVEN
| ROUND_HALF_CEIL | ROUND_HALF_FLOOR.

Definition ROUNDING_MODE : rounding_mode := ROUND_HALF_UP.
Definition DECIMAL_PLACES : Z := 20.

#[global] Instance eq_dec : EqDecision t.
Proof. solve_decision. Defined.

(** Trailing zeros of the coefficient move into the exponent; zero has
    exponent 0. *)
Fixpoint strip_zeros (fuel : nat) (c : N) (e : Z) : N * Z :=
  if (c =? 0)%N then (0%N, 0)
  else
    match fuel with
    | O => (c, e)
    | S f =>
        if (c mod 10 =? 0)%N then strip_zeros f (c / 10)%N (e + 1)
        else (c, e)
    end.

Definition normal (neg : bool) (c : N) (e : Z) : t :=
  let '(c', e') := strip_zeros (S (N.to_nat (N.log2 c))) c e in
  Finite neg c' e'.

Definition of_Z (n : Z) : t := normal (n <? 0) (Z.abs_N n) 0.

Definition isNaN (x : t) : bool :=
  match x with NaN => true | _ => false end.

(** [isNegative]: the sign is negative, also for [-0] and [-Infinity]. *)
Definition isNegative (x : t) : bool :=
  match x with
  | NaN => false
  | Infinity neg => neg
  | Finite neg _ _ => neg
  end.

(** [x.multipliedBy(y)]: exact. *)
Definition multipliedBy (x y : t) : t :=
  match x, y with
  | NaN, _ | _, NaN => NaN
  | Infinity a, Infinity b => Infinity (xorb a b)
  | Infinity a, Finite b c _ | Finite b c _, Infinity a =>
      if (c =? 0)%N then NaN else Infinity (xorb a b)
  | Finite a c1 e1, Finite b c2 e2 => normal (xorb a b) (c1 * c2) (e1 + e2)
  end.

(** Rounding of the magnitude [q + r/d] (with [0 <= r < d]) to an
    integer, for a value of sign [neg]. *)
Definition round_magnitude (rm : rounding_mode) (neg : bool) (q r d : N) : N :=
  let up := (q + 1)%N in
  if (r =? 0)%N then q
  else match rm with
       | ROUND_UP => up
       | ROUND_DOWN => q
       | ROUND_CEIL => if neg then q else up
       | ROUND_FLOOR => if neg then up else q
       | ROUND_HALF_UP => if (d <=? 2 * r)%N then up else q
       | ROUND_HALF_DOWN => if (d <? 2 * r)%N then up else q
       | ROUND_HALF_EVEN =>
           if (d <? 2 * r)%N then up
           else if (d =? 2 * r)%N then (if N.odd q then up else q)
           else q
       | ROUND_HALF_CEIL =>
           if (d <? 2 * r)%N then up
           else if (d =? 2 * r)%N then (if neg then q else up)
           else q
       | ROUND_HALF_FLOOR =>
           if (d <? 2 * r)%N then up
           else if (d =? 2 * r)%N then (if neg then up else q)
           else q
       end.

(** [10^k], and 1 for a negative [k]. *)
Definition pow10 (k : Z) : N := Z.to_N (10 ^ Z.max 0 k).

(** [x.integerValue(rm)]. *)
Definition integerValue_rm (rm : rounding_mode) (x : t) : t :=
  match x with
  | NaN => NaN
  | Infinity neg => Infinity neg
  | Finite neg c e =>
      if 0 <=? e then Finite neg c e
      else
        let d := pow10 (- e) in
        normal neg (round_magnitude rm neg (c / d) (c mod d) d) 0
  end.

(** [x.integerValue()]: the rounding mode is the configured one. *)
Definition integerValue (x : t) : t := integerValue_rm ROUNDING_MODE x.

(** [x.dividedBy(y)]: rounded to [DECIMAL_PLACES] places with the
    configured rounding mode. *)
Definition dividedBy (x y : t) : t :=
  match x, y with
  | NaN, _ | _, NaN => NaN
  | Infinity _, Infinity _ => NaN
  | Infinity a, Finite b _ _ => Infinity (xorb a b)
  | Finite a _ _, Infinity b => Finite (xorb a b) 0 0
  | Finite a c1 e1, Finite b c2 e2 =>
      if (c2 =? 0)%N then (if (c1 =? 0)%N then NaN else Infinity (xorb a b))
      else
        let k := e1 - e2 + DECIMAL_PLACES in
        let num := (c1 * pow10 k)%N in
        let den := (c2 * pow10 (- k))%N in
        normal (xorb a b)
               (round_magnitude ROUNDING_MODE (xorb a b)
                                (num / den) (num mod den) den)
               (- DECIMAL_PLACES)
  end.

(** *** The constructor from a string

    [BigNumber(str)] reads a decimal literal: an optional minus sign,
    digits with an optional fraction (or a fraction alone), and an
    optional exponent; this is the library's [isNumeric] test.  The
    literals [Infinity] and [NaN], with an optional minus sign, are
    read too.  Every other string is not a number.  The library also
    reads a literal between white space or after a plus sign, and one
    with a prefix [0x], [0b] or [0o]; no such string is modelled. *)

Definition strip_minus (s : string) : bool * string :=
  match s with
  | String "-" rest => (true, rest)
  | _ => (false, s)
  end.

(** The unsigned part: digits and an optional fraction, or a fraction
    alone; then the exponent. *)
Definition read_unsigned (neg : bool) (s : string) : option t :=
  let '(ip, s2) := JsString.span_digits s in
  let '(fp, s3, dot) :=
    match s2 with
    | String "." rest =>
        let '(fp, s3) := JsString.span_digits rest in (fp, s3, true)
    | _ => (EmptyString, s2, false)
    end in
  if String.eqb ip EmptyString && (negb dot || String.eqb fp EmptyString)
  then None
  else
    match JsString.exponent_part s3 with
    | Some ex =>
        Some (normal neg (Z.to_N (JsString.digits_value (ip ++ fp)))
                     (ex - Z.of_nat (String.length fp)))
    | None => None
    end.

Definition of_string (str : string) : t :=
  let '(neg, s) := strip_minus str in
  match read_unsigned neg s with
  | Some x => x
  | None =>
      if String.eqb s "Infinity" then Infinity neg
      else NaN
  end.

End BigNumber.

(** ** helperModels.js: the amount codec *)

Module BankAmount.

(** [BankAmount.parse(dcmark, amountStr)].  [eOrR] and [dc] are
    [undefined] ([None]) or a string of one character. *)
Definition parse (dcmark amountStr : string) : result BigNumber.t :=
  let '(eOrR, dc) :=
    if (String.length dcmark =? 2)%nat
    then (JsString.at_index dcmark 0, JsString.at_index dcmark 1)
    else (None, Some dcmark) in
  if bool_decide (is_Some eOrR)
     && negb (bool_decide (eOrR = Some "E") || bool_decide (eOrR = Some "R"))
  then Throw ("Not a reversal/expected mark: " ++ dcmark)
  else if negb (bool_decide (dc = Some "D") || bool_decide (dc = Some "C"))
  then Throw ("Wrong debit/credit mark: " ++ dcmark)
  else
    let amount :=
      BigNumber.of_string (JsString.replace_first "," "." amountStr) in
    if BigNumber.isNaN amount
    then Throw ("Amount cannot be parsed: " ++ amountStr)
    else if BigNumber.isNegative amount
    then Throw ("Positive amount string expected: " ++ amountStr)
    else
      let amount :=
        if bool_decide (dc = Some "D")
        then BigNumber.multipliedBy amount (BigNumber.of_Z (-1))
        else amount in
      let amount :=
        if bool_decide (eOrR = Some "R")
        then BigNumber.multipliedBy amount (BigNumber.of_Z (-1))
        else amount in
      Ok (BigNumber.dividedBy
            (BigNumber.integerValue
               (BigNumber.multipliedBy amount (BigNumber.of_Z 100)))
            (BigNumber.of_Z 100)).

End BankAmount.

(** ** Numbers and dates of JavaScript

    A number is an integer or [NaN] ([None]); the numbers met here are
    integers far below [2^53], where floating point is exact. *)

Module JsNumber.

Definition t : Type := option Z.

(** [Number.parseInt(s, 10)]: white space is skipped, a sign is read,
    then the longest run of decimal digits; [NaN] when there is none.
    The result is the integer itself: the numbers of the code hold it
    exactly below [2^53] in magnitude, and round it from there on. *)
Definition parseInt (s : string) : t :=
  let s1 := JsString.trim_start s in
  let '(neg, s2) :=
    match s1 with
    | String "-" r => (true, r)
    | String "+" r => (false, r)
    | _ => (false, s1)
    end in
  let ds := JsString.leading_digits s2 in
  if String.eqb ds EmptyString then None
  else Some (if neg then - JsString.digits_value ds
             else JsString.digits_value ds).

(** [ToNumber(s)] of a string of decimal digits, as the tag grammars
    deliver for a day; the empty string is 0.  Any other string is read
    as [NaN]: signs, white space, fractions, exponents and prefixed
    literals are not modelled. *)
Definition of_digit_string (s : string) : t :=
  if JsString.all_digits s then Some (JsString.digits_value s) else None.

Definition all_of (p : ascii -> bool) (s : string) : bool :=
  forallb p (list_ascii_of_string s).

Definition is_hex_digit (c : ascii) : bool :=
  let n := Z.of_N (N_of_ascii c) in
  JsString.is_digit c || ((65 <=? n) && (n <=? 70))
  || ((97 <=? n) && (n <=? 102)).

(** A literal with a prefix: [0x], [0o] or [0b] of either case and at
    least one digit of the base. *)
Definition is_prefixed_literal (s : string) : bool :=
  match s with
  | String "0" (String x (String d ds)) =>
      let body := String d ds in
      if Ascii.eqb x "x" || Ascii.eqb x "X" then all_of is_hex_digit body
      else if Ascii.eqb x "o" || Ascii.eqb x "O" then
        all_of (fun c => JsString.is_digit c
                         && (Z.of_N (N_of_ascii c) <=? 55)) body
      else if Ascii.eqb x "b" || Ascii.eqb x "B" then
        all_of (fun c => Ascii.eqb c "0" || Ascii.eqb c "1") body
      else false
  | _ => false
  end.

(** An unsigned decimal literal: [Infinity], or digits with an optional
    fraction (or a fraction alone) and an optional exponent. *)
Definition is_unsigned_decimal (s : string) : bool :=
  if String.eqb s "Infinity" then true
  else
    let '(ip, s2) := JsString.span_digits s in
    let '(fp, s3, dot) :=
      match s2 with
      | String "." rest =>
          let '(fp, s3) := JsString.span_digits rest in (fp, s3, true)
      | _ => (EmptyString, s2, false)
      end in
    negb (String.eqb ip EmptyString && String.eqb fp EmptyString)
    && bool_decide (is_Some (JsString.exponent_part s3)).

(** Whether [ToNumber(s)] is a number: [s] is, between white space,
    empty or a numeric literal. *)
Definition is_numeric_string (s : string) : bool :=
  let t := JsString.trim s in
  String.eqb t EmptyString
  || is_prefixed_literal t
  || is_unsigned_decimal
       (match t with
        | String "+" r | String "-" r => r
        | _ => t
        end).

(** [x < y] on numbers: false when an operand is [NaN]. *)
Definition lt (x y : t) : bool :=
  match x, y with
  | Some a, Some b => a <? b
  | _, _ => false
  end.

Definition add (x y : t) : t :=
  match x, y with
  | Some a, Some b => Some (a + b)
  | _, _ => None
  end.

Definition sub (x y : t) : t :=
  match x, y with
  | Some a, Some b => Some (a - b)
  | _, _ => None
  end.

End JsNumber.

Module JsDate.

(** A [Date] object is its time value: milliseconds since the epoch, or
    [NaN] for an invalid date. *)
Definition t : Type := option Z.

Definition msPerDay : Z := 86400000.

Definition DaysInYear (y : Z) : Z :=
  if negb (y mod 4 =? 0) then 365
  else if negb (y mod 100 =? 0) then 366
  else if negb (y mod 400 =? 0) then 365
  else 366.

Definition DayFromYear (y : Z) : Z :=
  365 * (y - 1970) + (y - 1969) / 4 - (y - 1901) / 100 + (y - 1601) / 400.

(** Days before the first of month [mn] (0 to 11) within its year. *)
Definition days_before_month (leap : Z) (mn : Z) : Z :=
  match mn with
  | 0 => 0 | 1 => 31 | 2 => 59 + leap | 3 => 90 + leap
  | 4 => 120 + leap | 5 => 151 + leap | 6 => 181 + leap
  | 7 => 212 + leap | 8 => 243 + leap | 9 => 273 + leap
  | 10 => 304 + leap | _ => 334 + leap
  end.

(** [MakeDay(year, month, date)]. *)
Definition MakeDay (year month date : Z) : Z :=
  let ym := year + month / 12 in
  let mn := month mod 12 in
  DayFromYear ym + days_before_month (DaysInYear ym - 365) mn + date - 1.

(** The days of month [mn] (0 to 11) of year [y]. *)
Definition DaysInMonth (y mn : Z) : Z :=
  match mn with
  | 1 => DaysInYear y - 337
  | 3 | 5 | 8 | 10 => 30
  | _ => 31
  end.

(** [TimeClip(time)]. *)
Definition TimeClip (time : Z) : t :=
  if 8640000000000000 <? Z.abs time then None else Some time.

(** [Date.UTC(year, month, date)]. *)
Definition UTC (year month date : JsNumber.t) : t :=
  match year, month, date with
  | Some y, Some m, Some dt =>
      let yr := if (0 <=? y) && (y <=? 99) then 1900 + y else y in
      TimeClip (MakeDay yr m dt * msPerDay)
  | _, _, _ => None
  end.

(** [YearFromTime], [MonthFromTime] and [DateFromTime] on a day number,
    by the civil-calendar decomposition of a day count. *)
Definition civil_of_day (day : Z) : Z * Z * Z :=
  let z := day + 719468 in
  let era := z / 146097 in
  let doe := z mod 146097 in
  let yoe := (doe - doe / 1460 + doe / 36524 - doe / 146096) / 365 in
  let doy := doe - (365 * yoe + yoe / 4 - yoe / 100) in
  let mp := (5 * doy + 2) / 153 in
  let d := doy - (153 * mp + 2) / 5 + 1 in
  let m := if mp <? 10 then mp + 3 else mp - 9 in
  let y := yoe + era * 400 + (if m <=? 2 then 1 else 0) in
  (y, m - 1, d).

Definition getUTCFullYear (d : t) : JsNumber.t :=
  (fun tv => (civil_of_day (tv / msPerDay)).1.1) <$> d.
Definition getUTCMonth (d : t) : JsNumber.t :=
  (fun tv => (civil_of_day (tv / msPerDay)).1.2) <$> d.
Definition getUTCDate (d : t) : JsNumber.t :=
  (fun tv => (civil_of_day (tv / msPerDay)).2) <$> d.

End JsDate.

(** ** helperModels.js: the date codec *)

Module BankDate.

(** [BankDate.parse(year, month, day)]. *)
Definition parse (year month day : string) : JsDate.t :=
  let fullyear := JsNumber.parseInt year in
  let fullyear :=
    if JsNumber.lt fullyear (Some 100)
    then JsNumber.add fullyear (Some 2000)
    else fullyear in
  JsDate.UTC fullyear
             (JsNumber.sub (JsNumber.parseInt month) (Some 1))
             (JsNumber.of_digit_string day).

End BankDate.

(** ** Regular expressions

    The backtracking matcher of JavaScript for the constructs the tag
    patterns use, in continuation-passing style as the language
    definition gives it.  A state is an index into the input, the rest of
    the input from there, and the captures so far. *)

Module Regex.

Inductive re : Type :=
| Eps
| Chr (p : ascii -> bool)           (* one character of a class *)
| Bol                               (* ^ *)
| Eol                               (* $ *)
| Seq (r1 r2 : re)
| Alt (r1 r2 : re)
| Rep (lo : nat) (hi : option nat) (greedy : bool) (r : re)
| Grp (n : nat) (r : re)            (* capturing group number n *)
| Look (r : re).                    (* (?=r) *)

Abbreviation captures := (gmap nat string) (only parsing).
Definition state : Type := (nat * string * captures)%type.
Definition cont : Type := nat -> string -> captures -> option state.

(** The first [n] characters of a string. *)
Fixpoint take (n : nat) (s : string) : string :=
  match n, s with
  | S n', String c rest => String c (take n' rest)
  | _, _ => EmptyString
  end.

(** The groups inside an expression: a repetition clears them before
    each iteration. *)
Fixpoint groups (r : re) : list nat :=
  match r with
  | Eps | Chr _ | Bol | Eol => []
  | Seq r1 r2 | Alt r1 r2 => groups r1 ++ groups r2
  | Rep _ _ _ r1 | Look r1 => groups r1
  | Grp n r1 => n :: groups r1
  end.

Definition clear (gs : list nat) (cs : captures) : captures :=
  foldr delete cs gs.

Definition dec_hi (hi : option nat) : option nat := Nat.pred <$> hi.

(** The repetition of a matcher [step], between [lo] and [hi] times.
    Every iteration beyond the mandatory ones consumes input, so
    [lo] plus the length of the rest bounds their number: [fuel]. *)
Fixpoint repeat (step : nat -> string -> captures -> cont -> option state)
    (gs : list nat) (greedy : bool) (fuel : nat) (lo : nat) (hi : option nat)
    (i : nat) (s : string) (cs : captures) (k : cont) : option state :=
  match fuel with
  | O => k i s cs
  | S fuel' =>
      if bool_decide (hi = Some O) then k i s cs
      else
        let d : cont := fun i' s' cs' =>
          if (lo =? 0)%nat && (i' =? i)%nat then None
          else repeat step gs greedy fuel' (Nat.pred lo) (dec_hi hi)
                      i' s' cs' k in
        let iterate := step i s (clear gs cs) d in
        if negb (lo =? 0)%nat then iterate
        else if greedy then
          match iterate with
          | Some z => Some z
          | None => k i s cs
          end
        else
          match k i s cs with
          | Some z => Some z
          | None => iterate
          end
  end.

Fixpoint m (r : re) (i : nat) (s : string) (cs : captures) (k : cont)
    : option state :=
  match r with
  | Eps => k i s cs
  | Chr p =>
      match s with
      | String c rest => if p c then k (S i) rest cs else None
      | EmptyString => None
      end
  | Bol => if (i =? 0)%nat then k i s cs else None
  | Eol => if String.eqb s EmptyString then k i s cs else None
  | Seq r1 r2 => m r1 i s cs (fun i' s' cs' => m r2 i' s' cs' k)
  | Alt r1 r2 =>
      match m r1 i s cs k with
      | Some z => Some z
      | None => m r2 i s cs k
      end
  | Rep lo hi greedy r1 =>
      repeat (m r1) (groups r1) greedy (lo + String.length s) lo hi i s cs k
  | Grp n r1 =>
      m r1 i s cs (fun i' s' cs' => k i' s' (<[n := take (i' - i) s]> cs'))
  | Look r1 =>
      match m r1 i s cs (fun i' s' cs' => Some (i', s', cs')) with
      | Some (_, _, cs') => k i s cs'
      | None => None
      end
  end.

(** The result of [exec]: [match[0]], the captures [match[n]], and the
    indices where the match starts and ends. *)
Record match_result : Type := MkMatch {
  whole : string;
  group : captures;
  index : nat;
  end_index : nat
}.

Definition match_at (r : re) (i : nat) (s : string) : option match_result :=
  match m r i s ∅ (fun i' s' cs' => Some (i', s', cs')) with
  | Some (i', _, cs') => Some (MkMatch (take (i' - i) s) cs' i i')
  | None => None
  end.

(** The search of [exec] at the index [i], where the rest of the input
    is [s], and then at every later index. *)
Fixpoint search (r : re) (i : nat) (s : string) : option match_result :=
  match match_at r i s with
  | Some mr => Some mr
  | None =>
      match s with
      | String _ rest => search r (S i) rest
      | EmptyString => None
      end
  end.

(** The rest of a string from an index; [None] past its end. *)
Fixpoint drop (n : nat) (s : string) : option string :=
  match n, s with
  | O, _ => Some s
  | S n', String _ rest => drop n' rest
  | S _, EmptyString => None
  end.

(** [re.exec(input)] of an expression without flags. *)
Definition exec (r : re) (input : string) : option match_result :=
  search r 0 input.

(** [re.exec(input)] of an expression with the flag [g], whose
    [lastIndex] is given; the result comes with the new [lastIndex]. *)
Definition exec_global (r : re) (input : string) (lastIndex : nat)
    : option match_result * nat :=
  match drop lastIndex input with
  | None => (None, O)
  | Some s =>
      match search r lastIndex s with
      | Some mr => (Some mr, end_index mr)
      | None => (None, O)
      end
  end.

(** *** Character classes and abbreviations *)

Definition lit (c : ascii) : re := Chr (Ascii.eqb c).
Definition code (c : ascii) : Z := Z.of_N (N_of_ascii c).
Definition line_terminator (c : ascii) : bool :=
  (code c =? 10) || (code c =? 13).
(** [.] *)
Definition dot : ascii -> bool := fun c => negb (line_terminator c).
(** [\d] *)
Definition digit : ascii -> bool := JsString.is_digit.
(** [[A-Z]] *)
Definition upper : ascii -> bool :=
  fun c => (65 <=? code c) && (code c <=? 90).
(** A class given by the list of its characters. *)
Definition one_of (l : string) : ascii -> bool :=
  fun c => existsb (Ascii.eqb c) (list_ascii_of_string l).
Definition any : ascii -> bool := fun _ => true.

Definition opt (r : re) : re := Rep 0 (Some 1%nat) true r.
Definition star (r : re) : re := Rep 0 None true r.
Definition star_lazy (r : re) : re := Rep 0 None false r.
Definition times (n : nat) (r : re) : re := Rep n (Some n) true r.
Definition upto (lo hi : nat) (r : re) : re := Rep lo (Some hi) true r.

End Regex.

Declare Scope re_scope.
Delimit Scope re_scope with re.
Bind Scope re_scope with Regex.re.
Infix "⋅" := Regex.Seq (at level 40, left associativity) : re_scope.
Infix "∣" := Regex.Alt (at level 50, left associativity) : re_scope.

(** ** tags.js: values, identifiers and the tag classes *)

(** A JavaScript value used as a tag identifier or as a key of the tag
    map: a number (an integer or [NaN]) or a string. *)
Inductive jsval : Type :=
| Num (n : JsNumber.t)
| Str (s : string).

#[global] Instance jsval_eq_dec : EqDecision jsval.
Proof. solve_decision. Defined.

#[global] Instance jsval_countable : Countable jsval.
Proof.
  refine (inj_countable'
            (fun v => match v with Num n => inl n | Str s => inr s end)
            (fun x => match x with inl n => Num n | inr s => Str s end) _).
  intros [n|s]; reflexivity.
Defined.

(** [v.toString()]. *)
Definition jsval_toString (v : jsval) : string :=
  match v with
  | Num (Some n) => JsString.of_Z n
  | Num None => "NaN"
  | Str s => s
  end.

(** The value of a field.  [VInstant input format] is the [Date] that
    [moment(input, format).toDate()] returns: moment is an external
    library, and its result is not interpreted. *)
Inductive value : Type :=
| VUndefined
| VStr (s : string)
| VBool (b : bool)
| VDate (d : JsDate.t)
| VAmount (a : BigNumber.t)
| VInstant (input format : string).

#[global] Instance value_eq_dec : EqDecision value.
Proof. solve_decision. Defined.

(** [fields[name]]: [undefined] for a name that is not set. *)
Definition get_field (f : gmap string value) (name : string) : value :=
  match f !! name with
  | Some v => v
  | None => VUndefined
  end.

(** [o || ''] for a captured group [o]. *)
Definition or_empty (o : option string) : string :=
  match o with
  | Some s => s
  | None => ""
  end.

(** A captured group as an argument that is converted to a string:
    [undefined] reads as the string of that name. *)
Definition str_arg (o : option string) : string :=
  match o with
  | Some s => s
  | None => "undefined"
  end.

(** A captured group as field value. *)
Definition str_value (o : option string) : value :=
  match o with
  | Some s => VStr s
  | None => VUndefined
  end.

(** A captured group whose property is read ([.length], [[0]]): a
    [TypeError] when it is [undefined]. *)
Definition defined (o : option string) : result string :=
  match o with
  | Some s => Ok s
  | None => Throw "Cannot read properties of undefined"
  end.

(** [BigNumber(o)] for a captured group [o]. *)
Definition big_number (o : option string) : BigNumber.t :=
  match o with
  | Some s => BigNumber.of_string s
  | None => BigNumber.NaN
  end.

Module helperModels.

Definition Date_parse (year month day : option string) : JsDate.t :=
  BankDate.parse (str_arg year) (str_arg month) (str_arg day).

(** [BankDate.forOffsetDateTime({date, time, offset})]. *)
Definition Date_forOffsetDateTime (date time offset : option string) : value :=
  VInstant (str_arg date ++ str_arg time ++ str_arg offset) "YYMMDDHmmZZ".

Definition Amount_parse (dcmark amountStr : option string)
    : result BigNumber.t :=
  dc ← defined dcmark;
  a ← defined amountStr;
  BankAmount.parse dc a.

End helperModels.

(** The concrete tag classes: the ones of the tag map. *)
Inductive tag_class : Type :=
| TagTransactionReferenceNumber
| TagRelatedReference
| TagAccountIdentification
| TagStatementNumber
| TagDebitAndCreditFloorLimit
| TagDateTimeIndication
| TagDateTimeIndication13
| TagNonSwift
| TagOpeningBalance
| TagClosingBalance
| TagNumberAndSumOfEntriesD
| TagNumberAndSumOfEntriesC
| TagClosingAvailableBalance
| TagForwardAvailableBalance
| TagStatementLine
| TagTransactionDetails
| TagMessageBlock.

#[global] Instance tag_class_eq_dec : EqDecision tag_class.
Proof. solve_decision. Defined.

(** [static get ID()]. *)
Definition ID (c : tag_class) : jsval :=
  match c with
  | TagTransactionReferenceNumber => Num (Some 20)
  | TagRelatedReference => Num (Some 21)
  | TagAccountIdentification => Num (Some 25)
  | TagStatementNumber => Num (Some 28)
  | TagDebitAndCreditFloorLimit => Str "34F"
  | TagDateTimeIndication => Str "13D"
  | TagDateTimeIndication13 => Str "13"
  | TagNonSwift => Str "NS"
  | TagOpeningBalance => Num (Some 60)
  | TagClosingBalance => Num (Some 62)
  | TagNumberAndSumOfEntriesD => Str "90D"
  | TagNumberAndSumOfEntriesC => Str "90C"
  | TagClosingAvailableBalance => Num (Some 64)
  | TagForwardAvailableBalance => Num (Some 65)
  | TagStatementLine => Num (Some 61)
  | TagTransactionDetails => Num (Some 86)
  | TagMessageBlock => Str "MB"
  end.

Section Patterns.
Import Regex.
Local Open Scope re_scope.

Definition PATTERN_Balance : re :=
  Bol ⋅ Grp 1 (Chr (one_of "DC"))                          (* DC indicator *)
  ⋅ Grp 2 (times 2 (Chr digit)) ⋅ Grp 3 (times 2 (Chr digit))
  ⋅ Grp 4 (times 2 (Chr digit))                            (* Date *)
  ⋅ Grp 5 (times 3 (Chr upper))                            (* Currency *)
  ⋅ Grp 6 (upto 0 16 (Chr (one_of "0123456789,"))).        (* Amount *)

Definition PATTERN_NumberAndSumOfEntries : re :=
  Bol ⋅ Grp 1 (upto 1 5 (Chr digit)) ⋅ Grp 2 (times 3 (Chr upper))
  ⋅ Grp 3 (upto 1 15 (Chr digit)).

Definition PATTERN_StatementLine : re :=
  Bol ⋅ Grp 1 (times 2 (Chr digit)) ⋅ Grp 2 (times 2 (Chr digit))
  ⋅ Grp 3 (times 2 (Chr digit))                            (* Date *)
  ⋅ opt (Grp 4 (Grp 5 (times 2 (Chr digit))
                ⋅ Grp 6 (times 2 (Chr digit))))            (* Entry date *)
  ⋅ Grp 7 (opt (Chr (one_of "E|R")) ⋅ Chr (one_of "DC"))
  ⋅ opt (Grp 8 (Chr upper))                  (* DC indicator + funds code *)
  ⋅ Grp 9 (upto 0 16 (Chr (one_of "0123456789,")))         (* Amount *)
  ⋅ Grp 10 (Chr upper
            ⋅ times 3 (Chr (fun c => upper c || digit c)))  (* Transaction type *)
  ⋅ Grp 11 (upto 0 16
              (Chr (fun c => negb (Ascii.eqb c "/")
                           && negb (code c =? 10)%Z)))     (* Customer reference *)
  ⋅ opt (Grp 12 (lit "/" ⋅ lit "/"
                 ⋅ Grp 13 (upto 0 16 (Chr dot))))          (* Bank reference *)
  ⋅ opt (Grp 14 (Chr (fun c => (code c =? 10)%Z)
                 ⋅ Grp 15 (upto 0 34 (Chr dot)))).         (* Extra *)

Definition PATTERN_MessageBlock : re :=
  Grp 1 (Bol ⋅ lit "-" ⋅ lit "}")
  ∣ Grp 2 (lit "{" ⋅ Grp 3 (Chr digit) ⋅ lit ":"
           ⋅ Grp 4 (star_lazy (Chr dot))
           ⋅ Grp 5 (Eol
                    ∣ lit "}"
                      ⋅ Look (Grp 6 (lit "{" ⋅ Chr digit ⋅ lit ":") ∣ Eol))).

(** [static get PATTERN()]. *)
Definition PATTERN (c : tag_class) : re :=
  match c with
  | TagTransactionReferenceNumber => Bol ⋅ Grp 1 (upto 0 16 (Chr dot))
  | TagRelatedReference => Bol ⋅ Grp 1 (upto 0 16 (Chr dot))
  | TagAccountIdentification => Bol ⋅ Grp 1 (upto 0 35 (Chr dot))
  | TagStatementNumber =>
      Bol ⋅ Grp 1 (upto 1 5 (Chr digit))
      ⋅ opt (Grp 2 (lit "/" ⋅ Grp 3 (upto 1 5 (Chr digit))))
      ⋅ opt (Grp 4 (lit "/" ⋅ Grp 5 (upto 1 5 (Chr digit))))
  | TagDebitAndCreditFloorLimit =>
      Bol ⋅ Grp 1 (times 3 (Chr upper)) ⋅ opt (Grp 2 (times 1 (Chr upper)))
      ⋅ Grp 3 (upto 1 15 (Chr digit))
  | TagDateTimeIndication =>
      Bol ⋅ Grp 1 (times 6 (Chr digit)) ⋅ Grp 2 (times 4 (Chr digit))
      ⋅ Grp 3 (times 1 (Chr (one_of "+-")) ⋅ times 4 (Chr digit))
  | TagDateTimeIndication13 =>
      Bol ⋅ Grp 1 (times 6 (Chr digit)) ⋅ Grp 2 (times 4 (Chr digit))
  | TagNonSwift => Bol ⋅ Grp 1 (star (Chr dot))
  | TagOpeningBalance | TagClosingBalance
  | TagClosingAvailableBalance | TagForwardAvailableBalance =>
      PATTERN_Balance
  | TagNumberAndSumOfEntriesD | TagNumberAndSumOfEntriesC =>
      PATTERN_NumberAndSumOfEntries
  | TagStatementLine => PATTERN_StatementLine
  | TagTransactionDetails => Bol ⋅ Grp 1 (upto 0 390 (Chr any))
  | TagMessageBlock => PATTERN_MessageBlock
  end.

(** Whether the pattern has the flag [g]. *)
Definition global (c : tag_class) : bool :=
  match c with TagMessageBlock => true | _ => false end.

End Patterns.

(** ** tags.js: the tag instances *)

(** A tag instance.  [isStarting] is a property of message blocks only.
    The attribute [re] is the pattern of the class; of its state only
    [lastIndex] changes, and only for the message block. *)
Record Tag : Type := MkTag {
  id : jsval;
  data : string;
  fields : gmap string value;
  isStarting : option bool;
  lastIndex : nat
}.

(** [_nextMatch()]: [this.re.exec(this.data)], with the [lastIndex] of
    [this.re] before and after. *)
Definition _nextMatch (c : tag_class) (data : string) (lastIndex : nat)
    : option Regex.match_result * nat :=
  if global c then Regex.exec_global (PATTERN c) data lastIndex
  else (Regex.exec (PATTERN c) data, lastIndex).

Definition extractFields_Balance (mt : Regex.match_result)
    : result (gmap string value) :=
  let g := Regex.group mt in
  let date := helperModels.Date_parse (g !! 2%nat) (g !! 3%nat) (g !! 4%nat) in
  amount ← helperModels.Amount_parse (g !! 1%nat) (g !! 6%nat);
  Ok (<["date" := VDate date]>
      (<["currency" := str_value (g !! 5%nat)]>
      (<["amount" := VAmount amount]> ∅))).

Definition extractFields_NumberAndSumOfEntries (mt : Regex.match_result)
    : result (gmap string value) :=
  let g := Regex.group mt in
  Ok (<["number" := str_value (g !! 1%nat)]>
      (<["currency" := str_value (g !! 2%nat)]>
      (<["amount" := VAmount (big_number (g !! 3%nat))]> ∅))).

Definition extractFields_StatementLine (mt : Regex.match_result)
    : result (gmap string value) :=
  let g := Regex.group mt in
  let date := helperModels.Date_parse (g !! 1%nat) (g !! 2%nat) (g !! 3%nat) in
  let entryDate :=
    match g !! 4%nat with
    | Some (String _ _) =>
        VDate (helperModels.Date_parse (g !! 1%nat) (g !! 5%nat) (g !! 6%nat))
    | _ => VStr ""
    end in
  amount ← helperModels.Amount_parse (g !! 7%nat) (g !! 9%nat);
  mark ← defined (g !! 7%nat);
  Ok (<["date" := VDate date]>
      (<["entryDate" := entryDate]>
      (<["fundsCode" := VStr (or_empty (g !! 8%nat))]>
      (<["amount" := VAmount amount]>
      (<["isReversal" :=
           VBool (bool_decide (JsString.at_index mark 0 = Some "R"))]>
      (<["transactionType" := str_value (g !! 10%nat)]>
      (<["reference" := str_value (g !! 11%nat)]>
      (<["bankReference" := VStr (or_empty (g !! 13%nat))]>
      (<["extraDetails" := VStr (or_empty (g !! 15%nat))]>
      (<["creditDebitIndicator" := str_value (g !! 7%nat)]> ∅)))))))))).

(** The loop of [TagMessageBlock._extractFields]: one field per match,
    then the next match from where the last one ended.  A match is never
    empty, so the length of the data bounds the number of rounds:
    [fuel]; [None] when it runs out. *)
Fixpoint scan_blocks (fuel : nat) (data : string)
    (mt : option Regex.match_result) (lastIndex : nat)
    (fields : gmap string value) : option (gmap string value * nat) :=
  match mt with
  | None => Some (fields, lastIndex)
  | Some mr =>
      match fuel with
      | O => None
      | S fuel' =>
          let fields' :=
            if String.eqb (Regex.whole mr) "-}"
            then <["EOB" := VStr ""]> fields
            else <[str_arg (Regex.group mr !! 3%nat)
                   := str_value (Regex.group mr !! 4%nat)]> fields in
          let '(mt', lastIndex') := _nextMatch TagMessageBlock data lastIndex in
          scan_blocks fuel' data mt' lastIndex' fields'
      end
  end.

(** [_extractFields(match)] of each class: the fields, and for the
    message block the flag [isStarting] and the [lastIndex] its pattern
    is left with. *)
Definition _extractFields (c : tag_class) (data : string)
    (mt : Regex.match_result) (lastIndex : nat)
    : option (result (gmap string value * option bool * nat)) :=
  let g := Regex.group mt in
  let plain (r : result (gmap string value)) :=
    Some (f ← r; Ok (f, None, lastIndex)) in
  match c with
  | TagTransactionReferenceNumber =>
      plain (Ok {["transactionReference" := str_value (g !! 1%nat)]})
  | TagRelatedReference =>
      plain (Ok {["relatedReference" := str_value (g !! 1%nat)]})
  | TagAccountIdentification =>
      plain (Ok {["accountIdentification" := str_value (g !! 1%nat)]})
  | TagStatementNumber =>
      plain (Ok (<["statementNumber" := str_value (g !! 1%nat)]>
                 (<["sequenceNumber" := VStr (or_empty (g !! 3%nat))]>
                 (<["sectionNumber" := VStr (or_empty (g !! 5%nat))]> ∅))))
  | TagDebitAndCreditFloorLimit =>
      plain (Ok (<["currency" := str_value (g !! 1%nat)]>
                 (<["dcMark" := VStr (or_empty (g !! 2%nat))]>
                 (<["amount" := VAmount (big_number (g !! 3%nat))]> ∅))))
  | TagDateTimeIndication =>
      plain (Ok {["dateTimestamp" :=
                    helperModels.Date_forOffsetDateTime
                      (g !! 1%nat) (g !! 2%nat) (g !! 3%nat)]})
  | TagDateTimeIndication13 =>
      plain (Ok {["dateTimestamp" :=
                    helperModels.Date_forOffsetDateTime
                      (g !! 1%nat) (g !! 2%nat) (Some "0000")]})
  | TagNonSwift =>
      plain (Ok {["nonSwift" := str_value (g !! 1%nat)]})
  | TagOpeningBalance | TagClosingBalance
  | TagClosingAvailableBalance | TagForwardAvailableBalance =>
      plain (extractFields_Balance mt)
  | TagNumberAndSumOfEntriesD | TagNumberAndSumOfEntriesC =>
      plain (extractFields_NumberAndSumOfEntries mt)
  | TagStatementLine =>
      plain (extractFields_StatementLine mt)
  | TagTransactionDetails =>
      plain (Ok {["transactionDetails" := str_value (g !! 1%nat)]})
  | TagMessageBlock =>
      match scan_blocks (S (String.length data)) data (Some mt) lastIndex ∅ with
      | Some (f, li) =>
          Some (Ok (f, Some (bool_decide (get_field f "1" ≠ VUndefined)), li))
      | None => None
      end
  end.

(** [new tagClass(data)]: the constructor of [Tag] with [_parse()].
    [None] stands for a construction that does not return. *)
Definition Tag_new (c : tag_class) (data : string) : option (result Tag) :=
  let '(mt, li) := _nextMatch c data 0 in
  match mt with
  | None =>
      Some (Throw ("Cannot parse tag " ++ jsval_toString (ID c) ++ ": " ++ data))
  | Some mr =>
      match _extractFields c data mr li with
      | Some (Ok (f, st, li')) => Some (Ok (MkTag (ID c) data f st li'))
      | Some (Throw msg) => Some (Throw msg)
      | None => None
      end
  end.

(** ** tags.js: the factory *)

Module TagFactory.

(** The classes in the order of the constructor's list. *)
Definition classes : list tag_class :=
  [ TagTransactionReferenceNumber; TagRelatedReference;
    TagAccountIdentification; TagStatementNumber;
    TagDebitAndCreditFloorLimit; TagDateTimeIndication; TagNonSwift;
    TagOpeningBalance; TagClosingBalance; TagNumberAndSumOfEntriesD;
    TagNumberAndSumOfEntriesC; TagStatementLine; TagTransactionDetails;
    TagClosingAvailableBalance; TagForwardAvailableBalance;
    TagMessageBlock; TagDateTimeIndication13 ].

(** [this.tagMap]: the [reduce] over the list with [map.set(i.ID, i)]. *)
Definition tagMap : gmap jsval tag_class :=
  foldl (fun map i => <[ID i := i]> map) ∅ classes.

(** [isNaN(id)] for a tag identifier. *)
Definition isNaN (v : jsval) : bool :=
  match v with
  | Num n => bool_decide (n = None)
  | Str s => negb (JsNumber.is_numeric_string s)
  end.

(** [Number.parseInt(id, 10)]: the identifier is converted to a string
    first. *)
Definition parseInt (v : jsval) : JsNumber.t :=
  JsNumber.parseInt (jsval_toString v).

(** [createTag(id, subId, data)]; [subId] is [None] when it is
    [undefined]. *)
Definition createTag (id : jsval) (subId : option string) (data : string)
    : option (result Tag) :=
  let tagId := if isNaN id then id else Num (parseInt id) in
  let fullTagId :=
    jsval_toString tagId ++
    (match subId with
     | Some (String c r) => String c r
     | _ => ""
     end) in
  let tagClass :=
    match tagMap !! Str fullTagId with
    | Some c => Some c
    | None => tagMap !! tagId
    end in
  match tagClass with
  | None => Some (Throw ("Unknown tag " ++ fullTagId))
  | Some c => Tag_new c data
  end.

End TagFactory.


(** ** Notions used to state the properties *)

Module DateSpec.

(** The date made of a year, a month (0 to 11) and a day has these as
    its UTC year, month and day. *)
Definition is_calendar_date (t : JsDate.t) (y mn d : Z) : Prop :=
  JsDate.getUTCFullYear t = Some y
  ∧ JsDate.getUTCMonth t = Some mn
  ∧ JsDate.getUTCDate t = Some d.

Definition is_calendar_date_b (t : JsDate.t) (y mn d : Z) : bool :=
  match t with
  | Some tv =>
      let '(y', mn', d') := JsDate.civil_of_day (tv / JsDate.msPerDay) in
      (y' =? y) && (mn' =? mn) && (d' =? d)
  | None => false
  end.

(** [Date.UTC] makes the calendar date of every day [d0 + 1 ..] of the
    month, every month of the year [2000 + i]: the check that is run
    for the years 2000 to 2099. *)
Definition year_ok (i : nat) : bool :=
  let y := 2000 + Z.of_nat i in
  forallb (fun mn =>
    forallb (fun d0 =>
      is_calendar_date_b
        (JsDate.UTC (Some y) (Some (Z.of_nat mn)) (Some (Z.of_nat d0 + 1)))
        y (Z.of_nat mn) (Z.of_nat d0 + 1))
      (seq 0 (Z.to_nat (JsDate.DaysInMonth y (Z.of_nat mn)))))
    (seq 0 12).

(** The two-digit string of the digits [a] and [b], and its value. *)
Definition two (a b : ascii) : string := String a (String b "").
Definition two_value (a b : ascii) : Z :=
  10 * JsString.digit_value a + JsString.digit_value b.

End DateSpec.

Module AmountSpec.

(** [x.multipliedBy(-1)]. *)
Definition negated (x : BigNumber.t) : BigNumber.t :=
  BigNumber.multipliedBy x (BigNumber.of_Z (-1)).

(** Scaling by 100, an integer by the rounding mode [rm], scaling back. *)
Definition to_hundredths (rm : BigNumber.rounding_mode) (x : BigNumber.t)
    : BigNumber.t :=
  BigNumber.dividedBy
    (BigNumber.integerValue_rm rm
       (BigNumber.multipliedBy x (BigNumber.of_Z 100)))
    (BigNumber.of_Z 100).

(** The magnitude [c * 10^e] as an integer, by the rounding mode [rm]
    for a value of sign [neg]. *)
Definition integer_of (rm : BigNumber.rounding_mode) (neg : bool)
    (c : N) (e : Z) : N :=
  if 0 <=? e then (c * BigNumber.pow10 e)%N
  else BigNumber.round_magnitude rm neg
         (c / BigNumber.pow10 (- e)) (c mod BigNumber.pow10 (- e))
         (BigNumber.pow10 (- e)).

(** Truncation to two decimal places: the integer part is taken towards
    zero. *)
Definition truncate2 : BigNumber.t -> BigNumber.t :=
  to_hundredths BigNumber.ROUND_DOWN.

(** Rounding to two decimal places, a half away from zero. *)
Definition round2 : BigNumber.t -> BigNumber.t :=
  to_hundredths BigNumber.ROUND_HALF_UP.

(** The magnitude that [parse] reads from an amount string. *)
Definition magnitude (amountStr : string) : BigNumber.t :=
  BigNumber.of_string (JsString.replace_first "," "." amountStr).

(** The reversal or expected mark and the debit or credit mark that
    [parse] takes from a marker. *)
Definition marks (dcmark : string) : option string * option string :=
  if (String.length dcmark =? 2)%nat
  then (JsString.at_index dcmark 0, JsString.at_index dcmark 1)
  else (None, Some dcmark).

(** The six markers: a debit or credit mark, alone or after [E] or [R]. *)
Definition markers : list string := ["C"; "D"; "EC"; "ED"; "RC"; "RD"].

(** The debit or credit mark is [D]. *)
Definition is_debit (dcmark : string) : bool :=
  bool_decide ((marks dcmark).2 = Some "D").

(** The leading mark is [R]. *)
Definition is_reversal (dcmark : string) : bool :=
  bool_decide ((marks dcmark).1 = Some "R").

(** The magnitude with the sign of a marker: negated for a debit, and
    negated again for a reversal. *)
Definition signed (dcmark : string) (a : BigNumber.t) : BigNumber.t :=
  let a := if is_debit dcmark then negated a else a in
  if is_reversal dcmark then negated a else a.

End AmountSpec.

Module RegexSpec.

(** From the index [i], where the rest of the input is [s], the matcher
    has come to the index [i'], where the rest is [s']. *)
Definition advances (i : nat) (s : string) (i' : nat) (s' : string) : Prop :=
  ∃ n, i' = (i + n)%nat ∧ Regex.drop n s = Some s'.

(** What a successful match has done when it gets to its continuation
    [k] with the result [z]: it has advanced, and has set none but the
    groups [gs]. *)
Definition reaches (gs : list nat) (i : nat) (s : string)
    (cs : Regex.captures) (k : Regex.cont) (z : Regex.state) : Prop :=
  ∃ i' s' cs', k i' s' cs' = Some z ∧ advances i s i' s'
               ∧ ∀ n, n ∉ gs → cs' !! n = cs !! n.

(** The longest prefix of characters of the class [p], of at most [hi]
    characters when [hi] is given. *)
Fixpoint prefix_while (p : ascii -> bool) (hi : option nat) (s : string)
    : string :=
  match s with
  | String c rest =>
      if bool_decide (hi = Some O) then EmptyString
      else if p c then String c (prefix_while p (Regex.dec_hi hi) rest)
      else EmptyString
  | EmptyString => EmptyString
  end.

(** The rest of a string after the first [n] characters. *)
Fixpoint skip (n : nat) (s : string) : string :=
  match n, s with
  | S n', String _ rest => skip n' rest
  | _, _ => s
  end.

Definition starts_with (pre s : string) : bool :=
  String.eqb (Regex.take (String.length pre) s) pre.

End RegexSpec.

Module TagSpec.

(** The identifier that [createTag] looks up: the number that [parseInt]
    reads from [id] when [id] is a number, [id] itself when not. *)
Definition tag_id (id : jsval) : jsval :=
  if TagFactory.isNaN id then id else Num (TagFactory.parseInt id).

(** The composite key: the string of the tag identifier, then the
    sub-identifier if there is one. *)
Definition composite_key (id : jsval) (subId : option string) : string :=
  jsval_toString (tag_id id) ++ or_empty subId.

(** The names of the fields of each class, as the table of the grammars
    gives them; the fields of a message block depend on its data. *)
Definition field_names (c : tag_class) : list string :=
  match c with
  | TagTransactionReferenceNumber => ["transactionReference"]
  | TagRelatedReference => ["relatedReference"]
  | TagAccountIdentification => ["accountIdentification"]
  | TagStatementNumber => ["statementNumber"; "sequenceNumber"; "sectionNumber"]
  | TagDebitAndCreditFloorLimit => ["currency"; "dcMark"; "amount"]
  | TagDateTimeIndication | TagDateTimeIndication13 => ["dateTimestamp"]
  | TagNonSwift => ["nonSwift"]
  | TagOpeningBalance | TagClosingBalance
  | TagClosingAvailableBalance | TagForwardAvailableBalance =>
      ["date"; "currency"; "amount"]
  | TagNumberAndSumOfEntriesD | TagNumberAndSumOfEntriesC =>
      ["number"; "currency"; "amount"]
  | TagStatementLine =>
      ["date"; "entryDate"; "fundsCode"; "amount"; "isReversal";
       "transactionType"; "reference"; "bankReference"; "extraDetails";
       "creditDebitIndicator"]
  | TagTransactionDetails => ["transactionDetails"]
  | TagMessageBlock => []
  end.

(** A line feed between two lines. *)
Definition two_lines : string := "ab" ++ String "010" "cd".

(** The captures of a match of a block [{d:content]: the digit and the
    content. *)
Definition is_block (mr : Regex.match_result) : Prop :=
  ∃ d v, Regex.group mr !! 3%nat = Some (String d "")
         ∧ Regex.digit d = true
         ∧ Regex.group mr !! 4%nat = Some v
         ∧ Regex.whole mr ≠ "-}".

(** The values of the fields are all strings. *)
Definition all_strings (f : gmap string value) : Prop :=
  ∀ name v, f !! name = Some v → ∃ s, v = VStr s.

(** The round of [scan_blocks] after a field is set: the next match and
    the rest of the loop. *)
Definition next_round (fuel : nat) (data : string) (lastIndex : nat)
    (f : gmap string value) : option (gmap string value * nat) :=
  let '(mt, lastIndex') := _nextMatch TagMessageBlock data lastIndex in
  scan_blocks fuel data mt lastIndex' f.

(** The text of two blocks and a terminator. *)
Definition two_blocks : string := "{1:F01BANKXXXX}{2:abc}-}".

(** What a match of the pattern of the statement line says of the data:
    three groups of two digits, then the entry date of four digits or
    nothing, then the mark, which does not start with a digit. *)
Definition statement_line_parts (data : string) (mr : Regex.match_result)
    (y mo d mark : string) (entry : option (string * string)) : Prop :=
  let g := Regex.group mr in
  (∃ y1 y2 m1 m2 d1 d2,
     y = String y1 (String y2 "") ∧ mo = String m1 (String m2 "")
     ∧ d = String d1 (String d2 "")
     ∧ forallb Regex.digit [y1; y2; m1; m2; d1; d2] = true)
  ∧ g !! 1%nat = Some y ∧ g !! 2%nat = Some mo ∧ g !! 3%nat = Some d
  ∧ g !! 7%nat = Some mark
  ∧ (∃ c tl, mark = String c tl ∧ Regex.digit c = false)
  ∧ match entry with
    | Some (em, ed) =>
        (∃ e1 e2 e3 e4,
           em = String e1 (String e2 "") ∧ ed = String e3 (String e4 "")
           ∧ forallb Regex.digit [e1; e2; e3; e4] = true)
        ∧ g !! 4%nat = Some (em ++ ed)
        ∧ g !! 5%nat = Some em ∧ g !! 6%nat = Some ed
        ∧ ∃ rest, data = y ++ mo ++ d ++ em ++ ed ++ mark ++ rest
    | None =>
        g !! 4%nat = None
        ∧ ∃ rest, data = y ++ mo ++ d ++ mark ++ rest
    end.

(** A statement line without an entry date, and one with it. *)
Definition line_without_entry : string := "090202RD400,00NMSCNONREF".
Definition line_with_entry : string := "0902020203D400,00NMSCNONREF//BANK".

(** A balance without an amount. *)
Definition balance_without_amount : string := "C090202EUR".

(** A tag with one field. *)
Definition one_field (c : tag_class) (data name content : string) : Tag :=
  MkTag (ID c) data {[name := VStr content]} None 0.

End TagSpec.

Module ExtraSpec.

(** The numeric identifiers of the tag map. *)
Definition numeric_ids : list Z := [20; 21; 25; 28; 60; 61; 62; 64; 65; 86]%Z.

(** The strings that the tag grammars give as amounts: digits and
    commas. *)
Fixpoint amount_chars (s : string) : bool :=
  match s with
  | String c rest => (JsString.is_digit c || Ascii.eqb c ",") && amount_chars rest
  | EmptyString => true
  end.

Fixpoint count_commas (s : string) : nat :=
  match s with
  | String c rest => ((if Ascii.eqb c "," then 1 else 0) + count_commas rest)%nat
  | EmptyString => O
  end.

Fixpoint has_digit (s : string) : bool :=
  match s with
  | String c rest => JsString.is_digit c || has_digit rest
  | EmptyString => false
  end.

(** An amount string that is read: at least one digit, and at most one
    comma. *)
Definition well_formed_amount (s : string) : bool :=
  has_digit s && (count_commas s <=? 1)%nat.

(** The characters of a string are all of a class. *)
Definition all_of_class (p : ascii -> bool) (s : string) : bool :=
  forallb p (list_ascii_of_string s).

(** The value of a field that is a string of one to [n] characters of a
    class. *)
Definition class_string (p : ascii -> bool) (lo hi : nat) (s : string) : Prop :=
  all_of_class p s = true ∧ (lo <= String.length s <= hi)%nat.

(** The fields of a tag of number and sum of entries. *)
Definition entries_fields (number currency : string) (amount : Z)
    : gmap string value :=
  <["number" := VStr number]>
    (<["currency" := VStr currency]>
       {["amount" := VAmount (BigNumber.of_Z amount)]}).

(** Data that start with the parts of a tag of number and sum of
    entries. *)
Definition entries_shape (data number currency ds rest : string) : Prop :=
  data = number ++ currency ++ ds ++ rest
  ∧ class_string Regex.digit 1 5 number
  ∧ class_string Regex.upper 3 3 currency
  ∧ class_string Regex.digit 1 15 ds.

(** The fields of a tag of floor limit. *)
Definition floor_limit_fields (currency dcMark : string) (amount : Z)
    : gmap string value :=
  <["currency" := VStr currency]>
    (<["dcMark" := VStr dcMark]>
       {["amount" := VAmount (BigNumber.of_Z amount)]}).

(** Data that start with the parts of a tag of floor limit. *)
Definition floor_limit_shape (data currency dcMark ds rest : string)
    : Prop :=
  data = currency ++ dcMark ++ ds ++ rest
  ∧ class_string Regex.upper 3 3 currency
  ∧ class_string Regex.upper 0 1 dcMark
  ∧ class_string Regex.digit 1 15 ds.

(** The fields of a tag of statement number. *)
Definition statement_number_fields (number sequence section : string)
    : gmap string value :=
  <["statementNumber" := VStr number]>
    (<["sequenceNumber" := VStr sequence]>
       {["sectionNumber" := VStr section]}).

(** The digits after a slash at the start of a string, at most five;
    the empty string when there is no slash or no digit after it. *)
Definition slash_digits (s : string) : string :=
  match s with
  | String c rest =>
      if Ascii.eqb c "/"
      then RegexSpec.prefix_while Regex.digit (Some 5%nat) rest
      else ""
  | EmptyString => ""
  end.

(** The string after such a part, when there is one. *)
Definition after_slash (s : string) : string :=
  if String.eqb (slash_digits s) "" then s
  else RegexSpec.skip (S (String.length (slash_digits s))) s.

(** The part that has been read: the slash and the digits, or nothing. *)
Definition slashed (ds : string) : string :=
  if String.eqb ds "" then "" else "/" ++ ds.

(** What is read from the data of a statement number: the longest run
    of digits at the start, of at most five, then the digits after a
    slash, and the digits after a further slash. *)
Definition statement_number_read (data : string)
    : option (string * string * string) :=
  let number := RegexSpec.prefix_while Regex.digit (Some 5%nat) data in
  let r1 := RegexSpec.skip (String.length number) data in
  if String.eqb number "" then None
  else Some (number, slash_digits r1, slash_digits (after_slash r1)).

(** What is read from the data of a tag of number and sum of entries:
    the longest run of digits at the start, of at most five, the three
    characters after it, which are to be capital letters, and the
    longest run of digits after them, of at most fifteen. *)
Definition entries_read (data : string) : option (string * string * string) :=
  let number := RegexSpec.prefix_while Regex.digit (Some 5%nat) data in
  let r1 := RegexSpec.skip (String.length number) data in
  let currency := Regex.take 3 r1 in
  let ds :=
    RegexSpec.prefix_while Regex.digit (Some 15%nat) (RegexSpec.skip 3 r1) in
  if negb (String.eqb number "")
     && all_of_class Regex.upper currency
     && (String.length currency =? 3)%nat
     && negb (String.eqb ds "")
  then Some (number, currency, ds)
  else None.

(** What is read from the data of a tag of floor limit: three capital
    letters, one more capital letter when there is one, and the longest
    run of digits after them, of at most fifteen. *)
Definition floor_limit_read (data : string)
    : option (string * string * string) :=
  let currency := Regex.take 3 data in
  let r1 := RegexSpec.skip 3 data in
  let dcMark :=
    match r1 with
    | String c _ => if Regex.upper c then String c "" else ""
    | EmptyString => ""
    end in
  let ds :=
    RegexSpec.prefix_while Regex.digit (Some 15%nat)
      (RegexSpec.skip (String.length dcMark) r1) in
  if all_of_class Regex.upper currency
     && (String.length currency =? 3)%nat
     && negb (String.eqb ds "")
  then Some (currency, dcMark, ds)
  else None.

(** The class of the characters of an amount in a tag. *)
Definition amount_char : ascii -> bool := Regex.one_of "0123456789,".

(** The amount string of a balance: the longest prefix of digits and
    commas, of at most sixteen characters. *)
Definition amount_prefix (rest : string) : string :=
  RegexSpec.prefix_while amount_char (Some 16%nat) rest.

(** The fields of a balance. *)
Definition balance_fields (date : JsDate.t) (currency : string)
    (amount : BigNumber.t) : gmap string value :=
  <["date" := VDate date]>
    (<["currency" := VStr currency]> {["amount" := VAmount amount]}).

(** Data that start with the mark, the date and the currency of a
    balance. *)
Definition balance_head (data mark y mo d cur rest : string) : Prop :=
  data = mark ++ y ++ mo ++ d ++ cur ++ rest
  ∧ mark ∈ ["D"; "C"]
  ∧ class_string Regex.digit 2 2 y
  ∧ class_string Regex.digit 2 2 mo
  ∧ class_string Regex.digit 2 2 d
  ∧ class_string Regex.upper 3 3 cur.

(** The classes of the balances. *)
Definition balances : list tag_class :=
  [TagOpeningBalance; TagClosingBalance; TagClosingAvailableBalance;
   TagForwardAvailableBalance].

(** The field of a date and time indication: the instant that is read
    from [input]. *)
Definition instant_field (input : string) : gmap string value :=
  {["dateTimestamp" := VInstant input "YYMMDDHmmZZ"]}.

(** Data that start with the six digits of a date and the four of a
    time. *)
Definition date_time_head (data date time rest : string) : Prop :=
  data = date ++ time ++ rest
  ∧ class_string Regex.digit 6 6 date
  ∧ class_string Regex.digit 4 4 time.

(** A string that starts with an offset: a sign and four digits. *)
Definition offset_head (s sign off rest : string) : Prop :=
  s = sign ++ off ++ rest
  ∧ class_string (Regex.one_of "+-") 1 1 sign
  ∧ class_string Regex.digit 4 4 off.

(** The marks that the pattern of the statement line lets through: the
    six markers, and a debit or credit mark after a vertical bar. *)
Definition line_marks : list string :=
  AmountSpec.markers ++ ["|D"; "|C"].

(** A statement line whose mark starts with a vertical bar. *)
Definition line_with_bar : string := "090202|D400,00NMSCNONREF".

(** The fields of a message block: [EOB] with the empty string, and
    fields named by one digit with a string. *)
Definition block_fields (f : gmap string value) : Prop :=
  ∀ name v,
    f !! name = Some v →
    (name = "EOB" ∧ v = VStr "")
    ∨ ∃ d x, name = String d "" ∧ Regex.digit d = true ∧ v = VStr x.

(** The year that [BankDate.parse] takes for the number [v] that it
    has read: a number below 100 is moved to the century of 2000. *)
Definition full_year (v : Z) : Z := if (v <? 100)%Z then (v + 2000)%Z else v.

(** An expression that starts with [^]. *)
Fixpoint anchored (r : Regex.re) : bool :=
  match r with
  | Regex.Bol => true
  | Regex.Seq r1 _ | Regex.Grp _ r1 => anchored r1
  | _ => false
  end.

End ExtraSpec.

Module BlockSpec.

(** A string that starts with the head of a block, a brace, a digit
    and a colon: the digit, and what follows the head. *)
Definition head_of (s : string) : option (ascii * string) :=
  match s with
  | String b (String d (String c rest)) =>
      if Ascii.eqb b "{" && Regex.digit d && Ascii.eqb c ":"
      then Some (d, rest)
      else None
  | _ => None
  end.

(** Where the content of a block ends: at the end of the text, or at a
    closing brace that the head of a block or the end of the text
    follows. *)
Definition closes (s : string) : bool :=
  match s with
  | EmptyString => true
  | String c rest =>
      Ascii.eqb c "}"
      && (String.eqb rest "" || bool_decide (is_Some (head_of rest)))
  end.

(** The content of a block: the characters up to the first place where
    it ends; there is none when a line terminator comes first. *)
Fixpoint read_content (s : string) : option string :=
  match s with
  | EmptyString => Some ""
  | String c rest =>
      if closes s then Some ""
      else if Regex.dot c then String c <$> read_content rest
      else None
  end.

(** The block at the start of a string: its digit, its content, and
    the number of characters that it takes, with its closing brace when
    it has one. *)
Definition read_block (s : string) : option (ascii * string * nat) :=
  match head_of s with
  | Some (d, rest) =>
      match read_content rest with
      | Some x =>
          Some (d, x,
                3 + String.length x
                + (if String.eqb (RegexSpec.skip (String.length x) rest) ""
                   then 0 else 1))%nat
      | None => None
      end
  | None => None
  end.

(** The blocks of a text from left to right, after [n] characters that
    are passed over: at each place the block that starts there is
    taken, and the scan goes on after it, or else at the next
    character. *)
Fixpoint scan_text (n : nat) (s : string) : list (ascii * string) :=
  match s with
  | EmptyString => []
  | String _ rest =>
      match n with
      | S n' => scan_text n' rest
      | O =>
          match read_block s with
          | Some (d, x, len) => (d, x) :: scan_text (Nat.pred len) rest
          | None => scan_text 0 rest
          end
      end
  end.

(** The field of a block: its digit names it, and a later block takes
    the place of an earlier one of the same digit. *)
Definition set_field (f : gmap string value) (b : ascii * string)
    : gmap string value :=
  <[String b.1 "" := VStr b.2]> f.

(** The blocks of the data of a message block: after the terminator
    when the data start with it. *)
Definition blocks (data : string) : list (ascii * string) :=
  scan_text (if RegexSpec.starts_with "-}" data then 2 else 0) data.

(** The fields of a message block: the field [EOB] when the data start
    with the terminator, and the fields of the blocks; none when there
    is neither. *)
Definition block_record (data : string) : option (gmap string value) :=
  if RegexSpec.starts_with "-}" data
  then Some (foldl set_field {["EOB" := VStr ""]} (blocks data))
  else match blocks data with
       | [] => None
       | bs => Some (foldl set_field ∅ bs)
       end.

(** The tag of a message block, or the error of a mismatch. *)
Definition block_tag (data : string) : result Tag :=
  match block_record data with
  | Some f =>
      Ok (MkTag (Str "MB") data f
            (Some (bool_decide (is_Some (f !! "1")))) 0)
  | None => Throw ("Cannot parse tag MB: " ++ data)
  end.

End BlockSpec.

Module ExtractionSpec.

(** The groups that every match of an expression sets: those that are
    in no alternative, no lookahead and no repetition that may be left
    out. *)
Fixpoint sets (r : Regex.re) : list nat :=
  match r with
  | Regex.Seq r1 r2 =>
      filter (λ n, n ∉ Regex.groups r2) (sets r1) ++ sets r2
  | Regex.Rep lo hi _ r1 =>
      if (1 <=? lo)%nat
         && match hi with Some h => (lo <=? h)%nat | None => true end
      then sets r1 else []
  | Regex.Grp n r1 => n :: sets r1
  | _ => []
  end.

(** The text of a group of a match, empty for a group that has taken
    no part. *)
Definition group_text (mr : Regex.match_result) (n : nat) : string :=
  or_empty (Regex.group mr !! n).

(** The groups of the mark and of the amount string, for the classes
    with an amount that the amount codec reads. *)
Definition amount_groups (c : tag_class) : option (nat * nat) :=
  match c with
  | TagOpeningBalance | TagClosingBalance
  | TagClosingAvailableBalance | TagForwardAvailableBalance =>
      Some (1%nat, 6%nat)
  | TagStatementLine => Some (7%nat, 9%nat)
  | _ => None
  end.

(** What the amount codec gives for a match. *)
Definition codec (c : tag_class) (mr : Regex.match_result)
    : option (result BigNumber.t) :=
  match amount_groups c with
  | Some (g1, g2) => Some (BankAmount.parse (group_text mr g1) (group_text mr g2))
  | None => None
  end.

(** The error of a field value after a match: the error of the amount
    codec on the mark and the amount string of the match. *)
Definition value_error (c : tag_class) (mr : Regex.match_result)
    : option string :=
  match codec c mr with
  | Some (Throw msg) => Some msg
  | _ => None
  end.

(** The amount of a match that has no error. *)
Definition amount_of (c : tag_class) (mr : Regex.match_result)
    : BigNumber.t :=
  match codec c mr with
  | Some (Ok a) => a
  | _ => BigNumber.NaN
  end.

(** The complete record of each class, by the table of the grammars:
    every field of the class, made of the texts of the groups. *)
Definition record (c : tag_class) (mr : Regex.match_result)
    : gmap string value :=
  let t := group_text mr in
  match c with
  | TagTransactionReferenceNumber => {["transactionReference" := VStr (t 1%nat)]}
  | TagRelatedReference => {["relatedReference" := VStr (t 1%nat)]}
  | TagAccountIdentification => {["accountIdentification" := VStr (t 1%nat)]}
  | TagStatementNumber =>
      <["statementNumber" := VStr (t 1%nat)]>
        (<["sequenceNumber" := VStr (t 3%nat)]>
           (<["sectionNumber" := VStr (t 5%nat)]> ∅))
  | TagDebitAndCreditFloorLimit =>
      <["currency" := VStr (t 1%nat)]>
        (<["dcMark" := VStr (t 2%nat)]>
           (<["amount" := VAmount (BigNumber.of_string (t 3%nat))]> ∅))
  | TagDateTimeIndication =>
      {["dateTimestamp" :=
          VInstant (t 1%nat ++ t 2%nat ++ t 3%nat) "YYMMDDHmmZZ"]}
  | TagDateTimeIndication13 =>
      {["dateTimestamp" :=
          VInstant (t 1%nat ++ t 2%nat ++ "0000") "YYMMDDHmmZZ"]}
  | TagNonSwift => {["nonSwift" := VStr (t 1%nat)]}
  | TagOpeningBalance | TagClosingBalance
  | TagClosingAvailableBalance | TagForwardAvailableBalance =>
      <["date" := VDate (BankDate.parse (t 2%nat) (t 3%nat) (t 4%nat))]>
        (<["currency" := VStr (t 5%nat)]>
           (<["amount" := VAmount (amount_of c mr)]> ∅))
  | TagNumberAndSumOfEntriesD | TagNumberAndSumOfEntriesC =>
      <["number" := VStr (t 1%nat)]>
        (<["currency" := VStr (t 2%nat)]>
           (<["amount" := VAmount (BigNumber.of_string (t 3%nat))]> ∅))
  | TagStatementLine =>
      <["date" := VDate (BankDate.parse (t 1%nat) (t 2%nat) (t 3%nat))]>
      (<["entryDate" :=
           if String.eqb (t 4%nat) "" then VStr ""
           else VDate (BankDate.parse (t 1%nat) (t 5%nat) (t 6%nat))]>
      (<["fundsCode" := VStr (t 8%nat)]>
      (<["amount" := VAmount (amount_of c mr)]>
      (<["isReversal" := VBool (RegexSpec.starts_with "R" (t 7%nat))]>
      (<["transactionType" := VStr (t 10%nat)]>
      (<["reference" := VStr (t 11%nat)]>
      (<["bankReference" := VStr (t 13%nat)]>
      (<["extraDetails" := VStr (t 15%nat)]>
      (<["creditDebitIndicator" := VStr (t 7%nat)]> ∅)))))))))
  | TagTransactionDetails => {["transactionDetails" := VStr (t 1%nat)]}
  | TagMessageBlock => ∅
  end.

(** What the construction of a tag of a class gives: for the message
    block the tag of the blocks of the data; for any other class the
    error of a mismatch when the pattern does not match, the error of
    the field value when the match has one, and otherwise the tag with
    the identifier of the class, the data and the complete record. *)
Definition outcome (c : tag_class) (data : string) : result Tag :=
  match c with
  | TagMessageBlock => BlockSpec.block_tag data
  | _ =>
      match Regex.exec (PATTERN c) data with
      | None =>
          Throw ("Cannot parse tag " ++ jsval_toString (ID c)
                 ++ ": " ++ data)
      | Some mr =>
          match value_error c mr with
          | Some msg => Throw msg
          | None => Ok (MkTag (ID c) data (record c mr) None 0)
          end
      end
  end.

(** What a successful match has done when it gets to its continuation
    [k] with the result [z]: it has set the groups [sts], and none but
    the groups [gs]. *)
Definition sets_frame (sts gs : list nat) (cs : gmap nat string)
    (k : Regex.cont) (z : Regex.state) : Prop :=
  ∃ i' s' cs', k i' s' cs' = Some z
               ∧ (∀ n, n ∈ sts → is_Some (cs' !! n))
               ∧ ∀ n, n ∉ gs → cs' !! n = cs !! n.

End ExtractionSpec.

(** * Properties *)

(** ** The matcher *)

Section Matcher.
Import Regex RegexSpec.
Local Open Scope nat_scope.

Lemma m_Seq r1 r2 i s cs k :
  m (r1 ⋅ r2) i s cs k = m r1 i s cs (λ i' s' cs', m r2 i' s' cs' k).
Proof. reflexivity. Qed.

Lemma m_Alt r1 r2 i s cs k :
  m (r1 ∣ r2) i s cs k
  = match m r1 i s cs k with Some z => Some z | None => m r2 i s cs k end.
Proof. reflexivity. Qed.

Lemma m_Bol i s cs k : m Bol i s cs k = if i =? 0 then k i s cs else None.
Proof. reflexivity. Qed.

Lemma m_Grp n r i s cs k :
  m (Grp n r) i s cs k
  = m r i s cs (λ i' s' cs', k i' s' (<[n := take (i' - i) s]> cs')).
Proof. reflexivity. Qed.

Lemma m_Rep lo hi greedy r i s cs k :
  m (Rep lo hi greedy r) i s cs k
  = repeat (m r) (groups r) greedy (lo + String.length s) lo hi i s cs k.
Proof. reflexivity. Qed.

Lemma m_Chr p i c s cs k :
  m (Chr p) i (String c s) cs k = if p c then k (S i) s cs else None.
Proof. reflexivity. Qed.

Lemma search_eq r i s :
  search r i s
  = match match_at r i s with
    | Some mr => Some mr
    | None =>
        match s with
        | String _ rest => search r (S i) rest
        | EmptyString => None
        end
    end.
Proof. by destruct s. Qed.

Lemma advances_refl i s : advances i s i s.
Proof. exists 0. split; [lia|done]. Qed.

Lemma drop_add n1 : ∀ n2 s s1 s2,
  drop n1 s = Some s1 → drop n2 s1 = Some s2 → drop (n1 + n2) s = Some s2.
Proof.
  induction n1 as [|n1 IH]; intros n2 s s1 s2 H1 H2; simpl in *.
  - by simplify_eq.
  - destruct s; [discriminate|]. eauto.
Qed.

Lemma advances_trans i s i1 s1 i2 s2 :
  advances i s i1 s1 → advances i1 s1 i2 s2 → advances i s i2 s2.
Proof.
  intros (n1 & -> & H1) (n2 & -> & H2). exists (n1 + n2).
  split; [lia|]. by eapply drop_add.
Qed.

Lemma advances_one i c s : advances i (String c s) (S i) s.
Proof. exists 1. split; [lia|done]. Qed.

Lemma clear_lookup gs cs n : n ∉ gs → clear gs cs !! n = cs !! n.
Proof.
  unfold clear.
  induction gs as [|g gs IH]; intros Hn; simpl; [done|].
  rewrite lookup_delete_ne by set_solver. apply IH. set_solver.
Qed.

Lemma repeat_reaches step gs greedy :
  (∀ i s cs k z, step i s cs k = Some z → reaches gs i s cs k z) →
  ∀ fuel lo hi i s cs k z,
    repeat step gs greedy fuel lo hi i s cs k = Some z →
    reaches gs i s cs k z.
Proof.
  intros Hstep. induction fuel as [|fuel IH]; intros lo hi i s cs k z H.
  - exists i, s, cs. split; [done|]. split; [apply advances_refl|done].
  - simpl in H.
    assert (Hk : k i s cs = Some z → reaches gs i s cs k z).
    { intros Hz. exists i, s, cs.
      split; [done|]. split; [apply advances_refl|done]. }
    assert (Hit : step i s (clear gs cs)
                    (λ i' s' cs',
                       if (lo =? 0) && (i' =? i) then None
                       else repeat step gs greedy fuel (Nat.pred lo)
                                   (dec_hi hi) i' s' cs' k) = Some z →
                  reaches gs i s cs k z).
    { intros Hz. apply Hstep in Hz as (i1 & s1 & cs1 & Hd & Ha & Hc).
      destruct ((lo =? 0) && (i1 =? i)); [discriminate|].
      apply IH in Hd as (i2 & s2 & cs2 & Hk2 & Ha2 & Hc2).
      exists i2, s2, cs2. split; [done|].
      split; [by eapply advances_trans|].
      intros n Hn. rewrite Hc2, Hc by done. by apply clear_lookup. }
    case_bool_decide; [by apply Hk|].
    destruct (lo =? 0); simpl in H; [|by apply Hit].
    destruct greedy.
    + destruct (step i s (clear gs cs) _) as [z'|] eqn:E.
      * simplify_eq. by apply Hit.
      * by apply Hk.
    + destruct (k i s cs) as [z'|] eqn:E.
      * simplify_eq. by apply Hk.
      * by apply Hit.
Qed.

Lemma m_reaches r : ∀ i s cs k z,
  m r i s cs k = Some z → reaches (groups r) i s cs k z.
Proof.
  induction r as [|p| | |r1 IH1 r2 IH2|r1 IH1 r2 IH2|lo hi greedy r1 IH1
                  |g r1 IH1|r1 IH1]; intros i s cs k z H; simpl in H.
  - exists i, s, cs. split; [done|]. split; [apply advances_refl|done].
  - destruct s as [|c rest]; [discriminate|].
    destruct (p c); [|discriminate].
    exists (S i), rest, cs. split; [done|]. split; [apply advances_one|done].
  - destruct (i =? 0); [|discriminate].
    exists i, s, cs. split; [done|]. split; [apply advances_refl|done].
  - destruct (String.eqb s ""); [|discriminate].
    exists i, s, cs. split; [done|]. split; [apply advances_refl|done].
  - apply IH1 in H as (i1 & s1 & cs1 & H & Ha1 & Hc1).
    apply IH2 in H as (i2 & s2 & cs2 & H & Ha2 & Hc2).
    exists i2, s2, cs2. split; [done|].
    split; [by eapply advances_trans|].
    intros n Hn. simpl in Hn. rewrite Hc2, Hc1; set_solver.
  - destruct (m r1 i s cs k) as [z'|] eqn:E.
    + simplify_eq. apply IH1 in E as (i1 & s1 & cs1 & H & Ha1 & Hc1).
      exists i1, s1, cs1. split; [done|]. split; [done|].
      intros n Hn. simpl in Hn. apply Hc1. set_solver.
    + apply IH2 in H as (i1 & s1 & cs1 & H & Ha1 & Hc1).
      exists i1, s1, cs1. split; [done|]. split; [done|].
      intros n Hn. simpl in Hn. apply Hc1. set_solver.
  - eapply repeat_reaches; [|exact H]. exact IH1.
  - apply IH1 in H as (i1 & s1 & cs1 & H & Ha1 & Hc1).
    eexists i1, s1, _. split; [exact H|]. split; [done|].
    intros n Hn. simpl in Hn.
    rewrite lookup_insert_ne by set_solver. apply Hc1. set_solver.
  - destruct (m r1 i s cs _) as [[[i1 s1] cs1]|] eqn:E; [|discriminate].
    apply IH1 in E as (i2 & s2 & cs2 & E & Ha1 & Hc1). simplify_eq.
    exists i, s, cs1. split; [done|]. split; [apply advances_refl|done].
Qed.

Lemma advances_length i s i' s' :
  advances i s i' s' → i' + String.length s' = i + String.length s.
Proof.
  intros (n & -> & H). revert s H.
  induction n as [|n IH]; intros s H; simpl in H.
  - simplify_eq. lia.
  - destruct s as [|c s]; [discriminate|]. apply IH in H. simpl. lia.
Qed.

(** A match depends on its continuation only where the matcher can get
    to. *)
Lemma repeat_ext step gs greedy :
  (∀ i s cs k1 k2,
     (∀ i' s' cs', advances i s i' s' → k1 i' s' cs' = k2 i' s' cs') →
     step i s cs k1 = step i s cs k2) →
  ∀ fuel lo hi i s cs k1 k2,
    (∀ i' s' cs', advances i s i' s' → k1 i' s' cs' = k2 i' s' cs') →
    repeat step gs greedy fuel lo hi i s cs k1
    = repeat step gs greedy fuel lo hi i s cs k2.
Proof.
  intros Hstep. induction fuel as [|fuel IH]; intros lo hi i s cs k1 k2 Hk.
  - apply Hk, advances_refl.
  - cbn [repeat]. rewrite (Hk i s cs (advances_refl i s)).
    erewrite Hstep; [reflexivity|].
    intros i' s' cs' Ha. cbv beta.
    destruct ((lo =? 0) && (i' =? i)); [done|].
    apply IH. intros i2 s2 cs2 Ha2. apply Hk. by eapply advances_trans.
Qed.

Lemma m_ext r : ∀ i s cs k1 k2,
  (∀ i' s' cs', advances i s i' s' → k1 i' s' cs' = k2 i' s' cs') →
  m r i s cs k1 = m r i s cs k2.
Proof.
  induction r as [|p| | |r1 IH1 r2 IH2|r1 IH1 r2 IH2|lo hi greedy r1 IH1
                  |g r1 IH1|r1 IH1]; intros i s cs k1 k2 Hk; cbn [m].
  - apply Hk, advances_refl.
  - destruct s as [|c rest]; [done|]. destruct (p c); [|done].
    apply Hk, advances_one.
  - destruct (i =? 0); [|done]. apply Hk, advances_refl.
  - destruct (String.eqb s ""); [|done]. apply Hk, advances_refl.
  - apply IH1. intros i1 s1 cs1 Ha1. apply IH2.
    intros i2 s2 cs2 Ha2. apply Hk. by eapply advances_trans.
  - by rewrite (IH1 _ _ _ k1 k2), (IH2 _ _ _ k1 k2).
  - by apply repeat_ext.
  - apply IH1. intros i1 s1 cs1 Ha1. by apply Hk.
  - destruct (m r1 i s cs _) as [[[i1 s1] cs1]|]; [|done].
    apply Hk, advances_refl.
Qed.

Lemma m_none r i s cs k :
  (∀ i' s' cs', advances i s i' s' → k i' s' cs' = None) →
  m r i s cs k = None.
Proof.
  intros Hk. destruct (m r i s cs k) as [z|] eqn:E; [|done].
  apply m_reaches in E as (i' & s' & cs' & E & Ha & _).
  by rewrite (Hk _ _ _ Ha) in E.
Qed.

Lemma advances_empty i i' s' : advances i "" i' s' → i' = i ∧ s' = "".
Proof.
  intros ([|n] & -> & H); simpl in H; [|discriminate].
  split; [lia|congruence].
Qed.

(** With no input left and no iteration due, a repetition goes on to
    its continuation. *)
Lemma repeat_at_end r gs greedy fuel hi i cs k :
  repeat (m r) gs greedy fuel 0 hi i "" cs k = k i "" cs.
Proof.
  destruct fuel as [|fuel]; [done|]. cbn [repeat].
  case_bool_decide; [done|]. cbn [Nat.eqb negb andb].
  rewrite m_none.
  - destruct greedy; [done|]. by destruct (k i "" cs).
  - intros i' s' cs' [-> ->]%advances_empty. by rewrite Nat.eqb_refl.
Qed.

(** The fuel of a repetition is enough: with more of it the result is
    the same. *)
Lemma repeat_fuel r gs greedy : ∀ fuel1 fuel2 lo hi i s cs k,
  lo + String.length s ≤ fuel1 → lo + String.length s ≤ fuel2 →
  repeat (m r) gs greedy fuel1 lo hi i s cs k
  = repeat (m r) gs greedy fuel2 lo hi i s cs k.
Proof.
  induction fuel1 as [|fuel1 IH]; intros fuel2 lo hi i s cs k H1 H2.
  - assert (lo = 0) as -> by lia. destruct s; [|simpl in H1; lia].
    by rewrite !repeat_at_end.
  - destruct fuel2 as [|fuel2].
    { assert (lo = 0) as -> by lia. destruct s; [|simpl in H2; lia].
      by rewrite !repeat_at_end. }
    cbn [repeat]. erewrite m_ext; [reflexivity|].
    intros i' s' cs' Ha. cbv beta.
    destruct ((lo =? 0) && (i' =? i)) eqn:E; [done|].
    pose proof (advances_length _ _ _ _ Ha) as Hl.
    destruct Ha as (n & -> & _).
    apply IH; destruct lo; cbn [Nat.pred];
      try lia; cbn in E; apply Nat.eqb_neq in E; lia.
Qed.

End Matcher.

(** ** Signs of decimal values *)

Section Signs.
Import BigNumber AmountSpec.

Lemma normal_finite neg c e : ∃ c' e', normal neg c e = Finite neg c' e'.
Proof. unfold normal. destruct (strip_zeros _ c e) as [c' e']. eauto. Qed.

Lemma of_Z_100 : of_Z 100 = Finite false 1 2.
Proof. reflexivity. Qed.

Lemma of_Z_minus_1 : of_Z (-1) = Finite true 1 0.
Proof. reflexivity. Qed.

Lemma negated_sign x :
  isNaN x = false →
  isNaN (negated x) = false ∧ isNegative (negated x) = negb (isNegative x).
Proof.
  unfold negated. rewrite of_Z_minus_1.
  destruct x as [|a|a c e]; simpl; [discriminate| |]; intros _.
  - by rewrite xorb_true_r.
  - destruct (normal_finite (xorb a true) (c * 1) (e + 0)) as (c' & e' & ->).
    simpl. by rewrite xorb_true_r.
Qed.

Lemma integerValue_sign rm x :
  isNaN x = false →
  isNaN (integerValue_rm rm x) = false
  ∧ isNegative (integerValue_rm rm x) = isNegative x.
Proof.
  destruct x as [|a|a c e]; simpl; [discriminate|done|]; intros _.
  destruct (0 <=? e); [done|].
  destruct (normal_finite a
              (round_magnitude rm a (c / pow10 (- e)) (c mod pow10 (- e))
                               (pow10 (- e))) 0) as (c' & e' & ->).
  done.
Qed.

Lemma times_100_sign x :
  isNaN x = false →
  isNaN (multipliedBy x (of_Z 100)) = false
  ∧ isNegative (multipliedBy x (of_Z 100)) = isNegative x.
Proof.
  rewrite of_Z_100.
  destruct x as [|a|a c e]; simpl; [discriminate| |]; intros _.
  - by rewrite xorb_false_r.
  - destruct (normal_finite (xorb a false) (c * 1) (e + 2)) as (c' & e' & ->).
    simpl. by rewrite xorb_false_r.
Qed.

Lemma by_100_sign x :
  isNaN x = false →
  isNaN (dividedBy x (of_Z 100)) = false
  ∧ isNegative (dividedBy x (of_Z 100)) = isNegative x.
Proof.
  rewrite of_Z_100.
  destruct x as [|a|a c e]; simpl; [discriminate| |]; intros _.
  - by rewrite xorb_false_r.
  - match goal with
    | |- context [normal ?n ?c ?e] =>
        destruct (normal_finite n c e) as (c' & e' & ->)
    end.
    simpl. by rewrite xorb_false_r.
Qed.

(** Scaling to hundredths keeps the sign, whatever the rounding mode. *)
Lemma to_hundredths_sign rm x :
  isNaN x = false →
  isNaN (to_hundredths rm x) = false
  ∧ isNegative (to_hundredths rm x) = isNegative x.
Proof.
  intros H. unfold to_hundredths.
  destruct (times_100_sign x H) as [H1 E1].
  destruct (integerValue_sign rm _ H1) as [H2 E2].
  destruct (by_100_sign _ H2) as [H3 E3].
  split; [done|]. by rewrite E3, E2, E1.
Qed.

(** The sign of a signed magnitude: negative for a debit, and the
    opposite for a reversal. *)
Lemma signed_sign dcmark a :
  isNaN a = false → isNegative a = false →
  isNaN (signed dcmark a) = false
  ∧ isNegative (signed dcmark a) = xorb (is_debit dcmark) (is_reversal dcmark).
Proof.
  intros Hn Hs. unfold signed.
  destruct (is_debit dcmark), (is_reversal dcmark); simpl.
  - destruct (negated_sign a Hn) as [H1 E1].
    destruct (negated_sign _ H1) as [H2 E2].
    split; [done|]. by rewrite E2, E1, Hs.
  - destruct (negated_sign a Hn) as [H1 E1].
    split; [done|]. by rewrite E1, Hs.
  - destruct (negated_sign a Hn) as [H1 E1].
    split; [done|]. by rewrite E1, Hs.
  - done.
Qed.

End Signs.

(** ** Decimal values and their normal form *)

Section Decimal.
Import BigNumber AmountSpec.
Local Open Scope N_scope.

Lemma pow10_pos k : 0 < pow10 k.
Proof. unfold pow10. assert (0 < 10 ^ (0 `max` k))%Z by (apply Z.pow_pos_nonneg; lia). lia. Qed.

Lemma pow10_nonpos k : (k <= 0)%Z → pow10 k = 1.
Proof. intros H. unfold pow10. by rewrite Z.max_l by lia. Qed.

Lemma pow10_succ k : (0 <= k)%Z → pow10 (k + 1) = 10 * pow10 k.
Proof.
  intros H. unfold pow10. rewrite !Z.max_r by lia.
  rewrite Z.pow_add_r by lia. change (10 ^ 1)%Z with 10%Z.
  assert (0 < 10 ^ k)%Z by (apply Z.pow_pos_nonneg; lia). lia.
Qed.

Lemma pow10_add a b :
  (0 <= a)%Z → (0 <= b)%Z → pow10 (a + b) = pow10 a * pow10 b.
Proof.
  intros Ha Hb. unfold pow10. rewrite !Z.max_r by lia.
  rewrite Z.pow_add_r by lia.
  assert (0 < 10 ^ a)%Z by (apply Z.pow_pos_nonneg; lia).
  assert (0 < 10 ^ b)%Z by (apply Z.pow_pos_nonneg; lia). lia.
Qed.

(** Enough fuel: the result of [strip_zeros] does not depend on it. *)
Lemma strip_zeros_fuel f1 : ∀ f2 c e,
  c < 2 ^ N.of_nat f1 → c < 2 ^ N.of_nat f2 →
  strip_zeros f1 c e = strip_zeros f2 c e.
Proof.
  induction f1 as [|f1 IH]; intros f2 c e H1 H2.
  - assert (c = 0) as -> by (simpl in H1; lia).
    destruct f2; reflexivity.
  - destruct f2 as [|f2].
    + assert (c = 0) as -> by (simpl in H2; lia). reflexivity.
    + simpl. destruct (c =? 0) eqn:Hc; [done|].
      destruct (c mod 10 =? 0) eqn:Hm; [|done].
      apply N.eqb_neq in Hc.
      rewrite !Nat2N.inj_succ, !N.pow_succ_r' in *.
      apply IH.
      * apply N.Div0.div_lt_upper_bound. lia.
      * apply N.Div0.div_lt_upper_bound. lia.
Qed.

Lemma lt_pow2_log2 c : c < 2 ^ N.of_nat (S (N.to_nat (N.log2 c))).
Proof.
  rewrite Nat2N.inj_succ, N2Nat.id.
  destruct (N.eq_dec c 0) as [->|Hc]; [done|].
  apply N.log2_spec. lia.
Qed.

Lemma normal_zero neg e : normal neg 0 e = Finite neg 0 0.
Proof. reflexivity. Qed.

(** A coefficient that does not end in zero is in normal form. *)
Lemma normal_canonical neg c e :
  c mod 10 ≠ 0 → normal neg c e = Finite neg c e.
Proof.
  intros H. unfold normal. simpl.
  destruct (c =? 0) eqn:Hc.
  - apply N.eqb_eq in Hc. subst. done.
  - apply N.eqb_neq in H. by rewrite H.
Qed.

Lemma normal_times_10 neg c e : normal neg (10 * c) e = normal neg c (e + 1).
Proof.
  destruct (N.eq_dec c 0) as [->|Hc]; [done|].
  unfold normal. simpl.
  destruct (10 * c =? 0) eqn:H0; [apply N.eqb_eq in H0; lia|].
  replace ((10 * c) mod 10) with 0
    by (symmetry; rewrite N.mul_comm; apply N.Div0.mod_mul).
  simpl.
  replace (10 * c / 10) with c
    by (symmetry; rewrite N.mul_comm; apply N.div_mul; lia).
  rewrite (strip_zeros_fuel _ (S (N.to_nat (N.log2 c))) c (e + 1)); [done| |].
  - pose proof (lt_pow2_log2 (10 * c)) as H.
    rewrite Nat2N.inj_succ, N.pow_succ_r' in H. lia.
  - apply lt_pow2_log2.
Qed.

(** Zeros at the end of the coefficient go into the exponent. *)
Lemma normal_scale neg c e k :
  (0 <= k)%Z → normal neg (c * pow10 k) e = normal neg c (e + k).
Proof.
  intros Hk. revert c e.
  pattern k. apply natlike_ind; [| |exact Hk].
  - intros c e. rewrite pow10_nonpos by lia.
    by rewrite N.mul_1_r, Z.add_0_r.
  - clear k Hk. intros k Hk IH c e.
    unfold Z.succ. rewrite pow10_succ by done.
    replace (c * (10 * pow10 k)) with (10 * (c * pow10 k)) by lia.
    rewrite normal_times_10, IH. f_equal. lia.
Qed.

(** The normal form of a value: the same value, and no zero at the end
    of a coefficient other than 0. *)
Lemma normal_spec neg c : ∀ e,
  c ≠ 0 →
  ∃ c' k, normal neg c e = Finite neg c' (e + k)
          ∧ (0 <= k)%Z ∧ c = c' * pow10 k ∧ c' mod 10 ≠ 0.
Proof.
  induction c as [c IH] using (well_founded_induction N.lt_wf_0).
  intros e Hc.
  destruct (N.eq_dec (c mod 10) 0) as [Hm|Hm].
  - pose proof (N.Div0.div_mod c 10) as Hd. rewrite Hm, N.add_0_r in Hd.
    destruct (IH (c / 10) ltac:(lia) (e + 1)%Z ltac:(lia))
      as (c' & k & Hn & Hk & Hv & Hm').
    exists c', (k + 1)%Z. split; [|split; [lia|split; [|done]]].
    + assert (normal neg c e = normal neg (c / 10) (e + 1)) as ->
        by (rewrite <- normal_times_10; f_equal; lia).
      rewrite Hn. f_equal. lia.
    + rewrite pow10_succ by done. lia.
  - exists c, 0%Z. rewrite pow10_nonpos by lia.
    rewrite Z.add_0_r, N.mul_1_r. by rewrite normal_canonical.
Qed.

(** Rounding looks at the ratio of the remainder to the divisor only. *)
Lemma round_magnitude_scale rm neg q r d m :
  0 < m →
  round_magnitude rm neg q (r * m) (d * m) = round_magnitude rm neg q r d.
Proof.
  intros Hm. unfold round_magnitude.
  assert ((r * m =? 0) = (r =? 0)) as ->.
  { destruct (N.eqb_spec r 0), (N.eqb_spec (r * m) 0); try done; nia. }
  assert ((d * m <=? 2 * (r * m)) = (d <=? 2 * r)) as ->.
  { destruct (N.leb_spec d (2 * r)), (N.leb_spec (d * m) (2 * (r * m)));
      try done; nia. }
  assert ((d * m <? 2 * (r * m)) = (d <? 2 * r)) as ->.
  { destruct (N.ltb_spec d (2 * r)), (N.ltb_spec (d * m) (2 * (r * m)));
      try done; nia. }
  assert ((d * m =? 2 * (r * m)) = (d =? 2 * r)) as ->.
  { destruct (N.eqb_spec d (2 * r)), (N.eqb_spec (d * m) (2 * (r * m)));
      try done; nia. }
  reflexivity.
Qed.

Lemma round_magnitude_exact rm neg q d : round_magnitude rm neg q 0 d = q.
Proof. reflexivity. Qed.

Lemma integer_of_zero rm neg e : integer_of rm neg 0 e = 0.
Proof.
  unfold integer_of. destruct (0 <=? e)%Z; [done|].
  pose proof (pow10_pos (- e)).
  rewrite N.Div0.div_0_l, N.Div0.mod_0_l. reflexivity.
Qed.

(** [integerValue] of a normal form is the integer of the value. *)
Lemma integerValue_normal rm neg c e :
  integerValue_rm rm (normal neg c e) = normal neg (integer_of rm neg c e) 0.
Proof.
  destruct (N.eq_dec c 0) as [->|Hc].
  { by rewrite integer_of_zero, !normal_zero. }
  destruct (normal_spec neg c e Hc) as (c' & k & -> & Hk & -> & Hm).
  pose proof (pow10_pos k) as Hpk.
  unfold integerValue_rm, integer_of.
  destruct (0 <=? e + k)%Z eqn:Hek.
  - apply Z.leb_le in Hek.
    destruct (0 <=? e)%Z eqn:He.
    + apply Z.leb_le in He.
      rewrite <- N.mul_assoc, <- pow10_add by lia.
      rewrite normal_scale by lia.
      rewrite normal_canonical by done. f_equal; lia.
    + apply Z.leb_gt in He.
      assert (pow10 k = pow10 (e + k) * pow10 (- e)) as ->
        by (rewrite <- pow10_add by lia; f_equal; lia).
      pose proof (pow10_pos (- e)) as Hpe.
      rewrite N.mul_assoc.
      rewrite N.div_mul by lia. rewrite N.Div0.mod_mul.
      rewrite round_magnitude_exact.
      rewrite normal_scale by lia.
      rewrite normal_canonical by done. f_equal; lia.
  - apply Z.leb_gt in Hek.
    assert ((0 <=? e)%Z = false) as -> by (apply Z.leb_gt; lia).
    f_equal.
    assert (pow10 (- e) = pow10 (- (e + k)) * pow10 k) as ->
      by (rewrite <- pow10_add by lia; f_equal; lia).
    pose proof (pow10_pos (- (e + k))) as Hpe.
    rewrite N.Div0.div_mul_cancel_r by lia.
    rewrite N.Div0.mul_mod_distr_r.
    by rewrite round_magnitude_scale.
Qed.

Lemma times_100 neg c e :
  multipliedBy (Finite neg c e) (of_Z 100) = normal neg c (e + 2).
Proof.
  rewrite of_Z_100. simpl. by rewrite xorb_false_r, N.mul_1_r.
Qed.

(** An integer divided by 100. *)
Lemma by_100 neg c :
  dividedBy (normal neg c 0) (of_Z 100) = normal neg c (- 2).
Proof.
  rewrite of_Z_100.
  destruct (N.eq_dec c 0) as [->|Hc]; [by destruct neg; vm_compute|].
  destruct (normal_spec neg c 0 Hc) as (c' & k & -> & Hk & -> & Hm).
  unfold dividedBy, DECIMAL_PLACES. simpl (1 =? 0). cbv iota.
  rewrite xorb_false_r.
  rewrite (pow10_nonpos (- (0 + k - 2 + 20))) by lia.
  rewrite N.mul_1_l, N.div_1_r, N.mod_1_r, round_magnitude_exact.
  rewrite !normal_scale by lia. f_equal. lia.
Qed.

(** A value in hundredths: the integer of a hundred times the value,
    two places down. *)
Lemma to_hundredths_finite rm neg c e :
  to_hundredths rm (Finite neg c e)
  = normal neg (integer_of rm neg c (e + 2)) (- 2).
Proof.
  unfold to_hundredths.
  by rewrite times_100, integerValue_normal, by_100.
Qed.

(** The integer by [ROUND_DOWN] is the quotient: the fraction is cut. *)
Lemma integer_of_down neg c e :
  (e < 0)%Z → integer_of ROUND_DOWN neg c e = c / pow10 (- e).
Proof.
  intros He. unfold integer_of, round_magnitude.
  assert ((0 <=? e)%Z = false) as -> by (apply Z.leb_gt; lia).
  by destruct (_ =? 0).
Qed.

(** The integer by [ROUND_HALF_UP] is the nearest one, and the larger
    one in magnitude at a half. *)
Lemma integer_of_half_up neg c e :
  (e < 0)%Z →
  let d := pow10 (- e) in
  integer_of ROUND_HALF_UP neg c e
  = (if d <=? 2 * (c mod d) then c / d + 1 else c / d)
  ∧ 2 * (integer_of ROUND_HALF_UP neg c e * d) <= 2 * c + d
  ∧ 2 * c < 2 * (integer_of ROUND_HALF_UP neg c e * d) + d.
Proof.
  intros He d. unfold integer_of, round_magnitude. fold d.
  assert ((0 <=? e)%Z = false) as -> by (apply Z.leb_gt; lia).
  pose proof (pow10_pos (- e)) as Hd. fold d in Hd.
  pose proof (N.Div0.div_mod c d) as Hc.
  pose proof (N.mod_upper_bound c d ltac:(lia)) as Hr.
  set (q := c / d) in *. set (r := c mod d) in *.
  clearbody q r. subst c.
  destruct (N.eqb_spec r 0) as [H0|H0];
    destruct (N.leb_spec d (2 * r)); (split; [try done; lia|]); nia.
Qed.

End Decimal.

(** ** The amount codec *)

Section Amount.
Import AmountSpec.

Lemma at_index_two (a b : ascii) :
  JsString.at_index (String a (String b "")) 0 = Some (String a "")
  ∧ JsString.at_index (String a (String b "")) 1 = Some (String b "").
Proof. split; reflexivity. Qed.

Lemma length_two (s : string) :
  String.length s = 2%nat → ∃ a b, s = String a (String b "").
Proof.
  destruct s as [|a [|b [|c s]]]; simpl; try discriminate.
  intros _. by exists a, b.
Qed.

Lemma parse_not_expected dcmark amountStr e :
  String.length dcmark = 2%nat →
  JsString.at_index dcmark 0 = Some e → e ≠ "E" → e ≠ "R" →
  BankAmount.parse dcmark amountStr
  = Throw ("Not a reversal/expected mark: " ++ dcmark).
Proof.
  intros Hlen He HE HR. unfold BankAmount.parse.
  rewrite Hlen, He. simpl.
  repeat case_bool_decide; simplify_eq; done.
Qed.

Lemma parse_wrong_mark dcmark amountStr :
  (marks dcmark).1 ∈ [None; Some "E"; Some "R"] →
  (marks dcmark).2 ≠ Some "D" → (marks dcmark).2 ≠ Some "C" →
  BankAmount.parse dcmark amountStr
  = Throw ("Wrong debit/credit mark: " ++ dcmark).
Proof.
  unfold marks, BankAmount.parse.
  destruct (String.length dcmark =? 2)%nat; simpl; intros He HD HC.
  - rewrite (bool_decide_eq_false_2 (_ = Some "D")) by done.
    rewrite (bool_decide_eq_false_2 (_ = Some "C")) by done.
    set_unfold in He. destruct He as [->|[->|[->|[]]]]; reflexivity.
  - rewrite (bool_decide_eq_false_2 (Some dcmark = Some "D")) by done.
    rewrite (bool_decide_eq_false_2 (Some dcmark = Some "C")) by done.
    reflexivity.
Qed.

(** A marker that passes both checks is one of the six. *)
Lemma parse_ok_marker dcmark amountStr r :
  BankAmount.parse dcmark amountStr = Ok r → dcmark ∈ markers.
Proof.
  unfold BankAmount.parse, markers.
  destruct (String.length dcmark =? 2)%nat eqn:Hlen.
  - apply Nat.eqb_eq, length_two in Hlen as (a & b & ->).
    rewrite (proj1 (at_index_two a b)), (proj2 (at_index_two a b)).
    simpl.
    repeat case_bool_decide; simpl; try discriminate; simplify_eq;
      intros _; set_solver.
  - simpl. repeat case_bool_decide; simpl; try discriminate; simplify_eq;
      intros _; set_solver.
Qed.

(** With one of the six markers, [parse] depends on the magnitude only:
    it throws for [NaN] and for a negative one, and otherwise gives the
    signed magnitude in hundredths, a half rounded away from zero. *)
Lemma parse_marker dcmark amountStr :
  dcmark ∈ markers →
  BankAmount.parse dcmark amountStr
  = if BigNumber.isNaN (magnitude amountStr)
    then Throw ("Amount cannot be parsed: " ++ amountStr)
    else if BigNumber.isNegative (magnitude amountStr)
    then Throw ("Positive amount string expected: " ++ amountStr)
    else Ok (round2 (signed dcmark (magnitude amountStr))).
Proof.
  unfold markers. intros H. set_unfold in H.
  destruct H as [->|[->|[->|[->|[->|[->|[]]]]]]]; reflexivity.
Qed.

Lemma parse_ok_inv dcmark amountStr r :
  BankAmount.parse dcmark amountStr = Ok r →
  dcmark ∈ markers
  ∧ BigNumber.isNaN (magnitude amountStr) = false
  ∧ BigNumber.isNegative (magnitude amountStr) = false
  ∧ r = round2 (signed dcmark (magnitude amountStr)).
Proof.
  intros H. pose proof (parse_ok_marker _ _ _ H) as Hm.
  rewrite (parse_marker _ _ Hm) in H.
  destruct (BigNumber.isNaN _); [discriminate|].
  destruct (BigNumber.isNegative _); [discriminate|].
  by simplify_eq.
Qed.

Lemma read_unsigned_sign neg s x :
  BigNumber.read_unsigned neg s = Some x →
  BigNumber.isNaN x = false ∧ BigNumber.isNegative x = neg.
Proof.
  unfold BigNumber.read_unsigned.
  destruct (JsString.span_digits s) as [ip s2].
  set (parts := match s2 with String "." rest => _ | _ => _ end).
  destruct parts as [[fp s3] dot].
  destruct (_ && _); [discriminate|].
  destruct (JsString.exponent_part s3) as [ex|]; [|discriminate].
  intros [= <-].
  match goal with
  | |- context [BigNumber.normal ?n ?c ?e] =>
      destruct (normal_finite n c e) as (c' & e' & ->)
  end.
  done.
Qed.

(** An amount string with a leading minus sign reads as a negative
    value or as no number. *)
Lemma magnitude_minus rest :
  BigNumber.isNaN (magnitude (String "-" rest)) = true
  ∨ BigNumber.isNegative (magnitude (String "-" rest)) = true.
Proof.
  unfold magnitude. simpl JsString.replace_first.
  unfold BigNumber.of_string. simpl BigNumber.strip_minus. cbv iota beta.
  destruct (BigNumber.read_unsigned true _) as [x|] eqn:Hx.
  - right. by destruct (read_unsigned_sign _ _ _ Hx).
  - destruct (String.eqb _ "Infinity"); [by right|by left].
Qed.

(** C10: [parse] succeeds only with one of the six markers [C], [D],
    [EC], [ED], [RC] and [RD]: with any other marker it throws,
    whatever the amount string; a marker whose length is not 2 is taken
    whole as the debit or credit mark and rejected as such. *)
Theorem parse_only_six_markers (dcmark amountStr : string) :
  dcmark ∉ markers →
  (∃ msg, BankAmount.parse dcmark amountStr = Throw msg)
  ∧ (String.length dcmark ≠ 2%nat →
     BankAmount.parse dcmark amountStr
     = Throw ("Wrong debit/credit mark: " ++ dcmark)).
Proof.
  intros Hm. split.
  - destruct (BankAmount.parse dcmark amountStr) as [r|msg] eqn:H; [|eauto].
    by apply parse_ok_marker in H.
  - intros Hlen. apply parse_wrong_mark; unfold marks;
      apply Nat.eqb_neq in Hlen; rewrite Hlen; simpl.
    + set_solver.
    + intros [= ->]. apply Hm. unfold markers. set_solver.
    + intros [= ->]. apply Hm. unfold markers. set_solver.
Qed.

Lemma parse_only_six_markers_witness :
  (∃ msg, BankAmount.parse "DCX" "150,00" = Throw msg)
  ∧ BankAmount.parse "" "150,00" = Throw "Wrong debit/credit mark: ".
Proof.
  split.
  - apply (parse_only_six_markers "DCX" "150,00").
    apply (bool_decide_unpack _). by vm_compute.
  - apply (parse_only_six_markers "" "150,00").
    + apply (bool_decide_unpack _). by vm_compute.
    + by vm_compute.
Defined.

(** C6: [parse] throws "Not a reversal/expected mark" for a marker of
    two characters whose first is neither [E] nor [R] (such as [QD]);
    it throws "Wrong debit/credit mark" for a marker that passes this
    check and whose debit or credit mark is neither [D] nor [C] (such
    as [X]); and it throws for an amount string with a leading minus
    sign. *)
Theorem parse_errors (dcmark amountStr : string) :
  (∀ e, String.length dcmark = 2%nat →
        JsString.at_index dcmark 0 = Some e → e ≠ "E" → e ≠ "R" →
        BankAmount.parse dcmark amountStr
        = Throw ("Not a reversal/expected mark: " ++ dcmark))
  ∧ ((marks dcmark).1 ∈ [None; Some "E"; Some "R"] →
     (marks dcmark).2 ≠ Some "D" → (marks dcmark).2 ≠ Some "C" →
     BankAmount.parse dcmark amountStr
     = Throw ("Wrong debit/credit mark: " ++ dcmark))
  ∧ ((∃ rest, amountStr = String "-" rest) →
     ∃ msg, BankAmount.parse dcmark amountStr = Throw msg).
Proof.
  split; [|split].
  - intros e. apply parse_not_expected.
  - apply parse_wrong_mark.
  - intros [rest ->].
    destruct (BankAmount.parse dcmark _) as [r|msg] eqn:H; [|eauto].
    apply parse_ok_inv in H as (_ & Hn & Hs & _).
    destruct (magnitude_minus rest); congruence.
Qed.

Lemma parse_errors_witness :
  BankAmount.parse "QD" "150,00" = Throw "Not a reversal/expected mark: QD"
  ∧ BankAmount.parse "X" "150,00" = Throw "Wrong debit/credit mark: X"
  ∧ ∃ msg, BankAmount.parse "C" "-150,00" = Throw msg.
Proof.
  split; [|split].
  - apply (proj1 (parse_errors "QD" "150,00") "Q");
      [reflexivity|reflexivity|discriminate|discriminate].
  - apply (proj1 (proj2 (parse_errors "X" "150,00")));
      [apply (bool_decide_unpack _); by vm_compute
      |discriminate|discriminate].
  - apply (proj2 (proj2 (parse_errors "C" "-150,00"))). by eexists.
Defined.

(** C3: when [parse] succeeds, the result is the magnitude negated for
    the mark [D] and negated again for the leading mark [R], in
    hundredths; its sign is negative exactly when one of the two holds
    and not the other; [E] changes nothing.  So [D] with [150,00] gives
    -150, [C] gives 150, [RD] gives 150 and [ED] gives -150. *)
Theorem parse_sign :
  (∀ dcmark amountStr r,
     BankAmount.parse dcmark amountStr = Ok r →
     r = round2 (signed dcmark (magnitude amountStr))
     ∧ BigNumber.isNegative r
       = xorb (is_debit dcmark) (is_reversal dcmark))
  ∧ BankAmount.parse "D" "150,00" = Ok (BigNumber.of_Z (-150))
  ∧ BankAmount.parse "C" "150,00" = Ok (BigNumber.of_Z 150)
  ∧ BankAmount.parse "RD" "150,00" = Ok (BigNumber.of_Z 150)
  ∧ BankAmount.parse "ED" "150,00" = Ok (BigNumber.of_Z (-150)).
Proof.
  split; [|repeat split; reflexivity].
  intros dcmark amountStr r H.
  apply parse_ok_inv in H as (_ & Hn & Hs & ->).
  split; [done|].
  destruct (signed_sign dcmark _ Hn Hs) as [Hn' Hs'].
  destruct (to_hundredths_sign BigNumber.ROUND_HALF_UP _ Hn') as [_ E].
  unfold round2. by rewrite E.
Qed.

Lemma parse_sign_witness :
  BigNumber.isNegative (BigNumber.of_Z (-150))
  = xorb (is_debit "D") (is_reversal "D").
Proof.
  apply (proj1 parse_sign "D" "150,00"). reflexivity.
Defined.

(** C1, as the code has it: when [parse] succeeds, the signed magnitude
    is scaled by 100, rounded to the nearest integer with a half going
    away from zero, and scaled back; the result of a finite value is
    that integer two places down.  The integer is the quotient by the
    power of ten, and one more when the remainder is a half of it or
    more, where truncation takes the quotient.  So [C] with [10,005]
    gives 10.01. *)
Theorem parse_rounds_half_up :
  (∀ dcmark amountStr r,
     BankAmount.parse dcmark amountStr = Ok r →
     r = round2 (signed dcmark (magnitude amountStr))
     ∧ ∀ neg c e,
         signed dcmark (magnitude amountStr) = BigNumber.Finite neg c e →
         r = BigNumber.normal neg
               (integer_of BigNumber.ROUND_HALF_UP neg c (e + 2)) (- 2))
  ∧ BankAmount.parse "C" "10,005" = Ok (BigNumber.of_string "10.01").
Proof.
  split; [|reflexivity].
  intros dcmark amountStr r H.
  apply parse_ok_inv in H as (_ & _ & _ & ->).
  split; [done|].
  intros neg c e ->. apply to_hundredths_finite.
Qed.

Lemma parse_rounds_half_up_witness :
  BigNumber.of_string "10.01"
  = BigNumber.normal false
      (integer_of BigNumber.ROUND_HALF_UP false 10005 (- 3 + 2)) (- 2).
Proof.
  apply (proj1 parse_rounds_half_up "C" "10,005"); reflexivity.
Defined.

(** C1, as the specification has it, fails: [C] with [10,005] gives
    10.01, where truncation gives 10.00. *)
Lemma parse_does_not_truncate :
  BankAmount.parse "C" "10,005" = Ok (BigNumber.of_string "10.01")
  ∧ truncate2 (signed "C" (magnitude "10,005")) = BigNumber.of_string "10.00"
  ∧ BankAmount.parse "C" "10,005" ≠ Ok (BigNumber.of_string "10.00").
Proof. repeat split; [vm_compute; reflexivity..|by vm_compute]. Qed.

End Amount.

(** ** The date codec *)

Section Dates.
Import DateSpec.

Lemma digit_inv c :
  JsString.is_digit c = true →
  c ∈ list_ascii_of_string "0123456789".
Proof.
  destruct c as [[] [] [] [] [] [] [] []]; vm_compute; intros H;
    try discriminate H; set_solver.
Qed.

Ltac by_digits H :=
  apply digit_inv in H; simpl in H; set_unfold in H;
  repeat (destruct H as [->|H]; [|]); [..|destruct H].

Lemma parseInt_two a b :
  JsString.is_digit a = true → JsString.is_digit b = true →
  JsNumber.parseInt (two a b) = Some (two_value a b).
Proof. intros Ha Hb. by_digits Ha; by_digits Hb; reflexivity. Qed.

Lemma of_digit_string_two a b :
  JsString.is_digit a = true → JsString.is_digit b = true →
  JsNumber.of_digit_string (two a b) = Some (two_value a b).
Proof. intros Ha Hb. by_digits Ha; by_digits Hb; reflexivity. Qed.

Lemma two_value_range a b :
  JsString.is_digit a = true → JsString.is_digit b = true →
  0 <= two_value a b <= 99.
Proof. intros Ha Hb. by_digits Ha; by_digits Hb; vm_compute; split; discriminate. Qed.

Lemma is_calendar_date_b_true t y mn d :
  is_calendar_date_b t y mn d = true → is_calendar_date t y mn d.
Proof.
  unfold is_calendar_date_b, is_calendar_date,
    JsDate.getUTCFullYear, JsDate.getUTCMonth, JsDate.getUTCDate.
  destruct t as [tv|]; [|discriminate].
  cbn [fmap option_fmap option_map].
  generalize (JsDate.civil_of_day (tv / JsDate.msPerDay)).
  intros [[y' mn'] d']. cbn [fst snd].
  rewrite !andb_true_iff, !Z.eqb_eq. intros [[H1 H2] H3]. by subst.
Qed.

Lemma years_ok : forallb year_ok (seq 0 100) = true.
Proof. vm_compute. reflexivity. Qed.

Lemma year_ok_in i : (i < 100)%nat → year_ok i = true.
Proof.
  intros H. apply (proj1 (forallb_forall year_ok (seq 0 100)) years_ok).
  apply in_seq. lia.
Qed.

(** In the years 2000 to 2099, [Date.UTC] of a year, a month and a day
    of that month is that calendar date. *)
Lemma UTC_calendar y mn d :
  2000 <= y <= 2099 → 0 <= mn <= 11 → 1 <= d <= JsDate.DaysInMonth y mn →
  is_calendar_date (JsDate.UTC (Some y) (Some mn) (Some d)) y mn d.
Proof.
  intros Hy Hm Hd.
  assert (∃ i, (i < 100)%nat ∧ y = 2000 + Z.of_nat i) as (i & Hi & ->)
    by (exists (Z.to_nat (y - 2000)); lia).
  assert (∃ j, (j < 12)%nat ∧ mn = Z.of_nat j) as (j & Hj & ->)
    by (exists (Z.to_nat mn); lia).
  assert (∃ k, d = Z.of_nat k + 1) as (k & ->)
    by (exists (Z.to_nat (d - 1)); lia).
  pose proof (year_ok_in i Hi) as H. unfold year_ok in H.
  pose proof (proj1 (forallb_forall _ _) H j) as H1. cbv beta in H1.
  specialize (H1 ltac:(apply in_seq; lia)).
  pose proof (proj1 (forallb_forall _ _) H1 k) as H2. cbv beta in H2.
  apply is_calendar_date_b_true, H2, in_seq. lia.
Qed.

Lemma parse_two a b month day :
  JsString.is_digit a = true → JsString.is_digit b = true →
  BankDate.parse (two a b) month day
  = JsDate.UTC (Some (2000 + two_value a b))
               (JsNumber.sub (JsNumber.parseInt month) (Some 1))
               (JsNumber.of_digit_string day).
Proof.
  intros Ha Hb. unfold BankDate.parse.
  rewrite (parseInt_two a b Ha Hb).
  pose proof (two_value_range a b Ha Hb).
  unfold JsNumber.lt, JsNumber.add.
  assert ((two_value a b <? 100) = true) as -> by (apply Z.ltb_lt; lia).
  by rewrite (Z.add_comm (two_value a b) 2000).
Qed.

(** C7: [parse] reads a year of two digits as a year from 2000 on and
    gives [Date.UTC] of the year, the month less one and the day as they
    are read, with no check of its own on their ranges: a month from 01
    to 12 and a day of that month give that calendar date in UTC, and a
    day past the end of the month is not refused, so that 29 February
    2023 is 1 March 2023. *)
Theorem parse_date_two_digit_year :
  (∀ y1 y2 month day,
     JsString.is_digit y1 = true → JsString.is_digit y2 = true →
     BankDate.parse (two y1 y2) month day
     = JsDate.UTC (Some (2000 + two_value y1 y2))
                  (JsNumber.sub (JsNumber.parseInt month) (Some 1))
                  (JsNumber.of_digit_string day))
  ∧ (∀ y1 y2 m1 m2 d1 d2,
       JsString.is_digit y1 = true → JsString.is_digit y2 = true →
       JsString.is_digit m1 = true → JsString.is_digit m2 = true →
       JsString.is_digit d1 = true → JsString.is_digit d2 = true →
       1 <= two_value m1 m2 <= 12 →
       1 <= two_value d1 d2
         <= JsDate.DaysInMonth (2000 + two_value y1 y2)
                               (two_value m1 m2 - 1) →
       is_calendar_date
         (BankDate.parse (two y1 y2) (two m1 m2) (two d1 d2))
         (2000 + two_value y1 y2) (two_value m1 m2 - 1) (two_value d1 d2))
  ∧ BankDate.parse "23" "02" "29" = JsDate.UTC (Some 2023) (Some 1) (Some 29)
  ∧ BankDate.parse "23" "02" "29" = BankDate.parse "23" "03" "01"
  ∧ is_calendar_date (BankDate.parse "23" "02" "29") 2023 2 1.
Proof.
  split; [|split; [|repeat split; reflexivity]].
  - intros. by apply parse_two.
  - intros y1 y2 m1 m2 d1 d2 Hy1 Hy2 Hm1 Hm2 Hd1 Hd2 Hm Hd.
    rewrite parse_two by done.
    rewrite (parseInt_two m1 m2) by done.
    rewrite (of_digit_string_two d1 d2) by done.
    pose proof (two_value_range y1 y2 Hy1 Hy2).
    apply UTC_calendar; lia.
Qed.

Lemma parse_date_two_digit_year_witness :
  is_calendar_date (BankDate.parse "23" "02" "28") 2023 1 28
  ∧ BankDate.parse "99" "12" "31"
    = JsDate.UTC (Some 2099) (Some 11) (Some 31).
Proof.
  split.
  - apply (proj1 (proj2 parse_date_two_digit_year)
             "2"%char "3"%char "0"%char "2"%char "2"%char "8"%char);
      by vm_compute.
  - apply (proj1 parse_date_two_digit_year "9"%char "9"%char "12" "31");
      reflexivity.
Defined.

End Dates.


(** ** The factory *)

Section Factory.
Import TagFactory TagSpec.

Lemma append_cons c (s t : string) : String c s ++ t = String c (s ++ t).
Proof. reflexivity. Qed.

Lemma append_nil_r (s : string) : s ++ "" = s.
Proof. induction s as [|c s IH]; [done|]. by rewrite append_cons, IH. Qed.

Lemma append_assoc (s t u : string) : (s ++ t) ++ u = s ++ t ++ u.
Proof. induction s as [|c s IH]; [done|]. by rewrite !append_cons, IH. Qed.

Lemma digits_value_acc_app ds : ∀ acc c,
  JsString.digits_value_acc acc (ds ++ String c "")
  = (10 * JsString.digits_value_acc acc ds + JsString.digit_value c)%Z.
Proof.
  induction ds as [|x ds IH]; intros acc c; [done|].
  rewrite append_cons. cbn [JsString.digits_value_acc]. by rewrite IH.
Qed.

Lemma all_digits_app ds c :
  JsString.all_digits ds = true → JsString.is_digit c = true →
  JsString.all_digits (ds ++ String c "") = true.
Proof.
  induction ds as [|x ds IH]; intros H Hc.
  - change ("" ++ String c "") with (String c "").
    cbn [JsString.all_digits]. by rewrite Hc.
  - rewrite append_cons. cbn [JsString.all_digits] in *.
    apply andb_true_iff in H as [-> H]. by apply IH.
Qed.

Lemma digit_char (k : Z) :
  (0 <= k < 10)%Z →
  let c := ascii_of_N (Z.to_N (48 + k)) in
  JsString.is_digit c = true ∧ JsString.digit_value c = k.
Proof.
  intros H.
  assert (k = 0 ∨ k = 1 ∨ k = 2 ∨ k = 3 ∨ k = 4 ∨ k = 5 ∨ k = 6 ∨ k = 7
          ∨ k = 8 ∨ k = 9)%Z as Hk by lia.
  by repeat (destruct Hk as [->|Hk]; [|]); subst.
Qed.

Lemma digits_of_pos_fuel_S f n acc :
  JsString.digits_of_pos_fuel (S f) n acc
  = if (n <? 10)%Z
    then String (ascii_of_N (Z.to_N (48 + n mod 10))) acc
    else JsString.digits_of_pos_fuel f (n / 10)
           (String (ascii_of_N (Z.to_N (48 + n mod 10))) acc).
Proof. reflexivity. Qed.

(** The digits of a natural number: a string of digits, not empty, whose
    value is the number. *)
Lemma digits_of_pos_fuel_spec f : ∀ n acc,
  (0 <= n < 2 ^ Z.of_nat (S f))%Z →
  ∃ ds, JsString.digits_of_pos_fuel (S f) n acc = ds ++ acc
        ∧ JsString.all_digits ds = true
        ∧ ds ≠ ""
        ∧ JsString.digits_value ds = n.
Proof.
  induction f as [|f IH]; intros n acc Hn.
  - assert (n = 0 ∨ n = 1)%Z as [-> | ->]
      by (change (2 ^ Z.of_nat 1)%Z with 2%Z in Hn; lia);
      eexists (String _ ""); repeat split; done.
  - rewrite digits_of_pos_fuel_S.
    destruct (digit_char (n mod 10) ltac:(apply Z.mod_pos_bound; lia))
      as [Hd Hv].
    destruct (Z.ltb_spec n 10) as [Hlt|Hge].
    + eexists (String _ ""). split; [reflexivity|].
      cbn. rewrite Hd. repeat split; try done.
      unfold JsString.digits_value. cbn. rewrite Hv.
      rewrite Z.mod_small; lia.
    + destruct (IH (n / 10)%Z
                  (String (ascii_of_N (Z.to_N (48 + n mod 10))) acc))
        as (ds & -> & Ha & Hne & Hval).
      { split; [apply Z.div_pos; lia|].
        apply Z.div_lt_upper_bound; [lia|].
        rewrite (Nat2Z.inj_succ (S f)), Z.pow_succ_r in Hn by lia. lia. }
      exists (ds ++ String (ascii_of_N (Z.to_N (48 + n mod 10))) "").
      split; [by rewrite append_assoc|].
      split; [by apply all_digits_app|].
      split; [by destruct ds|].
      unfold JsString.digits_value in *.
      rewrite digits_value_acc_app, Hval, Hv.
      symmetry. apply Z.div_mod. lia.
Qed.

Lemma leading_digits_all ds :
  JsString.all_digits ds = true → JsString.leading_digits ds = ds.
Proof.
  induction ds as [|c ds IH]; simpl; [done|].
  intros [-> H]%andb_true_iff. by rewrite IH.
Qed.

Lemma parseInt_digits ds :
  JsString.all_digits ds = true → ds ≠ "" →
  JsNumber.parseInt ds = Some (JsString.digits_value ds)
  ∧ JsNumber.parseInt (String "-" ds) = Some (- JsString.digits_value ds)%Z.
Proof.
  intros Ha Hne. unfold JsNumber.parseInt.
  destruct ds as [|c ds]; [done|]. clear Hne.
  pose proof Ha as Ha'. cbn in Ha'. apply andb_true_iff in Ha' as [Hc _].
  split.
  - apply digit_inv in Hc. cbn in Hc. set_unfold in Hc.
    repeat (destruct Hc as [->|Hc]; [|]); try done;
      (change (JsString.trim_start (String ?c ds)) with (String c ds);
       cbv iota beta; by rewrite (leading_digits_all _ Ha)).
  - change (JsString.trim_start (String "-" (String c ds)))
      with (String "-" (String c ds)).
    cbv iota beta. by rewrite (leading_digits_all _ Ha).
Qed.

(** [parseInt] reads back the string of an integer. *)
Lemma parseInt_of_Z n : JsNumber.parseInt (JsString.of_Z n) = Some n.
Proof.
  unfold JsString.of_Z.
  destruct (digits_of_pos_fuel_spec (Z.to_nat (Z.log2 (Z.abs n))) (Z.abs n) "")
    as (ds & -> & Ha & Hne & Hv).
  { split; [lia|]. rewrite Nat2Z.inj_succ, Z2Nat.id by apply Z.log2_nonneg.
    destruct (Z.eq_dec n 0) as [->|Hn]; [done|].
    apply Z.log2_spec. lia. }
  rewrite append_nil_r.
  destruct (parseInt_digits ds Ha Hne) as [H1 H2].
  destruct (Z.ltb_spec n 0).
  - rewrite H2, Hv. f_equal. lia.
  - rewrite H1, Hv. f_equal. lia.
Qed.

Lemma tagMap_ID c : tagMap !! ID c = Some c.
Proof. destruct c; vm_compute; reflexivity. Qed.

Lemma tagMap_lookup k c : tagMap !! k = Some c → ID c = k.
Proof.
  unfold tagMap, classes. simpl foldl.
  repeat (rewrite lookup_insert; case_decide as E;
          [intros [= <-]; exact E|clear E]).
  by rewrite lookup_empty.
Qed.

Lemma tagMap_None k : (∀ c, ID c ≠ k) → tagMap !! k = None.
Proof.
  intros H. destruct (tagMap !! k) as [c|] eqn:E; [|done].
  apply tagMap_lookup in E. by destruct (H c).
Qed.

Lemma createTag_unfold id subId data :
  createTag id subId data
  = match tagMap !! Str (composite_key id subId) with
    | Some c => Tag_new c data
    | None =>
        match tagMap !! tag_id id with
        | Some c => Tag_new c data
        | None => Some (Throw ("Unknown tag " ++ composite_key id subId))
        end
    end.
Proof.
  unfold createTag, composite_key, tag_id, or_empty.
  assert (match subId with Some (String c r) => String c r | _ => "" end
          = match subId with Some s => s | None => "" end) as ->
    by (by destruct subId as [[|]|]).
  destruct (tagMap !! Str _); [done|].
  by destruct (tagMap !! _).
Qed.

Lemma createTag_key id subId data c :
  ID c = Str (composite_key id subId) →
  createTag id subId data = Tag_new c data.
Proof. intros Hc. by rewrite createTag_unfold, <- Hc, tagMap_ID. Qed.

Lemma createTag_bare id subId data c :
  (∀ c', ID c' ≠ Str (composite_key id subId)) → ID c = tag_id id →
  createTag id subId data = Tag_new c data.
Proof.
  intros Hn Hc.
  by rewrite createTag_unfold, (tagMap_None _ Hn), <- Hc, tagMap_ID.
Qed.

Lemma createTag_unknown id subId data :
  (∀ c, ID c ≠ Str (composite_key id subId) ∧ ID c ≠ tag_id id) →
  createTag id subId data
  = Some (Throw ("Unknown tag " ++ composite_key id subId)).
Proof.
  intros Hn. rewrite createTag_unfold.
  rewrite !tagMap_None; [done|..]; intros c; apply Hn.
Qed.

Lemma tag_id_Num n : tag_id (Num (Some n)) = Num (Some n).
Proof.
  unfold tag_id, isNaN, parseInt. cbn [jsval_toString].
  rewrite bool_decide_eq_false_2 by done. by rewrite parseInt_of_Z.
Qed.



End Factory.

(** ** The tags of one string *)

Section PlainTags.
Import Regex RegexSpec TagFactory TagSpec.
Local Open Scope nat_scope.

Lemma take_prefix_while p : ∀ s hi,
  take (String.length (prefix_while p hi s)) s = prefix_while p hi s.
Proof.
  induction s as [|c s IH]; intros hi; simpl; [done|].
  case_bool_decide; [done|]. destruct (p c); [|done].
  simpl. by rewrite IH.
Qed.

(** A greedy repetition of a class takes the longest prefix in the
    class, when the continuation accepts whatever is left. *)
Lemma repeat_chr_greedy p k :
  (∀ i s cs, is_Some (k i s cs)) →
  ∀ fuel hi i s cs,
    String.length s ≤ fuel →
    repeat (m (Chr p)) [] true fuel 0 hi i s cs k
    = k (i + String.length (prefix_while p hi s))
        (skip (String.length (prefix_while p hi s)) s) cs.
Proof.
  intros Hk. induction fuel as [|fuel IH]; intros hi i s cs Hlen.
  - destruct s; [|simpl in Hlen; lia]. simpl. by rewrite Nat.add_0_r.
  - cbn [repeat]. destruct s as [|c s].
    + cbn. rewrite Nat.add_0_r. case_bool_decide; [done|].
      by destruct (k i "" cs).
    + cbn [prefix_while m]. case_bool_decide.
      { cbn. by rewrite Nat.add_0_r. }
      destruct (p c) eqn:Hp.
      * assert ((S i =? i) = false) as -> by (apply Nat.eqb_neq; lia).
        cbn [Nat.eqb andb negb Nat.pred clear foldr].
        rewrite IH by (simpl in Hlen; lia).
        cbn [String.length skip]. rewrite Nat.add_succ_r.
        change (S i + ?n) with (S (i + n)).
        by destruct (Hk (S (i + String.length (prefix_while p (dec_hi hi) s)))
                       (skip (String.length (prefix_while p (dec_hi hi) s)) s)
                       cs) as [z ->].
      * cbn. by rewrite Nat.add_0_r.
Qed.

(** [exec] of an anchored group of a greedy repetition of a class. *)
Lemma exec_prefix p hi data :
  exec (Bol ⋅ Grp 1 (Rep 0 hi true (Chr p))) data
  = Some (MkMatch (prefix_while p hi data) {[1 := prefix_while p hi data]}
                  0 (String.length (prefix_while p hi data))).
Proof.
  unfold exec.
  assert (match_at (Bol ⋅ Grp 1 (Rep 0 hi true (Chr p))) 0 data
          = Some (MkMatch (prefix_while p hi data)
                          {[1 := prefix_while p hi data]}
                          0 (String.length (prefix_while p hi data)))) as H.
  { unfold match_at. rewrite m_Seq, m_Bol, m_Grp, m_Rep.
    cbn [Nat.eqb groups].
    rewrite repeat_chr_greedy by (eauto || lia).
    cbn [Nat.add]. rewrite Nat.sub_0_r, take_prefix_while.
    by rewrite insert_empty. }
  by rewrite search_eq, H.
Qed.

Lemma prefix_while_any : ∀ s n, prefix_while any (Some n) s = take n s.
Proof.
  induction s as [|c s IH]; intros [|n]; simpl; try done.
  by rewrite IH.
Qed.

Lemma prefix_while_all p : ∀ s,
  forallb p (list_ascii_of_string s) = true →
  prefix_while p None s = s ∧ ∀ n, prefix_while p (Some n) s = take n s.
Proof.
  induction s as [|c s IH]; simpl.
  - intros _. split; [done|]. by intros [|n].
  - intros [Hc Hs]%andb_true_iff. destruct (IH Hs) as [IH1 IH2].
    rewrite Hc. split; [by rewrite IH1|].
    intros [|n]; simpl; [done|]. by rewrite IH2.
Qed.

(** A class whose pattern is an anchored group of a greedy repetition of
    a character class, and whose one field is that group. *)
Lemma Tag_new_prefix c name p hi data :
  PATTERN c = (Bol ⋅ Grp 1 (Rep 0 hi true (Chr p)))%re →
  global c = false →
  (∀ mt li, _extractFields c data mt li
            = Some (Ok ({[name := str_value (group mt !! 1)]}, None, li))) →
  Tag_new c data = Some (Ok (one_field c data name (prefix_while p hi data))).
Proof.
  intros Hp Hg Hf. unfold Tag_new, _nextMatch.
  rewrite Hg, Hp, exec_prefix, Hf. cbn [group].
  by rewrite lookup_singleton_eq.
Qed.

Lemma Tag_new_20 data :
  Tag_new TagTransactionReferenceNumber data
  = Some (Ok (one_field TagTransactionReferenceNumber data
                "transactionReference" (prefix_while dot (Some 16) data))).
Proof. by apply Tag_new_prefix. Qed.

Lemma Tag_new_21 data :
  Tag_new TagRelatedReference data
  = Some (Ok (one_field TagRelatedReference data
                "relatedReference" (prefix_while dot (Some 16) data))).
Proof. by apply Tag_new_prefix. Qed.

Lemma Tag_new_25 data :
  Tag_new TagAccountIdentification data
  = Some (Ok (one_field TagAccountIdentification data
                "accountIdentification" (prefix_while dot (Some 35) data))).
Proof. by apply Tag_new_prefix. Qed.

Lemma Tag_new_NS data :
  Tag_new TagNonSwift data
  = Some (Ok (one_field TagNonSwift data
                "nonSwift" (prefix_while dot None data))).
Proof. by apply Tag_new_prefix. Qed.

Lemma Tag_new_86 data :
  Tag_new TagTransactionDetails data
  = Some (Ok (one_field TagTransactionDetails data
                "transactionDetails" (take 390 data))).
Proof. rewrite <- prefix_while_any. by apply Tag_new_prefix. Qed.

(** C9, as the code has it: a tag with the identifier 20, 21, 25, NS or
    86, given as a number or as a string, is made of every data string.
    It has one field.  For 20, 21, 25 and NS this is the longest prefix
    of the data without a line terminator, of at most 16, 16 and 35
    characters and of any length; for 86 it is the data cut at 390
    characters.  For data without a line terminator the field is the data
    cut at the maximal length. *)
Theorem plain_tags_never_fail (data : string) :
  (∀ id, id ∈ [Num (Some 20%Z); Str "20"] →
     createTag id None data
     = Some (Ok (one_field TagTransactionReferenceNumber data
                   "transactionReference" (prefix_while dot (Some 16) data))))
  ∧ (∀ id, id ∈ [Num (Some 21%Z); Str "21"] →
       createTag id None data
       = Some (Ok (one_field TagRelatedReference data
                     "relatedReference" (prefix_while dot (Some 16) data))))
  ∧ (∀ id, id ∈ [Num (Some 25%Z); Str "25"] →
       createTag id None data
       = Some (Ok (one_field TagAccountIdentification data
                     "accountIdentification"
                     (prefix_while dot (Some 35) data))))
  ∧ createTag (Str "NS") None data
    = Some (Ok (one_field TagNonSwift data
                  "nonSwift" (prefix_while dot None data)))
  ∧ (∀ id, id ∈ [Num (Some 86%Z); Str "86"] →
       createTag id None data
       = Some (Ok (one_field TagTransactionDetails data
                     "transactionDetails" (take 390 data))))
  ∧ (forallb dot (list_ascii_of_string data) = true →
     prefix_while dot None data = data
     ∧ ∀ n, prefix_while dot (Some n) data = take n data).
Proof.
  repeat split.
  - intros id Hid. rewrite <- Tag_new_20. set_unfold in Hid.
    destruct Hid as [->|[->|[]]];
      (apply createTag_bare; [by intros []|reflexivity]).
  - intros id Hid. rewrite <- Tag_new_21. set_unfold in Hid.
    destruct Hid as [->|[->|[]]];
      (apply createTag_bare; [by intros []|reflexivity]).
  - intros id Hid. rewrite <- Tag_new_25. set_unfold in Hid.
    destruct Hid as [->|[->|[]]];
      (apply createTag_bare; [by intros []|reflexivity]).
  - rewrite <- Tag_new_NS. by apply createTag_key.
  - intros id Hid. rewrite <- Tag_new_86. set_unfold in Hid.
    destruct Hid as [->|[->|[]]];
      (apply createTag_bare; [by intros []|reflexivity]).
  - by apply prefix_while_all.
  - by apply prefix_while_all.
Qed.

Lemma plain_tags_never_fail_witness :
  createTag (Str "20") None ""
  = Some (Ok (one_field TagTransactionReferenceNumber ""
                "transactionReference" (prefix_while dot (Some 16) "")))
  ∧ createTag (Num (Some 86%Z)) None two_lines
    = Some (Ok (one_field TagTransactionDetails two_lines
                  "transactionDetails" (take 390 two_lines)))
  ∧ prefix_while dot (Some 2) "abc" = take 2 "abc".
Proof.
  split; [|split].
  - apply (proj1 (plain_tags_never_fail "")).
    apply (bool_decide_unpack _). by vm_compute.
  - apply (proj1 (proj2 (proj2 (proj2 (proj2
             (plain_tags_never_fail two_lines)))))).
    apply (bool_decide_unpack _). by vm_compute.
  - apply (proj2 (proj2 (proj2 (proj2 (proj2
             (plain_tags_never_fail "abc")))))). reflexivity.
Defined.

(** C9, as the specification has it, fails: the field of a tag 20 stops
    at a line feed, before the sixteenth character. *)
Lemma plain_tag_stops_at_line_end :
  createTag (Num (Some 20%Z)) None two_lines
  = Some (Ok (one_field TagTransactionReferenceNumber two_lines
                "transactionReference" "ab"))
  ∧ take 16 two_lines ≠ "ab"
  ∧ createTag (Num (Some 20%Z)) None two_lines
    ≠ Some (Ok (one_field TagTransactionReferenceNumber two_lines
                  "transactionReference" (take 16 two_lines))).
Proof.
  split; [vm_compute; reflexivity|]. split; [by vm_compute|].
  vm_compute. discriminate.
Qed.

End PlainTags.

(** ** The message block *)

Section MessageBlock.
Import Regex RegexSpec TagFactory TagSpec.
Local Open Scope nat_scope.

Lemma drop_advances n s s' : drop n s = Some s' → advances 0 s n s'.
Proof. intros H. by exists n. Qed.

(** A match that [search] finds is a match at some index from the
    start of the search on. *)
Lemma search_match_at r : ∀ s i mr,
  search r i s = Some mr →
  ∃ j sj, advances i s j sj ∧ match_at r j sj = Some mr.
Proof.
  induction s as [|c s IH]; intros i mr H; rewrite search_eq in H.
  - destruct (match_at r i "") eqn:E; [|discriminate]. simplify_eq.
    exists i, "". split; [apply advances_refl|done].
  - destruct (match_at r i (String c s)) eqn:E.
    + simplify_eq. exists i, (String c s). split; [apply advances_refl|done].
    + apply IH in H as (j & sj & Ha & Hm). exists j, sj.
      split; [|done]. eapply advances_trans; [apply advances_one|done].
Qed.

Lemma match_at_index r i s mr :
  match_at r i s = Some mr →
  index mr = i ∧ ∃ s', advances i s (end_index mr) s'.
Proof.
  unfold match_at. intros H.
  destruct (m r i s ∅ _) as [[[i' s'] cs']|] eqn:E; [|discriminate].
  simplify_eq. simpl. split; [done|].
  apply m_reaches in E as (i1 & s1 & cs1 & E & Ha & _). simplify_eq. eauto.
Qed.

Lemma lit_true c x : Ascii.eqb c x = true → x = c.
Proof. by intros ->%Ascii.eqb_eq. Qed.

(** The head of a block: a brace, a digit and a colon. *)
Lemma block_head i s cs k z :
  m (lit "{" ⋅ Grp 3 (Chr digit) ⋅ lit ":") i s cs k = Some z →
  ∃ d s3, s = String "{" (String d (String ":" s3)) ∧ digit d = true
          ∧ k (S (S (S i))) s3 (<[3 := String d ""]> cs) = Some z.
Proof.
  rewrite !m_Seq. unfold lit at 1.
  destruct s as [|c1 s1]; [discriminate|]. rewrite m_Chr.
  destruct (Ascii.eqb "{" c1) eqn:E1; [|discriminate].
  apply lit_true in E1 as ->. rewrite m_Grp.
  destruct s1 as [|d s2]; [discriminate|]. rewrite m_Chr.
  destruct (digit d) eqn:Ed; [|discriminate].
  destruct s2 as [|c3 s3]; [discriminate|]. unfold lit. rewrite m_Chr.
  destruct (Ascii.eqb ":" c3) eqn:E3; [|discriminate].
  apply lit_true in E3 as ->.
  replace (S (S i) - S i) with 1 by lia. cbn [take].
  intros H. by exists d, s3; repeat split.
Qed.

(** The terminator: at the start of the input only. *)
Lemma terminator_match i s cs k z :
  m (Grp 1 (Bol ⋅ lit "-" ⋅ lit "}")) i s cs k = Some z →
  i = 0 ∧ ∃ rest, s = String "-" (String "}" rest)
                  ∧ k 2 rest (<[1 := "-}"]> cs) = Some z.
Proof.
  rewrite m_Grp, !m_Seq, m_Bol.
  destruct (Nat.eqb_spec i 0) as [->|]; [|discriminate].
  destruct s as [|c1 s1]; [discriminate|]. unfold lit at 1. rewrite m_Chr.
  destruct (Ascii.eqb "-" c1) eqn:E1; [|discriminate].
  apply lit_true in E1 as ->.
  destruct s1 as [|c2 s2]; [discriminate|]. unfold lit. rewrite m_Chr.
  destruct (Ascii.eqb "}" c2) eqn:E2; [|discriminate].
  apply lit_true in E2 as ->.
  intros H. split; [done|]. by exists s2; split.
Qed.

(** A match of the pattern of the message block is the terminator at
    the start of the input, or a block. *)
Lemma match_at_MB i s mr :
  match_at PATTERN_MessageBlock i s = Some mr →
  (i = 0 ∧ starts_with "-}" s = true ∧ whole mr = "-}" ∧ end_index mr = 2)
  ∨ (starts_with "-}" s = false ∧ is_block mr ∧ i < end_index mr).
Proof.
  unfold match_at, PATTERN_MessageBlock. rewrite m_Alt.
  destruct (m (Grp 1 _) i s ∅ _) as [z|] eqn:E1.
  - apply terminator_match in E1 as (-> & rest & -> & E1).
    simplify_eq. intros [= <-]. left. by repeat split.
  - clear E1.
    destruct (m (Grp 2 _) i s ∅ _) as [z|] eqn:E2; [|discriminate].
    rewrite m_Grp, !(m_Seq (_ ⋅ _)) in E2.
    apply block_head in E2 as (d & s3 & -> & Hd & E2).
    rewrite m_Grp in E2.
    apply m_reaches in E2 as (i1 & s1 & cs1 & E2 & (n1 & -> & _) & Hc1).
    apply m_reaches in E2 as (i2 & s2 & cs2 & E2 & (n2 & -> & _) & Hc2).
    simplify_eq. intros [= <-]. right. split; [done|]. split.
    + exists d, (take (S (S (S i)) + n1 - S (S (S i))) s3). cbn [group whole].
      rewrite !lookup_insert_ne by done.
      rewrite !Hc2 by (cbn; set_unfold; lia).
      rewrite lookup_insert_ne by done. rewrite lookup_insert_eq.
      rewrite Hc1 by (cbn; set_unfold; lia). rewrite lookup_insert_eq.
      repeat split; try done.
      replace (S (S (S (i + n1 + n2))) - i) with (S (S (S (n1 + n2))))
        by lia.
      cbn [take]. discriminate.
    + cbn [end_index]. lia.
Qed.

(** The next match, looked for after the start of the data, is a block,
    and it ends further on and within the data. *)
Lemma next_match_later data li mt li' :
  0 < li → _nextMatch TagMessageBlock data li = (mt, li') →
  match mt with
  | Some mr => is_block mr ∧ li < li' ∧ li' ≤ String.length data
  | None => True
  end.
Proof.
  intros Hli. unfold _nextMatch, exec_global. cbn [global PATTERN].
  destruct (drop li data) as [s|] eqn:Hd; [|by intros [= <- <-]].
  destruct (search _ li s) as [mr|] eqn:Hs; [|by intros [= <- <-]].
  intros [= <- <-].
  apply search_match_at in Hs as (j & sj & Hj & Hm).
  pose proof (match_at_index _ _ _ _ Hm) as (_ & s' & He).
  apply drop_advances, advances_length in Hd.
  pose proof (advances_length _ _ _ _ Hj).
  pose proof (advances_length _ _ _ _ He).
  destruct Hj as (n & -> & _).
  apply match_at_MB in Hm as [(? & _)|(_ & Hb & Hlt)]; [lia|].
  split; [done|]. lia.
Qed.

Lemma starts_with_terminator s :
  starts_with "-}" s = true → ∃ rest, s = String "-" (String "}" rest).
Proof.
  unfold starts_with. cbn [String.length take].
  destruct s as [|c1 [|c2 rest]]; cbn [take String.eqb];
    try discriminate.
  - by destruct (Ascii.eqb c1 "-").
  - destruct (Ascii.eqb_spec c1 "-") as [->|]; [|discriminate].
    destruct (Ascii.eqb_spec c2 "}") as [->|]; [|discriminate]. eauto.
Qed.

(** The first match: the terminator when the data start with it, and
    a block otherwise. *)
Lemma first_match data mr li :
  _nextMatch TagMessageBlock data 0 = (Some mr, li) →
  0 < li ≤ String.length data
  ∧ if starts_with "-}" data then whole mr = "-}" else is_block mr.
Proof.
  unfold _nextMatch, exec_global. cbn [global PATTERN drop].
  destruct (search _ 0 data) as [mr'|] eqn:Hs; [|discriminate].
  intros [= -> <-].
  destruct (starts_with "-}" data) eqn:Hst.
  - apply starts_with_terminator in Hst as (rest & ->).
    rewrite search_eq in Hs. cbn in Hs. simplify_eq. cbn. split; [lia|done].
  - apply search_match_at in Hs as (j & sj & Hj & Hm).
    pose proof (match_at_index _ _ _ _ Hm) as (_ & s' & He).
    pose proof (advances_length _ _ _ _ Hj).
    pose proof (advances_length _ _ _ _ He).
    destruct Hj as (n & -> & Hn).
    apply match_at_MB in Hm as [(Hj & Hst' & _)|(_ & Hb & Hlt)].
    + assert (n = 0) as -> by lia. cbn in Hn. simplify_eq. congruence.
    + split; [lia|done].
Qed.

Lemma scan_blocks_Some fuel data mr li f :
  scan_blocks (S fuel) data (Some mr) li f
  = next_round fuel data li
      (if String.eqb (whole mr) "-}" then <["EOB" := VStr ""]> f
       else <[str_arg (group mr !! 3) := str_value (group mr !! 4)]> f).
Proof. reflexivity. Qed.

(** The rounds after the first: they end, they leave the field [EOB] as
    it is, and they set strings. *)
Lemma next_round_spec data : ∀ fuel li f,
  0 < li → String.length data - li ≤ fuel →
  ∃ f' li', next_round fuel data li f = Some (f', li')
            ∧ f' !! "EOB" = f !! "EOB"
            ∧ (all_strings f → all_strings f').
Proof.
  induction fuel as [|fuel IH]; intros li f Hli Hfuel; unfold next_round;
    destruct (_nextMatch TagMessageBlock data li) as [[mr|] li'] eqn:E;
    try (exists f, li'; by repeat split);
    pose proof (next_match_later _ _ _ _ Hli E) as (Hb & Hlt & Hle);
    [lia|].
  rewrite scan_blocks_Some.
  destruct Hb as (d & v & H3 & Hd & H4 & Hw).
  apply String.eqb_neq in Hw. rewrite Hw, H3, H4. cbn [str_arg str_value].
  destruct (IH li' (<[String d "" := VStr v]> f) ltac:(lia) ltac:(lia))
    as (f' & li'' & -> & HE & Hs).
  exists f', li''. split; [done|]. split.
  - by rewrite HE, lookup_insert_ne.
  - intros Hf. apply Hs. intros name x.
    rewrite lookup_insert. case_decide; [|by apply Hf].
    intros [= <-]. eauto.
Qed.

(** The loop of the message block ends, whatever the data. *)
Lemma scan_blocks_first data mr li :
  _nextMatch TagMessageBlock data 0 = (Some mr, li) →
  ∃ f li', scan_blocks (S (String.length data)) data (Some mr) li ∅
           = Some (f, li')
           ∧ f !! "EOB"
             = (if starts_with "-}" data then Some (VStr "") else None)
           ∧ all_strings f.
Proof.
  intros H. apply first_match in H as (Hli & Hm).
  rewrite scan_blocks_Some.
  destruct (starts_with "-}" data).
  - rewrite Hm. cbn [String.eqb Ascii.eqb Bool.eqb].
    destruct (next_round_spec data (String.length data) li
                {["EOB" := VStr ""]} ltac:(lia) ltac:(lia))
      as (f & li' & E & HE & Hs).
    rewrite insert_empty. exists f, li'. split; [done|]. split.
    + by rewrite HE, lookup_singleton_eq.
    + apply Hs. intros name x [<- <-]%lookup_singleton_Some. eauto.
  - destruct Hm as (d & v & H3 & Hd & H4 & Hw).
    apply String.eqb_neq in Hw. rewrite Hw, H3, H4. cbn [str_arg str_value].
    destruct (next_round_spec data (String.length data) li
                {[String d "" := VStr v]} ltac:(lia) ltac:(lia))
      as (f & li' & E & HE & Hs).
    rewrite insert_empty. exists f, li'. split; [done|]. split.
    + by rewrite HE, lookup_singleton_ne.
    + apply Hs. intros name x [<- <-]%lookup_singleton_Some. eauto.
Qed.

(** The construction of a message block: an error when there is no
    match, and otherwise a tag, whose field [EOB] is set when the data
    start with the terminator and whose flag says whether the field [1]
    is set. *)
Lemma Tag_new_MB data :
  (_nextMatch TagMessageBlock data 0).1 = None
  ∧ Tag_new TagMessageBlock data
    = Some (Throw ("Cannot parse tag MB: " ++ data))
  ∨ ∃ f li,
      is_Some (_nextMatch TagMessageBlock data 0).1
      ∧ Tag_new TagMessageBlock data
        = Some (Ok (MkTag (Str "MB") data f
                      (Some (bool_decide (is_Some (f !! "1")))) li))
      ∧ f !! "EOB" = (if starts_with "-}" data then Some (VStr "") else None)
      ∧ all_strings f.
Proof.
  unfold Tag_new.
  destruct (_nextMatch TagMessageBlock data 0) as [[mr|] li] eqn:E;
    [right|by left].
  destruct (scan_blocks_first _ _ _ E) as (f & li' & Hs & HE & Hf).
  unfold _extractFields. rewrite Hs. exists f, li'.
  split; [by eexists|]. split; [|done].
  do 4 f_equal. apply bool_decide_ext. unfold get_field.
  destruct (f !! "1") as [v|] eqn:E1.
  - destruct (Hf _ _ E1) as [x ->]. split; [eauto|done].
  - split; [done|]. by intros [? ?].
Qed.

(** C2, as the specification has it, fails: the terminator at the end of
    the text is not found, so there is no field [EOB], and the second
    block runs to the end of the text. *)
Lemma message_block_no_terminator :
  ∃ t, createTag (Str "MB") None two_blocks = Some (Ok t)
       ∧ fields t !! "EOB" = None
       ∧ fields t !! "2" = Some (VStr "abc}-")
       ∧ fields t
         ≠ <["1" := VStr "F01BANKXXXX"]>
             (<["2" := VStr "abc"]> {["EOB" := VStr ""]}).
Proof.
  eexists. split; [vm_compute; reflexivity|].
  split; [by vm_compute|]. split; [by vm_compute|].
  intros H. apply (f_equal (λ f : gmap string value, f !! "EOB")) in H.
  vm_compute in H. discriminate.
Qed.

End MessageBlock.

(** ** The statement line *)

Section StatementLine.
Import Regex RegexSpec TagFactory TagSpec DateSpec AmountSpec.
Local Open Scope nat_scope.

Lemma repeat_hi0 step gs greedy fuel lo i s cs k :
  repeat step gs greedy fuel lo (Some 0) i s cs k = k i s cs.
Proof. by destruct fuel. Qed.

(** A group of two digits. *)
Lemma two_digits_group n i s cs k z :
  m (Grp n (times 2 (Chr digit))) i s cs k = Some z →
  ∃ a b rest, s = String a (String b rest)
              ∧ digit a = true ∧ digit b = true
              ∧ k (S (S i)) rest (<[n := two a b]> cs) = Some z.
Proof.
  rewrite m_Grp. unfold times. rewrite m_Rep.
  destruct s as [|a [|b rest]]; cbn.
  - discriminate.
  - destruct (digit a); discriminate.
  - destruct (digit a) eqn:Ea; [|discriminate].
    destruct (digit b) eqn:Eb; [|discriminate].
    replace (S (S i) - i) with 2 by lia. cbn [take].
    intros H. exists a, b, rest. by repeat split.
Qed.

(** An optional part is matched, at a later index, or left out. *)
Lemma opt_inv r i s cs k z :
  m (opt r) i s cs k = Some z →
  (∃ d, m r i s (clear (groups r) cs) d = Some z
        ∧ ∀ i' s' cs', d i' s' cs' = Some z → k i' s' cs' = Some z)
  ∨ k i s cs = Some z.
Proof.
  unfold opt. rewrite m_Rep.
  destruct (0 + String.length s) as [|fuel]; [by right|].
  cbn [repeat]. rewrite bool_decide_eq_false_2 by done.
  cbn [Nat.eqb negb andb Nat.pred dec_hi fmap option_fmap option_map].
  match goal with
  | |- context [m r i s (clear (groups r) cs) ?d] =>
      destruct (m r i s (clear (groups r) cs) d) as [z'|] eqn:E
  end.
  - intros [= ->]. left. eexists. split; [exact E|].
    intros i' s' cs'. cbn beta.
    destruct (i' =? i); [discriminate|]. by rewrite repeat_hi0.
  - by right.
Qed.

(** The debit or credit mark with its optional leading mark: one or two
    characters, none of them a digit. *)
Lemma mark_group i s cs k z :
  m (Grp 7 (opt (Chr (one_of "E|R")) ⋅ Chr (one_of "DC"))) i s cs k = Some z →
  ∃ mark rest, s = mark ++ rest
               ∧ (∃ c tl, mark = String c tl ∧ digit c = false)
               ∧ k (i + String.length mark) rest (<[7 := mark]> cs) = Some z.
Proof.
  rewrite m_Grp, m_Seq. intros H.
  apply opt_inv in H as [(d & H & Hd)|H].
  - destruct s as [|c1 s1]; [discriminate|]. rewrite m_Chr in H.
    destruct (one_of "E|R" c1) eqn:E1; [|discriminate].
    apply Hd in H. destruct s1 as [|c2 s2]; [discriminate|].
    rewrite m_Chr in H. destruct (one_of "DC" c2) eqn:E2; [|discriminate].
    exists (String c1 (String c2 "")), s2. split; [done|]. split.
    + exists c1, (String c2 ""). split; [done|].
      destruct (digit c1) eqn:Ed; [|done].
      apply digit_inv in Ed. cbn in Ed. set_unfold in Ed.
      by repeat (destruct Ed as [->|Ed]; [discriminate E1|]).
    + replace (S (S i) - i) with 2 in H by lia. cbn [take] in H.
      cbn [clear groups foldr] in H.
      by replace (i + String.length (String c1 (String c2 "")))
        with (S (S i)) by (cbn; lia).
  - destruct s as [|c1 s1]; [discriminate|]. rewrite m_Chr in H.
    destruct (one_of "DC" c1) eqn:E1; [|discriminate].
    exists (String c1 ""), s1. split; [done|]. split.
    + exists c1, "". split; [done|].
      destruct (digit c1) eqn:Ed; [|done].
      apply digit_inv in Ed. cbn in Ed. set_unfold in Ed.
      by repeat (destruct Ed as [->|Ed]; [discriminate E1|]).
    + replace (S i - i) with 1 in H by lia. cbn [take] in H.
      by replace (i + String.length (String c1 "")) with (S i)
        by (cbn; lia).
Qed.

Ltac lookups :=
  cbn [clear groups foldr app];
  repeat (rewrite lookup_insert_eq
          || (rewrite lookup_insert_ne by done)
          || (rewrite lookup_delete_ne by done)
          || rewrite lookup_delete_eq
          || rewrite lookup_empty).

(** The tail of a match: the captures of the groups before it stay. *)
Ltac tail H :=
  let i := fresh "i" in let s := fresh "s" in let cs := fresh "cs" in
  let Hc := fresh "Hc" in
  apply m_reaches in H as (i & s & cs & H & _ & Hc).

Lemma statement_line_match data mr :
  exec PATTERN_StatementLine data = Some mr →
  ∃ y mo d mark entry, statement_line_parts data mr y mo d mark entry.
Proof.
  unfold exec. intros H.
  apply search_match_at in H as (j & sj & (n & -> & Hn) & H).
  unfold match_at in H.
  destruct (m _ _ sj ∅ _) as [[[i' s'] cs']|] eqn:E; [|discriminate].
  injection H as <-.
  unfold PATTERN_StatementLine in E. rewrite !m_Seq, m_Bol in E.
  destruct (Nat.eqb_spec (0 + n) 0) as [Hz|]; [|discriminate].
  assert (n = 0) as -> by lia. cbn in Hn. injection Hn as ->. cbn [Nat.add] in E.
  apply two_digits_group in E as (y1 & y2 & s1 & -> & Hy1 & Hy2 & E).
  apply two_digits_group in E as (m1 & m2 & s2 & -> & Hm1 & Hm2 & E).
  apply two_digits_group in E as (d1 & d2 & s3 & -> & Hd1 & Hd2 & E).
  exists (two y1 y2), (two m1 m2), (two d1 d2).
  apply opt_inv in E as [(d & E & Hd)|E].
  - rewrite m_Grp, m_Seq in E.
    apply two_digits_group in E as (e1 & e2 & s4 & -> & He1 & He2 & E).
    apply two_digits_group in E as (e3 & e4 & s5 & -> & He3 & He4 & E).
    apply Hd in E.
    apply mark_group in E as (mark & rest & -> & Hmark & E).
    do 6 tail E. injection E as <- <- <-.
    exists mark, (Some (two e1 e2, two e3 e4)).
    assert (∀ n, n < 8 → cs4 !! n = cs !! n) as Hfin.
    { intros n Hn.
      rewrite Hc4, Hc3, Hc2, Hc1, Hc0; [done|cbn; set_unfold; lia..]. }
    assert (∀ n, n < 8 → cs !! n = _ !! n) as Hfin'
      by (intros n Hn; apply Hc; cbn; set_unfold; lia).
    unfold statement_line_parts. cbn [group].
    rewrite !Hfin, !Hfin' by lia. lookups.
    split; [exists y1, y2, m1, m2, d1, d2; repeat split; try done;
            cbn; by rewrite Hy1, Hy2, Hm1, Hm2, Hd1, Hd2|].
    repeat (split; [done|]). split.
    { exists e1, e2, e3, e4. repeat split; try done.
      cbn. by rewrite He1, He2, He3, He4. }
    repeat (split; [done|]). by exists rest.
  - apply mark_group in E as (mark & rest & -> & Hmark & E).
    do 6 tail E. injection E as <- <- <-.
    exists mark, None.
    assert (∀ n, n < 8 → cs4 !! n = cs !! n) as Hfin.
    { intros n Hn.
      rewrite Hc4, Hc3, Hc2, Hc1, Hc0; [done|cbn; set_unfold; lia..]. }
    assert (∀ n, n < 8 → cs !! n = _ !! n) as Hfin'
      by (intros n Hn; apply Hc; cbn; set_unfold; lia).
    unfold statement_line_parts. cbn [group].
    rewrite !Hfin, !Hfin' by lia. lookups.
    split; [exists y1, y2, m1, m2, d1, d2; repeat split; try done;
            cbn; by rewrite Hy1, Hy2, Hm1, Hm2, Hd1, Hd2|].
    repeat (split; [done|]). by exists rest.
Qed.

Lemma bind_Ok {A B} (a : A) (k : A → result B) : (Ok a ≫= k) = k a.
Proof. reflexivity. Qed.

Lemma bind_Throw {A B} msg (k : A → result B) : (Throw msg ≫= k) = Throw msg.
Proof. reflexivity. Qed.





(** A line without an entry date, of a reversal, and a line with an
    entry date. *)
Lemma statement_line_examples :
  (∃ t, createTag (Num (Some 61%Z)) None line_without_entry = Some (Ok t)
        ∧ fields t !! "entryDate" = Some (VStr "")
        ∧ fields t !! "isReversal" = Some (VBool true)
        ∧ fields t !! "amount" = Some (VAmount (BigNumber.of_Z 400)))
  ∧ (∃ t, createTag (Num (Some 61%Z)) None line_with_entry = Some (Ok t)
          ∧ fields t !! "entryDate"
            = Some (VDate (BankDate.parse "09" "02" "03"))
          ∧ fields t !! "isReversal" = Some (VBool false)
          ∧ fields t !! "bankReference" = Some (VStr "BANK")).
Proof.
  split; (eexists; split; [vm_compute; reflexivity|]);
    repeat split; vm_compute; reflexivity.
Qed.

End StatementLine.

(** ** All or nothing *)

Section AllOrNothing.
Import Regex RegexSpec TagFactory TagSpec.

Lemma Tag_new_eq c data :
  global c = false →
  Tag_new c data
  = match exec (PATTERN c) data with
    | None =>
        Some (Throw ("Cannot parse tag " ++ jsval_toString (ID c)
                     ++ ": " ++ data))
    | Some mr =>
        match _extractFields c data mr 0 with
        | Some (Ok (f, st, li)) => Some (Ok (MkTag (ID c) data f st li))
        | Some (Throw msg) => Some (Throw msg)
        | None => None
        end
    end.
Proof. intros Hg. unfold Tag_new, _nextMatch. by rewrite Hg. Qed.

Lemma nextMatch_eq c data :
  global c = false → (_nextMatch c data 0).1 = exec (PATTERN c) data.
Proof. intros Hg. unfold _nextMatch. by rewrite Hg. Qed.

(** A balance without an amount matches its pattern, and the error is
    the one of the amount. *)
Lemma balance_without_amount_error :
  createTag (Str "60") (Some "F") balance_without_amount
  = Some (Throw "Amount cannot be parsed: ").
Proof. vm_compute. reflexivity. Qed.

End AllOrNothing.

(** * Further properties *)

(** ** The registry and the identifiers *)

Section Registry.
Import TagFactory TagSpec ExtraSpec.

(** X1: the tag map holds exactly the classes of the list, each under
    its own [ID]: a key gives a class exactly when it is the [ID] of the
    class, so no class of the list is hidden by another. *)
Theorem registry_lookup (k : jsval) (c : tag_class) :
  tagMap !! k = Some c ↔ ID c = k.
Proof.
  split.
  - apply tagMap_lookup.
  - intros <-. apply tagMap_ID.
Qed.

Lemma createTag_tag_id id1 id2 subId data :
  tag_id id1 = tag_id id2 →
  createTag id1 subId data = createTag id2 subId data.
Proof.
  intros H. rewrite !createTag_unfold. unfold composite_key. by rewrite H.
Qed.

(** X2: an identifier that is a string reading as a number is taken as
    the integer that [parseInt] reads from it, when this is an integer
    that a number holds exactly, below [2^53] in magnitude: leading
    zeros and white space around it do not count, and the tag is the one
    of the number.  (From [2^53] on the numbers of the code are rounded,
    and from [10^21] on they are printed with an exponent, which the
    integers of this development do not follow.) *)
Theorem createTag_numeric_string (s : string) (n : Z)
    (subId : option string) (data : string) :
  JsNumber.is_numeric_string s = true →
  JsNumber.parseInt s = Some n →
  (Z.abs n < 2 ^ 53)%Z →
  createTag (Str s) subId data = createTag (Num (Some n)) subId data.
Proof.
  intros Hs Hn _. apply createTag_tag_id. rewrite tag_id_Num.
  unfold tag_id, isNaN, parseInt. cbn [jsval_toString].
  by rewrite Hs, Hn.
Qed.

Lemma createTag_numeric_string_witness :
  createTag (Str " 020 ") (Some "C") "REF"
  = createTag (Num (Some 20%Z)) (Some "C") "REF".
Proof.
  apply (createTag_numeric_string " 020 " 20 (Some "C") "REF");
    reflexivity.
Defined.

(** X3: an identifier that reads as a number in which [parseInt] finds
    no integer, such as the empty string, white space or [Infinity],
    gives the error of an unknown tag [NaN]. *)
Theorem createTag_no_integer (s : string) (subId : option string)
    (data : string) :
  JsNumber.is_numeric_string s = true →
  JsNumber.parseInt s = None →
  createTag (Str s) subId data
  = Some (Throw ("Unknown tag NaN" ++ or_empty subId)).
Proof.
  intros Hs Hn.
  assert (tag_id (Str s) = Num None) as Ht.
  { unfold tag_id, isNaN, parseInt. cbn [jsval_toString]. by rewrite Hs, Hn. }
  rewrite createTag_unknown; unfold composite_key; rewrite Ht; [done|].
  intros c. split; [|by destruct c].
  change (jsval_toString (Num None)) with "NaN".
  destruct c; cbn [ID]; try discriminate;
    intros [= H]; revert H; rewrite !append_cons; discriminate.
Qed.

Lemma createTag_no_integer_witness :
  createTag (Str "") (Some "F") "x" = Some (Throw "Unknown tag NaNF")
  ∧ createTag (Str "Infinity") None "x" = Some (Throw "Unknown tag NaN").
Proof.
  split.
  - apply (createTag_no_integer "" (Some "F") "x"); reflexivity.
  - apply (createTag_no_integer "Infinity" None "x"); reflexivity.
Defined.

(** X4: for a numeric identifier of the tag map (20, 21, 25, 28, 60, 61,
    62, 64, 65, 86), the sub-identifier does not count: whatever it is,
    the tag is the one of the bare number. *)
Theorem createTag_sub_id_ignored (id : jsval) (n : Z)
    (subId : option string) (data : string) :
  tag_id id = Num (Some n) → n ∈ numeric_ids →
  createTag id subId data = createTag (Num (Some n)) None data.
Proof.
  intros Hid Hn.
  rewrite (createTag_tag_id id (Num (Some n)))
    by (by rewrite tag_id_Num).
  unfold numeric_ids in Hn. set_unfold in Hn.
  assert (∃ c, ID c = Num (Some n)) as [c Hc].
  { repeat (destruct Hn as [->|Hn];
            [first [ by exists TagTransactionReferenceNumber
                   | by exists TagRelatedReference
                   | by exists TagAccountIdentification
                   | by exists TagStatementNumber
                   | by exists TagOpeningBalance
                   | by exists TagStatementLine
                   | by exists TagClosingBalance
                   | by exists TagClosingAvailableBalance
                   | by exists TagForwardAvailableBalance
                   | by exists TagTransactionDetails ]|]).
    done. }
  rewrite !(createTag_bare (Num (Some n)) _ data c);
    rewrite ?tag_id_Num; try done.
  - intros c'. unfold composite_key. rewrite tag_id_Num.
    cbn [jsval_toString or_empty].
    repeat (destruct Hn as [->|Hn];
            [destruct c'; cbn [ID]; try discriminate;
             intros [= H]; revert H; vm_compute; discriminate|]).
    done.
  - intros c'. unfold composite_key. rewrite tag_id_Num.
    cbn [jsval_toString].
    repeat (destruct Hn as [->|Hn];
            [destruct c'; cbn [ID]; try discriminate;
             intros [= H]; revert H;
             change (JsString.of_Z ?k) with (ltac:(let v := eval vm_compute in (JsString.of_Z k) in exact v));
             rewrite !append_cons; discriminate|]).
    done.
Qed.

Lemma createTag_sub_id_ignored_witness :
  createTag (Str "60") (Some "F") "C090202EUR1,5"
  = createTag (Num (Some 60%Z)) None "C090202EUR1,5".
Proof.
  apply (createTag_sub_id_ignored (Str "60") 60 (Some "F") "C090202EUR1,5").
  - reflexivity.
  - apply (bool_decide_unpack _). by vm_compute.
Defined.

End Registry.

(** ** More on the amount codec *)

Section AmountMore.
Import BigNumber AmountSpec ExtraSpec.

Lemma negated_finite neg c e :
  negated (Finite neg c e) = normal (negb neg) c e.
Proof.
  unfold negated. rewrite of_Z_minus_1. cbn [multipliedBy].
  by rewrite xorb_true_r, N.mul_1_r, Z.add_0_r.
Qed.

Lemma normal_idem neg neg' c e :
  match normal neg c e with
  | Finite _ c' e' => normal neg' c' e' = Finite neg' c' e'
  | _ => False
  end.
Proof.
  destruct (N.eq_dec c 0%N) as [->|Hc]; [by rewrite normal_zero|].
  destruct (normal_spec neg c e Hc) as (c' & k & -> & _ & _ & Hm).
  by apply normal_canonical.
Qed.

Lemma negated_normal neg c e :
  negated (normal neg c e) = normal (negb neg) c e.
Proof.
  destruct (N.eq_dec c 0%N) as [->|Hc].
  { rewrite !normal_zero. by rewrite negated_finite. }
  destruct (normal_spec neg c e Hc) as (c' & k & Hn & Hk & -> & Hm).
  rewrite Hn, negated_finite.
  rewrite (normal_scale _ c') by done. by rewrite !normal_canonical.
Qed.

Lemma times_100_normal neg c e :
  multipliedBy (normal neg c e) (of_Z 100) = normal neg c (e + 2).
Proof.
  destruct (N.eq_dec c 0%N) as [->|Hc].
  { rewrite !normal_zero. by rewrite times_100. }
  destruct (normal_spec neg c e Hc) as (c' & k & Hn & Hk & -> & Hm).
  rewrite Hn, times_100, normal_scale by done. f_equal. lia.
Qed.

Lemma to_hundredths_normal rm neg c e :
  to_hundredths rm (normal neg c e)
  = normal neg (integer_of rm neg c (e + 2)) (- 2).
Proof.
  unfold to_hundredths.
  by rewrite times_100_normal, integerValue_normal, by_100.
Qed.

(** What the constructor gives: no number, an infinity, or a value in
    normal form. *)
Lemma of_string_normal str :
  of_string str = NaN ∨ (∃ neg, of_string str = Infinity neg)
  ∨ ∃ neg c e, of_string str = normal neg c e.
Proof.
  unfold of_string. destruct (strip_minus str) as [neg s].
  destruct (read_unsigned neg s) as [x|] eqn:E.
  - right. right. unfold read_unsigned in E.
    destruct (JsString.span_digits s) as [ip s2].
    set (parts := match s2 with String "." rest => _ | _ => _ end) in E.
    destruct parts as [[fp s3] dot].
    destruct (_ && _); [discriminate|].
    destruct (JsString.exponent_part s3); [|discriminate].
    injection E as <-. eauto.
  - destruct (String.eqb s "Infinity"); eauto.
Qed.

Lemma integer_of_half_up_sign neg neg' c e :
  integer_of ROUND_HALF_UP neg c e = integer_of ROUND_HALF_UP neg' c e.
Proof. reflexivity. Qed.

Lemma round2_negated a :
  isNaN a = false →
  (a = NaN ∨ (∃ neg, a = Infinity neg) ∨ ∃ neg c e, a = normal neg c e) →
  round2 (negated a) = negated (round2 a)
  ∧ negated (negated a) = a.
Proof.
  intros Hn [->|[[neg ->]|(neg & c & e & ->)]]; [discriminate| |].
  - by destruct neg.
  - unfold round2. rewrite !negated_normal, !to_hundredths_normal.
    rewrite negated_normal, negb_involutive. split; [|done].
    by rewrite (integer_of_half_up_sign (negb neg) neg).
Qed.

(** X5: a parsed amount is a number, and a finite one has at most two
    decimal places. *)
Theorem parse_two_places (dcmark amountStr : string) (r : t) :
  BankAmount.parse dcmark amountStr = Ok r →
  isNaN r = false
  ∧ match r with
    | Finite _ _ e => (- 2 <= e)%Z
    | _ => True
    end.
Proof.
  intros H. apply parse_ok_inv in H as (_ & Hn & Hs & ->).
  destruct (signed_sign dcmark _ Hn Hs) as [Hn' _].
  destruct (to_hundredths_sign ROUND_HALF_UP _ Hn') as [Hr _].
  split; [done|]. unfold round2.
  destruct (signed dcmark (magnitude amountStr)) as [|neg|neg c e];
    [done|by destruct neg|].
  rewrite to_hundredths_finite.
  set (h := integer_of _ _ _ _).
  destruct (N.eq_dec h 0%N) as [->|Hh]; [by rewrite normal_zero|].
  destruct (normal_spec neg h (- 2) Hh) as (c' & k & -> & Hk & _). lia.
Qed.

Lemma parse_two_places_witness :
  isNaN (of_string "10.01") = false
  ∧ match of_string "10.01" with
    | Finite _ _ e => (- 2 <= e)%Z
    | _ => True
    end.
Proof.
  apply (parse_two_places "C" "10,005"). reflexivity.
Defined.

(** X6: the leading mark [E] changes nothing, and a reversal of a debit
    is a credit and a reversal of a credit is a debit: the same result
    or the same error, whatever the amount string. *)
Theorem parse_leading_mark (amountStr : string) :
  BankAmount.parse "EC" amountStr = BankAmount.parse "C" amountStr
  ∧ BankAmount.parse "ED" amountStr = BankAmount.parse "D" amountStr
  ∧ BankAmount.parse "RD" amountStr = BankAmount.parse "C" amountStr
  ∧ BankAmount.parse "RC" amountStr = BankAmount.parse "D" amountStr.
Proof.
  rewrite !parse_marker by (apply (bool_decide_unpack _); by vm_compute).
  change (signed "EC" ?a) with a. change (signed "C" ?a) with a.
  change (signed "ED" ?a) with (negated a).
  change (signed "D" ?a) with (negated a).
  change (signed "RD" ?a) with (negated (negated a)).
  change (signed "RC" ?a) with (negated a).
  repeat split.
  destruct (isNaN (magnitude amountStr)) eqn:Hn; [done|].
  destruct (isNegative _); [done|].
  by rewrite (proj2 (round2_negated _ Hn (of_string_normal _))).
Qed.

(** X7: a debit is the credit of the same amount string with the sign
    changed, and the two have the same errors: rounding is the same on
    both sides of zero. *)
Theorem parse_debit_credit (amountStr : string) :
  BankAmount.parse "D" amountStr
  = match BankAmount.parse "C" amountStr with
    | Ok r => Ok (negated r)
    | Throw msg => Throw msg
    end.
Proof.
  rewrite !parse_marker by (apply (bool_decide_unpack _); by vm_compute).
  change (signed "C" ?a) with a. change (signed "D" ?a) with (negated a).
  destruct (isNaN (magnitude amountStr)) eqn:Hn; [done|].
  destruct (isNegative _); [done|].
  by rewrite (proj1 (round2_negated _ Hn (of_string_normal _))).
Qed.

Lemma digit_not_special c :
  JsString.is_digit c = true →
  Ascii.eqb c "," = false ∧ c ≠ "-"%char ∧ c ≠ "."%char
  ∧ Ascii.eqb c "e" = false ∧ Ascii.eqb c "E" = false.
Proof.
  intros H. apply digit_inv in H. cbn in H. set_unfold in H.
  by repeat (destruct H as [->|H]; [done|]).
Qed.

(** The digits at the start of a string of digits and commas. *)
Lemma span_digits_amount : ∀ s,
  amount_chars s = true →
  ∃ ip s2,
    JsString.span_digits s = (ip, s2) ∧ s = ip ++ s2
    ∧ JsString.all_digits ip = true
    ∧ (s2 = "" ∨ ∃ r, s2 = String "," r ∧ amount_chars r = true)
    ∧ has_digit s = (negb (String.eqb ip "") || has_digit s2)
    ∧ count_commas s = count_commas s2
    ∧ JsString.replace_first "," "." s
      = ip ++ JsString.replace_first "," "." s2
    ∧ ∀ rest, match rest with
              | String c _ => JsString.is_digit c = false
              | EmptyString => True
              end →
              JsString.span_digits (ip ++ rest) = (ip, rest).
Proof.
  induction s as [|c s IH]; intros H.
  - exists "", "". repeat split; try done; [by left|].
    intros rest Hr. change ("" ++ rest) with rest.
    destruct rest as [|c r]; [done|]. cbn [JsString.span_digits].
    by rewrite Hr.
  - cbn [amount_chars] in H. apply andb_true_iff in H as [Hc Hs].
    destruct (JsString.is_digit c) eqn:Hd.
    + destruct (IH Hs) as (ip & s2 & E & -> & Ha & H2 & Hh & Hcc & Hr & Hsp).
      destruct (digit_not_special c Hd) as (Hcomma & _).
      exists (String c ip), s2. cbn [JsString.span_digits].
      rewrite Hd, E.
      split; [done|]. split; [done|].
      split; [cbn [JsString.all_digits]; by rewrite Hd|].
      split; [done|].
      split; [cbn [has_digit String.eqb negb orb]; by rewrite Hd|].
      split; [cbn [count_commas]; by rewrite Hcomma, Hcc|].
      split.
      * cbn [JsString.replace_first]. rewrite Hcomma, Hr.
        by rewrite append_cons.
      * intros rest Hrest. rewrite append_cons. cbn [JsString.span_digits].
        by rewrite Hd, (Hsp rest Hrest).
    + cbn [orb] in Hc. apply Ascii.eqb_eq in Hc as ->.
      exists "", (String "," s). cbn [JsString.span_digits].
      rewrite Hd.
      repeat split; try done; [right; by exists s|].
      intros rest Hr. change ("" ++ rest) with rest.
      destruct rest as [|c r]; [done|]. cbn [JsString.span_digits].
      by rewrite Hr.
Qed.

Lemma strip_minus_other c r :
  c ≠ "-"%char → strip_minus (String c r) = (false, String c r).
Proof. intros H. by destruct c as [[] [] [] [] [] [] [] []]. Qed.

Lemma not_infinity c r :
  Ascii.eqb c "I" = false → String.eqb (String c r) "Infinity" = false.
Proof. intros H. cbn [String.eqb]. by rewrite H. Qed.

Lemma digit_not_I c : JsString.is_digit c = true → Ascii.eqb c "I" = false.
Proof.
  intros H. apply digit_inv in H. cbn in H. set_unfold in H.
  by repeat (destruct H as [->|H]; [done|]).
Qed.

(** The constructor on digits, a point and what follows: the string
    that [parse] makes of digits, a comma and what follows. *)
Lemma of_string_point ip r :
  JsString.all_digits ip = true → amount_chars r = true →
  (∀ rest, match rest with
           | String c _ => JsString.is_digit c = false
           | EmptyString => True
           end → JsString.span_digits (ip ++ rest) = (ip, rest)) →
  isNegative (of_string (ip ++ String "." r)) = false
  ∧ isNaN (of_string (ip ++ String "." r))
    = negb ((negb (String.eqb ip "") || has_digit r)
            && (count_commas r =? 0)%nat).
Proof.
  intros Ha Hr Hsp.
  destruct (span_digits_amount r Hr)
    as (fp & s3 & E & -> & Hfa & H3 & Hh & Hcc & _ & _).
  assert (of_string (ip ++ String "." (fp ++ s3))
          = match read_unsigned false (ip ++ String "." (fp ++ s3)) with
            | Some x => x
            | None => NaN
            end) as ->.
  { unfold of_string. destruct ip as [|c ip'].
    - change ("" ++ ?x) with x. cbn [strip_minus].
      destruct (read_unsigned _ _); [done|]. by rewrite not_infinity.
    - rewrite append_cons. cbn [JsString.all_digits] in Ha.
      apply andb_true_iff in Ha as [Hc _].
      destruct (digit_not_special c Hc) as (_ & Hm & _).
      rewrite strip_minus_other by done.
      destruct (read_unsigned _ _); [done|].
      by rewrite not_infinity by (by apply digit_not_I). }
  unfold read_unsigned. rewrite (Hsp (String "." (fp ++ s3))) by done.
  rewrite E, Hh, Hcc.
  destruct H3 as [->|(r3 & -> & _)].
  - cbn [JsString.exponent_part has_digit count_commas orb].
    destruct (String.eqb ip ""), (String.eqb fp ""); cbn; try done;
      match goal with
      | |- context [normal ?n ?c ?e] =>
          by destruct (normal_finite n c e) as (c' & e' & ->)
      end.
  - cbn [count_commas Ascii.eqb Bool.eqb Nat.add Nat.eqb].
    rewrite andb_false_r. cbn [negb].
    by destruct (String.eqb ip "" && _).
Qed.

Lemma of_string_only_digits ip :
  JsString.all_digits ip = true →
  (∀ rest, match rest with
           | String c _ => JsString.is_digit c = false
           | EmptyString => True
           end → JsString.span_digits (ip ++ rest) = (ip, rest)) →
  isNegative (of_string ip) = false
  ∧ isNaN (of_string ip) = String.eqb ip "".
Proof.
  intros Ha Hsp. destruct ip as [|c ip']; [done|].
  cbn [JsString.all_digits] in Ha. apply andb_true_iff in Ha as [Hc _].
  destruct (digit_not_special c Hc) as (_ & Hm & _).
  unfold of_string. rewrite strip_minus_other by done.
  unfold read_unsigned.
  pose proof (Hsp "" I) as E. rewrite append_nil_r in E. rewrite E.
  cbn [String.eqb andb JsString.exponent_part].
  match goal with
  | |- context [normal ?n ?c ?e] =>
      by destruct (normal_finite n c e) as (c' & e' & ->)
  end.
Qed.

(** What [parse] reads from a string of digits and commas: a number
    that is not negative when the string is well formed, and no number
    otherwise. *)
Lemma magnitude_amount s :
  amount_chars s = true →
  isNegative (magnitude s) = false
  ∧ isNaN (magnitude s) = negb (well_formed_amount s).
Proof.
  intros H. unfold magnitude, well_formed_amount.
  destruct (span_digits_amount s H)
    as (ip & s2 & _ & -> & Ha & H2 & -> & -> & -> & Hsp).
  destruct H2 as [->|(r & -> & Hr)].
  - cbn [JsString.replace_first has_digit count_commas Nat.leb].
    rewrite append_nil_r, orb_false_r, andb_true_r, negb_involutive.
    by apply of_string_only_digits.
  - cbn [JsString.replace_first Ascii.eqb Bool.eqb has_digit count_commas].
    change (JsString.is_digit ",") with false. cbn [orb Nat.add].
    destruct (of_string_point ip r Ha Hr Hsp) as [Hn ->].
    split; [done|]. by destruct (count_commas r).
Qed.

(** X8: with one of the six markers and an amount string of digits and
    commas, as the tag grammars give it, [parse] gives the rounded
    amount when the string has a digit and at most one comma, and the
    error "Amount cannot be parsed" otherwise; it never takes such a
    string for a negative amount. *)
Theorem parse_amount_chars (dcmark amountStr : string) :
  dcmark ∈ markers → amount_chars amountStr = true →
  BankAmount.parse dcmark amountStr
  = if well_formed_amount amountStr
    then Ok (round2 (signed dcmark (magnitude amountStr)))
    else Throw ("Amount cannot be parsed: " ++ amountStr).
Proof.
  intros Hm Hs. rewrite parse_marker by done.
  destruct (magnitude_amount _ Hs) as [-> ->].
  by destruct (well_formed_amount amountStr).
Qed.

Lemma parse_amount_chars_witness :
  BankAmount.parse "D" "1,2,3" = Throw "Amount cannot be parsed: 1,2,3"
  ∧ BankAmount.parse "C" "," = Throw "Amount cannot be parsed: ,"
  ∧ BankAmount.parse "C" ",5"
    = Ok (round2 (signed "C" (magnitude ",5"))).
Proof.
  split; [|split].
  - apply (parse_amount_chars "D" "1,2,3");
      [apply (bool_decide_unpack _); by vm_compute|reflexivity].
  - apply (parse_amount_chars "C" ",");
      [apply (bool_decide_unpack _); by vm_compute|reflexivity].
  - apply (parse_amount_chars "C" ",5");
      [apply (bool_decide_unpack _); by vm_compute|reflexivity].
Defined.

End AmountMore.

(** ** Repetitions of a character class *)

Section ClassRepetition.
Import Regex RegexSpec ExtraSpec.
Local Open Scope nat_scope.

Lemma take_app_length pre : ∀ rest,
  take (String.length pre) (pre ++ rest) = pre.
Proof.
  induction pre as [|c pre IH]; intros rest.
  - by destruct rest.
  - rewrite append_cons. cbn [String.length take]. by rewrite IH.
Qed.

Lemma length_append (s : string) : ∀ t,
  String.length (s ++ t) = String.length s + String.length t.
Proof.
  induction s as [|c s IH]; intros t; [done|].
  rewrite append_cons. cbn [String.length]. by rewrite IH.
Qed.

(** What a greedy repetition of a class has matched when it gets to its
    continuation. *)
Lemma repeat_chr_inv p k z : ∀ fuel lo hi i s cs,
  lo ≤ fuel → (∀ h, hi = Some h → lo ≤ h) →
  repeat (m (Chr p)) [] true fuel lo hi i s cs k = Some z →
  ∃ pre rest, s = pre ++ rest ∧ all_of_class p pre = true
              ∧ lo ≤ String.length pre
              ∧ (∀ h, hi = Some h → String.length pre ≤ h)
              ∧ k (i + String.length pre) rest cs = Some z.
Proof.
  assert (Hnil : ∀ lo hi i s cs,
            lo = 0 → k i s cs = Some z →
            ∃ pre rest, s = pre ++ rest ∧ all_of_class p pre = true
                        ∧ lo ≤ String.length pre
                        ∧ (∀ h, hi = Some h → String.length pre ≤ h)
                        ∧ k (i + String.length pre) rest cs = Some z).
  { intros lo hi i s cs -> Hk. exists "", s. cbn [String.length].
    rewrite Nat.add_0_r. repeat split; try done. intros; lia. }
  induction fuel as [|fuel IH]; intros lo hi i s cs Hlo Hhi H.
  - apply Hnil; [lia|done].
  - cbn [repeat] in H. case_bool_decide as Hh0.
    { apply Hnil; [|done]. specialize (Hhi 0 Hh0). lia. }
    assert (Hit : m (Chr p) i s (clear [] cs)
                    (λ i' s' cs',
                       if (lo =? 0) && (i' =? i) then None
                       else repeat (m (Chr p)) [] true fuel (Nat.pred lo)
                                   (dec_hi hi) i' s' cs' k) = Some z →
                  ∃ pre rest, s = pre ++ rest ∧ all_of_class p pre = true
                    ∧ lo ≤ String.length pre
                    ∧ (∀ h, hi = Some h → String.length pre ≤ h)
                    ∧ k (i + String.length pre) rest cs = Some z).
    { clear H. intros H. destruct s as [|c s]; [discriminate|].
      rewrite m_Chr in H. destruct (p c) eqn:Hp; [|discriminate].
      assert ((S i =? i) = false) as E by (apply Nat.eqb_neq; lia).
      rewrite E, andb_false_r in H. cbn [clear foldr] in H.
      apply IH in H as (pre & rest & -> & Ha & Hl & Hu & Hk).
      - exists (String c pre), rest. rewrite append_cons.
        split; [done|]. split; [unfold all_of_class; cbn; by rewrite Hp|].
        cbn [String.length]. split; [lia|]. split.
        + intros h ->. specialize (Hu (Nat.pred h) eq_refl).
          assert (h ≠ 0) by congruence. lia.
        + by rewrite Nat.add_succ_r.
      - lia.
      - intros h Hh. destruct hi as [h'|]; [|done]. cbn in Hh.
        injection Hh as <-. specialize (Hhi h' eq_refl). lia. }
    destruct (lo =? 0) eqn:El; cbn [negb] in H; [|by apply Hit].
    apply Nat.eqb_eq in El.
    match type of H with
    | match ?it with _ => _ end = _ => destruct it as [z'|] eqn:E
    end.
    + injection H as ->. apply Hit. by rewrite <- E, El.
    + by apply Hnil.
Qed.

(** A group of a greedy repetition of a class. *)
Lemma class_group_inv g lo hi p i s cs k z :
  lo ≤ hi →
  m (Grp g (Rep lo (Some hi) true (Chr p))) i s cs k = Some z →
  ∃ pre rest, s = pre ++ rest ∧ class_string p lo hi pre
              ∧ k (i + String.length pre) rest (<[g := pre]> cs) = Some z.
Proof.
  intros Hle. rewrite m_Grp, m_Rep. intros H.
  apply repeat_chr_inv in H as (pre & rest & -> & Ha & Hl & Hu & Hk);
    [|lia|by intros h [= <-]].
  exists pre, rest. split; [done|]. split.
  - split; [done|]. split; [done|]. by apply Hu.
  - replace (i + String.length pre - i) with (String.length pre) in Hk
      by lia.
    by rewrite take_app_length in Hk.
Qed.

End ClassRepetition.

(** ** Strings of digits as numbers *)

Section DigitStrings.
Import Regex RegexSpec ExtraSpec.

Lemma all_of_class_digit ds :
  all_of_class digit ds = JsString.all_digits ds.
Proof.
  unfold all_of_class. induction ds as [|c ds IH]; [done|].
  cbn. by rewrite IH.
Qed.

Lemma all_of_class_cons p c s :
  all_of_class p (String c s) = p c && all_of_class p s.
Proof. reflexivity. Qed.

Lemma digit_value_range c :
  JsString.is_digit c = true → (0 <= JsString.digit_value c <= 9)%Z.
Proof.
  intros H. apply digit_inv in H. cbn in H. set_unfold in H.
  by repeat (destruct H as [->|H]; [done|]).
Qed.

Lemma digits_value_acc_split ds : ∀ acc,
  JsString.all_digits ds = true →
  (JsString.digits_value_acc acc ds
   = acc * 10 ^ Z.of_nat (String.length ds) + JsString.digits_value ds
   ∧ 0 <= JsString.digits_value ds < 10 ^ Z.of_nat (String.length ds))%Z.
Proof.
  unfold JsString.digits_value.
  induction ds as [|c ds IH]; intros acc H.
  - cbn. lia.
  - cbn [JsString.all_digits] in H. apply andb_true_iff in H as [Hc Hs].
    cbn [JsString.digits_value_acc String.length].
    rewrite Nat2Z.inj_succ, Z.pow_succ_r by lia.
    destruct (IH (10 * acc + JsString.digit_value c)%Z Hs) as [-> _].
    destruct (IH (10 * 0 + JsString.digit_value c)%Z Hs) as [-> Hb].
    pose proof (digit_value_range c Hc).
    split; nia.
Qed.

Lemma span_digits_all ds :
  JsString.all_digits ds = true → JsString.span_digits ds = (ds, "").
Proof.
  induction ds as [|c ds IH]; [done|]. cbn.
  intros [-> H]%andb_true_iff. by rewrite IH.
Qed.

(** The constructor on a string of digits: the integer of that value. *)
Lemma of_string_digits ds :
  JsString.all_digits ds = true → ds ≠ "" →
  BigNumber.of_string ds = BigNumber.of_Z (JsString.digits_value ds).
Proof.
  intros Ha Hne. destruct ds as [|c ds']; [done|].
  pose proof Ha as Ha'. cbn [JsString.all_digits] in Ha'.
  apply andb_true_iff in Ha' as [Hc _].
  destruct (digit_not_special c Hc) as (_ & Hm & _).
  unfold BigNumber.of_string. rewrite strip_minus_other by done.
  unfold BigNumber.read_unsigned. rewrite (span_digits_all _ Ha).
  cbn [String.eqb andb JsString.exponent_part String.length].
  rewrite append_nil_r, Z.sub_0_r. unfold BigNumber.of_Z.
  destruct (digits_value_acc_split _ 0%Z Ha) as [_ Hb].
  assert ((JsString.digits_value (String c ds') <? 0)%Z = false) as ->
    by (apply Z.ltb_ge; lia).
  f_equal. lia.
Qed.

End DigitStrings.

(** ** What a pattern accepts *)

Section Acceptance.
Import Regex RegexSpec ExtraSpec.
Local Open Scope nat_scope.

(** A greedy repetition of a class gets to its continuation after any
    admissible number of characters of the class, unless it has given a
    result before. *)
Lemma repeat_chr_complete p k : ∀ pre fuel lo hi i rest cs,
  all_of_class p pre = true → lo ≤ String.length pre →
  (∀ h, hi = Some h → String.length pre ≤ h) →
  String.length pre ≤ fuel →
  is_Some (k (i + String.length pre) rest cs) →
  is_Some (repeat (m (Chr p)) [] true fuel lo hi i (pre ++ rest) cs k).
Proof.
  induction pre as [|c pre IH]; intros fuel lo hi i rest cs Ha Hlo Hhi Hf Hk.
  - cbn [String.length] in *. rewrite Nat.add_0_r in Hk.
    change ("" ++ rest) with rest.
    assert (lo = 0) as -> by lia.
    destruct fuel as [|fuel]; [done|]. cbn [repeat].
    case_bool_decide; [done|]. cbn [Nat.eqb negb].
    by destruct (m (Chr p) i rest _ _).
  - rewrite append_cons. cbn [String.length] in *.
    destruct fuel as [|fuel]; [lia|]. cbn [repeat].
    rewrite bool_decide_eq_false_2
      by (intros ->; specialize (Hhi 0 eq_refl); lia).
    rewrite m_Chr. rewrite all_of_class_cons in Ha.
    apply andb_true_iff in Ha as [Hc Ha]. rewrite Hc.
    rewrite (proj2 (Nat.eqb_neq (S i) i)) by lia. rewrite andb_false_r.
    cbn [clear foldr].
    assert (is_Some (repeat (m (Chr p)) [] true fuel (Nat.pred lo)
                       (dec_hi hi) (S i) (pre ++ rest) cs k)) as [z Hit].
    { apply IH; [done|lia| |lia|by rewrite Nat.add_succ_l, <- Nat.add_succ_r].
      intros h Hh. destruct hi as [h'|]; [|done]. cbn in Hh.
      injection Hh as <-. specialize (Hhi h' eq_refl). lia. }
    rewrite Hit. by destruct (lo =? 0).
Qed.

Lemma class_group_complete g lo hi p i pre rest cs k :
  class_string p lo hi pre →
  is_Some (k (i + String.length pre) rest (<[g := pre]> cs)) →
  is_Some (m (Grp g (Rep lo (Some hi) true (Chr p))) i (pre ++ rest) cs k).
Proof.
  intros [Ha [Hl Hu]] Hk. rewrite m_Grp, m_Rep.
  apply repeat_chr_complete; [done|done|by intros h [= <-]| |].
  - rewrite length_append. lia.
  - replace (i + String.length pre - i) with (String.length pre) by lia.
    by rewrite take_app_length.
Qed.

(** An optional part, in full: one iteration that consumes input, or
    else none. *)
Lemma opt_eq r i c s cs k :
  m (opt r) i (String c s) cs k
  = match m r i (String c s) (clear (groups r) cs)
            (λ i' s' cs', if i' =? i then None else k i' s' cs') with
    | Some z => Some z
    | None => k i (String c s) cs
    end.
Proof.
  unfold opt. rewrite m_Rep. cbn [String.length Nat.add repeat].
  rewrite bool_decide_eq_false_2 by done.
  cbn [Nat.eqb negb andb Nat.pred dec_hi fmap option_fmap option_map].
  rewrite (m_ext r i (String c s) (clear (groups r) cs) _
             (λ i' s' cs', if i' =? i then None else k i' s' cs'));
    [done|].
  intros i' s' cs' _.
  destruct (i' =? i); [done|]. by rewrite repeat_hi0.
Qed.

Lemma opt_nil r i cs k : m (opt r) i "" cs k = k i "" cs.
Proof. reflexivity. Qed.

(** An expression that is anchored matches at the start or not at
    all. *)
Lemma anchored_none r : ∀ i s cs k,
  anchored r = true → i ≠ 0 → m r i s cs k = None.
Proof.
  induction r as [|p| | |r1 IH1 r2 IH2|r1 IH1 r2 IH2|lo hi greedy r1 IH1
                  |g r1 IH1|r1 IH1]; intros i s cs k Hr Hi;
    try discriminate Hr.
  - rewrite m_Bol. by rewrite (proj2 (Nat.eqb_neq i 0)).
  - rewrite m_Seq. by apply IH1.
  - rewrite m_Grp. by apply IH1.
Qed.

Lemma exec_anchored r data :
  anchored r = true → exec r data = match_at r 0 data.
Proof.
  intros Hr. unfold exec. rewrite search_eq.
  destruct (match_at _ 0 data) as [mr|] eqn:E; [done|].
  destruct data as [|c rest]; [done|].
  destruct (search _ 1 rest) as [mr|] eqn:F; [|done].
  apply search_match_at in F as (j & sj & (n & -> & _) & F).
  unfold match_at in F. by rewrite anchored_none in F.
Qed.

End Acceptance.

(** ** The longest run of a class *)

Section Greedy.
Import Regex RegexSpec ExtraSpec.
Local Open Scope nat_scope.

Lemma skip_app_length pre : ∀ rest,
  skip (String.length pre) (pre ++ rest) = rest.
Proof.
  induction pre as [|c pre IH]; intros rest; [done|].
  rewrite append_cons. cbn [String.length skip]. apply IH.
Qed.

Lemma take_skip : ∀ n s, s = take n s ++ skip n s.
Proof.
  induction n as [|n IH]; intros [|c s]; cbn [take skip]; try done.
  rewrite append_cons. by rewrite <- IH.
Qed.

Lemma take_length : ∀ n s, String.length (take n s) ≤ n.
Proof.
  induction n as [|n IH]; intros [|c s]; cbn [take String.length];
    try lia.
  specialize (IH s). lia.
Qed.

Lemma prefix_while_skip p : ∀ s hi,
  s = prefix_while p hi s ++ skip (String.length (prefix_while p hi s)) s.
Proof.
  induction s as [|c s IH]; intros hi; cbn [prefix_while]; [done|].
  case_bool_decide; [done|]. destruct (p c); [|done].
  rewrite append_cons. cbn [String.length skip]. by rewrite <- IH.
Qed.

Lemma prefix_while_length p : ∀ s h,
  String.length (prefix_while p (Some h) s) ≤ h.
Proof.
  induction s as [|c s IH]; intros h; cbn [prefix_while String.length];
    [lia|].
  case_bool_decide as Hh; [cbn; lia|]. destruct (p c); [|cbn; lia].
  cbn [String.length dec_hi fmap option_fmap option_map].
  specialize (IH (Nat.pred h)). assert (h ≠ 0) by congruence. lia.
Qed.

Lemma all_of_class_app p (s t : string) :
  all_of_class p (s ++ t) = all_of_class p s && all_of_class p t.
Proof.
  unfold all_of_class. induction s as [|c s IH]; [done|].
  rewrite append_cons. cbn [list_ascii_of_string forallb].
  by rewrite IH, andb_assoc.
Qed.

Lemma prefix_while_all_class p : ∀ s hi,
  all_of_class p (prefix_while p hi s) = true.
Proof.
  unfold all_of_class.
  induction s as [|c s IH]; intros hi; cbn [prefix_while]; [done|].
  case_bool_decide; [done|]. destruct (p c) eqn:Hp; [|done].
  cbn [list_ascii_of_string forallb]. by rewrite Hp, IH.
Qed.

(** The longest run is the run that is followed by no character of the
    class, or that has the greatest length. *)
Lemma prefix_while_stop p : ∀ pre h rest,
  all_of_class p pre = true → String.length pre ≤ h →
  (String.length pre = h ∨ ∀ c r, rest = String c r → p c = false) →
  prefix_while p (Some h) (pre ++ rest) = pre.
Proof.
  induction pre as [|c pre IH]; intros h rest Ha Hl Hr.
  - change ("" ++ rest) with rest. destruct rest as [|c r]; [done|].
    cbn [prefix_while]. case_bool_decide; [done|].
    destruct Hr as [Hr|Hr]; [cbn in Hr; congruence|].
    by rewrite (Hr c r).
  - rewrite append_cons. cbn [prefix_while]. cbn [String.length] in *.
    rewrite bool_decide_eq_false_2 by (intros [= ->]; lia).
    rewrite all_of_class_cons in Ha. apply andb_true_iff in Ha as [-> Ha].
    cbn [dec_hi fmap option_fmap option_map].
    rewrite IH; [done|done|lia|]. destruct Hr as [Hr|Hr]; [left; lia|by right].
Qed.

(** The run ends where no character of the class follows, unless it has
    the greatest length. *)
Lemma prefix_while_max p : ∀ s h c r,
  skip (String.length (prefix_while p (Some h) s)) s = String c r →
  String.length (prefix_while p (Some h) s) < h → p c = false.
Proof.
  induction s as [|a s IH]; intros h c r; cbn [prefix_while]; [done|].
  case_bool_decide as Hh; [cbn [String.length]; intros _ ?; simplify_eq; lia|].
  destruct (p a) eqn:Hp.
  - cbn [String.length skip dec_hi fmap option_fmap option_map].
    intros Hs Hl. apply (IH (Nat.pred h) c r Hs). lia.
  - cbn [String.length skip]. intros [= -> ->] _. done.
Qed.

(** A greedy repetition of a class takes the longest run of the class,
    when the continuation accepts whatever is left from there on; there
    is no match when the run is too short. *)
Lemma repeat_chr_greedy_lo p k i0 :
  (∀ i s cs, i0 ≤ i → is_Some (k i s cs)) →
  ∀ fuel lo hi i s cs,
    i0 ≤ i → lo + String.length s ≤ fuel →
    (∀ h, hi = Some h → lo ≤ h) →
    repeat (m (Chr p)) [] true fuel lo hi i s cs k
    = if lo <=? String.length (prefix_while p hi s)
      then k (i + String.length (prefix_while p hi s))
             (skip (String.length (prefix_while p hi s)) s) cs
      else None.
Proof.
  intros Hk. induction fuel as [|fuel IH]; intros lo hi i s cs Hi Hf Hh.
  - destruct s; [|cbn in Hf; lia]. assert (lo = 0) as -> by lia.
    cbn. by rewrite Nat.add_0_r.
  - cbn [repeat]. case_bool_decide as H0.
    { assert (lo = 0) as -> by (specialize (Hh 0 H0); lia).
      assert (prefix_while p hi s = "") as ->
        by (destruct s; cbn [prefix_while]; [done|];
            by rewrite bool_decide_eq_true_2).
      cbn. by rewrite Nat.add_0_r. }
    destruct s as [|c r].
    + cbn. rewrite Nat.add_0_r. by destruct lo.
    + cbn [prefix_while]. rewrite bool_decide_eq_false_2 by done.
      rewrite m_Chr. destruct (p c) eqn:Hp.
      * rewrite (proj2 (Nat.eqb_neq (S i) i)) by lia. rewrite andb_false_r.
        cbn [clear foldr].
        rewrite IH;
          [|lia|cbn [String.length] in Hf; lia|].
        2:{ intros h Hd. destruct hi as [h'|]; [|done]. cbn in Hd.
            injection Hd as <-. specialize (Hh h' eq_refl).
            assert (h' ≠ 0) by congruence. lia. }
        cbn [String.length skip]. rewrite Nat.add_succ_r.
        change (S i + ?n) with (S (i + n)).
        destruct lo as [|lo]; cbn [Nat.eqb negb Nat.pred Nat.leb].
        -- by destruct (Hk (S (i + String.length
                                     (prefix_while p (dec_hi hi) r)))
                          (skip (String.length
                                   (prefix_while p (dec_hi hi) r)) r)
                          cs ltac:(lia)) as [z ->].
        -- done.
      * cbn. rewrite Nat.add_0_r. by destruct lo.
Qed.

Lemma class_group_greedy g lo hi p i s cs k :
  lo ≤ hi → (∀ i' s' cs', i ≤ i' → is_Some (k i' s' cs')) →
  m (Grp g (Rep lo (Some hi) true (Chr p))) i s cs k
  = if lo <=? String.length (prefix_while p (Some hi) s)
    then k (i + String.length (prefix_while p (Some hi) s))
           (skip (String.length (prefix_while p (Some hi) s)) s)
           (<[g := prefix_while p (Some hi) s]> cs)
    else None.
Proof.
  intros Hle Hk. rewrite m_Grp, m_Rep. cbn [groups].
  rewrite (repeat_chr_greedy_lo p _ i);
    [|by intros; apply Hk|lia|lia|by intros h [= <-]].
  destruct (lo <=? _); [|done].
  replace (i + String.length (prefix_while p (Some hi) s) - i)
    with (String.length (prefix_while p (Some hi) s)) by lia.
  by rewrite take_prefix_while.
Qed.

Lemma upper_not_digit c : upper c = true → digit c = false.
Proof. by destruct c as [[] [] [] [] [] [] [] []]. Qed.

Lemma eqb_empty (s : string) : String.eqb s "" = false ↔ s ≠ "".
Proof. by destruct s. Qed.

Lemma not_empty_length (s : string) : s ≠ "" ↔ 1 ≤ String.length s.
Proof. destruct s; cbn; split; (done || lia). Qed.

End Greedy.

(** ** Tags with an integer amount *)

Section IntegerAmounts.
Import Regex RegexSpec TagFactory TagSpec ExtraSpec.
Local Open Scope nat_scope.

(** The captures of a match, read group by group. *)
Ltac captured :=
  cbn [clear groups foldr app];
  repeat (rewrite lookup_insert_eq
          || (rewrite lookup_insert_ne by done)
          || (rewrite lookup_delete_ne by done)
          || rewrite lookup_delete_eq
          || rewrite lookup_empty).

(** The amount of a group of one to fifteen digits. *)
Lemma big_number_digits ds :
  class_string digit 1 15 ds →
  big_number (Some ds) = BigNumber.of_Z (JsString.digits_value ds)
  ∧ (0 <= JsString.digits_value ds < 10 ^ 15)%Z.
Proof.
  intros [Ha [Hl Hu]]. rewrite all_of_class_digit in Ha.
  cbn [big_number]. split.
  - apply of_string_digits; [done|]. destruct ds; [cbn in Hl; lia|done].
  - destruct (digits_value_acc_split ds 0%Z Ha) as [_ [H0 Hb]].
    split; [done|]. eapply Z.lt_le_trans; [exact Hb|].
    apply Z.pow_le_mono_r; lia.
Qed.

Lemma run_of_digits h s :
  prefix_while digit (Some h) s ≠ "" →
  class_string digit 1 h (prefix_while digit (Some h) s).
Proof.
  intros Hne. split; [apply prefix_while_all_class|].
  split; [by apply not_empty_length|apply prefix_while_length].
Qed.

(** The reading of the data whose parts are given. *)
Lemma entries_read_parts number currency tail :
  class_string digit 1 5 number → class_string upper 3 3 currency →
  prefix_while digit (Some 15) tail ≠ "" →
  entries_read (number ++ currency ++ tail)
  = Some (number, currency, prefix_while digit (Some 15) tail).
Proof.
  intros [Hn [Hn1 Hn5]] [Hc [Hc3 Hc3']] Hds. unfold entries_read.
  cbv zeta.
  assert (String.length currency = 3) as Hlen by lia.
  rewrite prefix_while_stop; [|done|done|].
  2:{ right. intros c r Hr. destruct currency as [|c' cur]; [done|].
      rewrite append_cons in Hr. injection Hr as <- _.
      rewrite all_of_class_cons in Hc.
      apply andb_true_iff in Hc as [Hc _]. by apply upper_not_digit. }
  rewrite skip_app_length.
  assert (take 3 (currency ++ tail) = currency) as ->
    by (rewrite <- Hlen; apply take_app_length).
  assert (skip 3 (currency ++ tail) = tail) as ->
    by (rewrite <- Hlen; apply skip_app_length).
  rewrite Hc, Hlen.
  rewrite (proj2 (eqb_empty number))
    by (apply not_empty_length; lia).
  by rewrite (proj2 (eqb_empty _) Hds).
Qed.

(** What is read has the parts of the tag. *)
Lemma entries_read_shape data number currency ds :
  entries_read data = Some (number, currency, ds) →
  ∃ rest, entries_shape data number currency ds rest
          ∧ prefix_while digit (Some 15) (ds ++ rest) = ds.
Proof.
  unfold entries_read. cbv zeta.
  pose proof (prefix_while_skip digit data (Some 5)) as H1.
  set (n0 := prefix_while digit (Some 5) data) in *.
  set (r1 := skip (String.length n0) data) in *.
  pose proof (take_skip 3 r1) as H2.
  pose proof (take_length 3 r1) as Hl.
  set (c0 := take 3 r1) in *. set (r2 := skip 3 r1) in *.
  pose proof (prefix_while_skip digit r2 (Some 15)) as H3.
  pose proof (run_of_digits 5 data) as Hr1.
  pose proof (run_of_digits 15 r2) as Hr2.
  fold n0 in Hr1.
  remember (prefix_while digit (Some 15) r2) as d0 eqn:Hd in *.
  set (r3 := skip (String.length d0) r2) in *.
  clearbody n0 r1 c0 r2 r3. intros H.
  match type of H with
  | (if ?b then _ else _) = _ => destruct b eqn:Hb; [|discriminate]
  end.
  apply andb_true_iff in Hb as [Hb Hds].
  apply andb_true_iff in Hb as [Hb Hlen].
  apply andb_true_iff in Hb as [Hn Hc].
  apply negb_true_iff, eqb_empty in Hn, Hds.
  apply Nat.eqb_eq in Hlen. injection H as <- <- <-.
  exists r3. split; [split; [|split; [|split]]|].
  - by rewrite <- H3, <- H2.
  - by apply Hr1.
  - split; [done|lia].
  - by apply Hr2.
  - by rewrite <- H3.
Qed.

(** A match of the pattern gives what is read. *)
Lemma entries_match data mr :
  match_at PATTERN_NumberAndSumOfEntries 0 data = Some mr →
  ∃ number currency ds,
    entries_read data = Some (number, currency, ds)
    ∧ group mr !! 1 = Some number ∧ group mr !! 2 = Some currency
    ∧ group mr !! 3 = Some ds.
Proof.
  unfold match_at.
  destruct (m _ 0 data ∅ _) as [[[i' s'] cs']|] eqn:F; [|discriminate].
  intros [= <-]. cbn [group].
  unfold PATTERN_NumberAndSumOfEntries in F.
  rewrite !m_Seq, m_Bol in F. cbn [Nat.eqb] in F.
  apply class_group_inv in F as (number & s1 & -> & Hn & F); [|lia].
  apply class_group_inv in F as (currency & tail & -> & Hcur & F); [|lia].
  unfold upto in F. rewrite class_group_greedy in F by (lia || done).
  destruct (1 <=? _) eqn:Hl; [|discriminate]. apply Nat.leb_le in Hl.
  injection F as <- <- <-.
  exists number, currency, (prefix_while digit (Some 15) tail).
  split; [apply entries_read_parts; try done; by apply not_empty_length|].
  by captured.
Qed.

(** Data with the parts of the tag are matched. *)
Lemma entries_shape_match data number currency ds rest :
  entries_shape data number currency ds rest →
  is_Some (match_at PATTERN_NumberAndSumOfEntries 0 data).
Proof.
  intros (-> & Hn & Hcur & Hds). unfold match_at.
  match goal with
  | |- is_Some (match ?x with _ => _ end) =>
      assert (is_Some x) as [[[? ?] ?] ->]; [|done]
  end.
  unfold PATTERN_NumberAndSumOfEntries.
  rewrite !m_Seq, m_Bol. cbn [Nat.eqb].
  apply class_group_complete; [done|]. cbn beta.
  apply class_group_complete; [done|]. cbn beta.
  by apply class_group_complete.
Qed.

(** X9: the construction of a tag 90D or 90C reads the longest run of
    digits at the start of the data, of at most five, the three capital
    letters after it and the longest run of digits after them, of at
    most fifteen; the fields are these digits, the letters and the
    integer of the last run, below [10^15].  It succeeds exactly when
    the data start with one to five digits, three capital letters and a
    digit, and gives the error of a mismatch otherwise. *)
Theorem entries_tag (c : tag_class) (data : string) :
  c ∈ [TagNumberAndSumOfEntriesD; TagNumberAndSumOfEntriesC] →
  Tag_new c data
  = Some (match entries_read data with
          | Some (number, currency, ds) =>
              Ok (MkTag (ID c) data
                    (entries_fields number currency
                       (JsString.digits_value ds)) None 0)
          | None =>
              Throw ("Cannot parse tag " ++ jsval_toString (ID c)
                     ++ ": " ++ data)
          end)
  ∧ (is_Some (entries_read data)
     ↔ ∃ number currency ds rest,
         entries_shape data number currency ds rest)
  ∧ ∀ number currency ds,
      entries_read data = Some (number, currency, ds) →
      (∃ rest, entries_shape data number currency ds rest
               ∧ prefix_while digit (Some 15) (ds ++ rest) = ds)
      ∧ (0 <= JsString.digits_value ds < 10 ^ 15)%Z.
Proof.
  intros Hc.
  assert (global c = false ∧ PATTERN c = PATTERN_NumberAndSumOfEntries
          ∧ ∀ mr li, _extractFields c data mr li
                     = Some (x ← extractFields_NumberAndSumOfEntries mr;
                             Ok (x, None, li)))
    as (Hg & Hp & Hf)
    by (set_unfold in Hc; by destruct Hc as [->|[->|[]]]).
  assert (Hsh : ∀ number currency ds,
            entries_read data = Some (number, currency, ds) →
            (∃ rest, entries_shape data number currency ds rest
                     ∧ prefix_while digit (Some 15) (ds ++ rest) = ds)
            ∧ (0 <= JsString.digits_value ds < 10 ^ 15)%Z).
  { intros number currency ds H.
    destruct (entries_read_shape _ _ _ _ H) as (rest & Hs & Hm).
    split; [by exists rest|].
    destruct Hs as (_ & _ & _ & Hds). by apply big_number_digits. }
  split; [|split; [split|exact Hsh]].
  - rewrite Tag_new_eq, Hp by done.
    rewrite exec_anchored by done.
    destruct (match_at _ 0 data) as [mr|] eqn:E.
    + destruct (entries_match _ _ E)
        as (number & currency & ds & -> & H1 & H2 & H3).
      rewrite Hf. unfold extractFields_NumberAndSumOfEntries.
      rewrite bind_Ok, H1, H2, H3. cbn [str_value].
      destruct (entries_read_shape data number currency ds)
        as (rest & (_ & _ & _ & Hds) & _).
      { destruct (entries_match _ _ E) as (? & ? & ? & R & ? & ? & ?).
        congruence. }
      rewrite (proj1 (big_number_digits ds Hds)).
      unfold entries_fields. by rewrite insert_empty.
    + destruct (entries_read data) as [[[number currency] ds]|] eqn:R;
        [exfalso|done].
      destruct (entries_read_shape _ _ _ _ R) as (rest & Hs & _).
      apply entries_shape_match in Hs. rewrite E in Hs.
      by apply is_Some_None in Hs.
  - intros [[[number currency] ds] R].
    destruct (entries_read_shape _ _ _ _ R) as (rest & Hs & _).
    by exists number, currency, ds, rest.
  - intros (number & currency & ds & rest & Hs).
    destruct (entries_shape_match _ _ _ _ _ Hs) as [mr E].
    destruct (entries_match _ _ E) as (? & ? & ? & -> & _). done.
Qed.

Lemma entries_tag_witness :
  Tag_new TagNumberAndSumOfEntriesD "12EUR1000,5"
  = Some (Ok (MkTag (Str "90D") "12EUR1000,5"
                (entries_fields "12" "EUR" 1000) None 0)).
Proof.
  apply (proj1 (entries_tag TagNumberAndSumOfEntriesD "12EUR1000,5"
                  ltac:(apply (bool_decide_unpack _); by vm_compute))).
Defined.

(** The reading of the data whose parts are given. *)
Lemma floor_limit_read_parts currency s1 :
  class_string upper 3 3 currency →
  floor_limit_read (currency ++ s1)
  = let dcMark :=
      match s1 with
      | String c _ => if upper c then String c "" else ""
      | EmptyString => ""
      end in
    let ds := prefix_while digit (Some 15)
                (skip (String.length dcMark) s1) in
    if negb (String.eqb ds "") then Some (currency, dcMark, ds) else None.
Proof.
  intros [Hc [Hc3 Hc3']]. unfold floor_limit_read. cbv zeta.
  assert (String.length currency = 3) as Hlen by lia.
  assert (take 3 (currency ++ s1) = currency) as ->
    by (rewrite <- Hlen; apply take_app_length).
  assert (skip 3 (currency ++ s1) = s1) as ->
    by (rewrite <- Hlen; apply skip_app_length).
  by rewrite Hc, Hlen.
Qed.

Lemma floor_limit_read_shape data currency dcMark ds :
  floor_limit_read data = Some (currency, dcMark, ds) →
  ∃ rest, floor_limit_shape data currency dcMark ds rest
          ∧ prefix_while digit (Some 15) (ds ++ rest) = ds.
Proof.
  unfold floor_limit_read. cbv zeta.
  pose proof (take_skip 3 data) as H1.
  set (c0 := take 3 data) in *. set (r1 := skip 3 data) in *.
  clearbody c0 r1.
  remember (match r1 with
            | String c _ => if upper c then String c "" else ""
            | EmptyString => ""
            end) as mark eqn:Hmk.
  assert (r1 = mark ++ skip (String.length mark) r1
          ∧ class_string upper 0 1 mark) as (Hr1 & Hm).
  { subst mark. destruct r1 as [|c r]; [by repeat split; cbn; auto|].
    destruct (upper c) eqn:Hu.
    - split; [done|].
      split; [unfold all_of_class; cbn; by rewrite Hu|cbn; lia].
    - split; [done|]. by split; cbn; auto. }
  clear Hmk.
  pose proof (prefix_while_skip digit (skip (String.length mark) r1)
                (Some 15)) as H3.
  pose proof (run_of_digits 15 (skip (String.length mark) r1)) as Hr2.
  remember (prefix_while digit (Some 15) (skip (String.length mark) r1))
    as d0 eqn:Hd in *.
  intros H.
  match type of H with
  | (if ?b then _ else _) = _ => destruct b eqn:Hb; [|discriminate]
  end.
  apply andb_true_iff in Hb as [Hb Hds].
  apply andb_true_iff in Hb as [Hc Hlen].
  apply negb_true_iff, eqb_empty in Hds.
  apply Nat.eqb_eq in Hlen. injection H as <- <- <-.
  exists (skip (String.length d0) (skip (String.length mark) r1)).
  split; [split; [|split; [|split]]|].
  - by rewrite <- H3, <- Hr1.
  - split; [done|lia].
  - done.
  - by apply Hr2.
  - by rewrite <- H3.
Qed.

Lemma floor_limit_match data mr :
  match_at (PATTERN TagDebitAndCreditFloorLimit) 0 data = Some mr →
  ∃ currency dcMark ds,
    floor_limit_read data = Some (currency, dcMark, ds)
    ∧ group mr !! 1 = Some currency
    ∧ or_empty (group mr !! 2) = dcMark
    ∧ group mr !! 3 = Some ds.
Proof.
  unfold match_at.
  destruct (m _ 0 data ∅ _) as [[[i' s'] cs']|] eqn:F; [|discriminate].
  intros [= <-]. cbn [group]. cbn [PATTERN] in F.
  rewrite !m_Seq, m_Bol in F. cbn [Nat.eqb] in F.
  apply class_group_inv in F as (currency & s1 & -> & Hcur & F); [|lia].
  exists currency. rewrite floor_limit_read_parts by done. cbv zeta.
  assert (Hk0 : ∀ i (i' : nat) (s' : string) (cs' : gmap nat string),
            i ≤ i' → is_Some (Some (i', s', cs'))) by done.
  destruct s1 as [|c r].
  - rewrite opt_nil in F. unfold upto in F.
    rewrite class_group_greedy in F by (lia || apply Hk0).
    discriminate.
  - rewrite opt_eq in F.
    match type of F with
    | match ?x with _ => _ end = _ => destruct x as [z|] eqn:G
    end.
    + injection F as ->. unfold times in G.
      apply class_group_inv in G as (mark & s2 & Hs & Hm & G); [|lia].
      destruct Hm as [Hma [Hm1 Hm1']].
      destruct mark as [|c' [|]]; [cbn in Hm1; lia| |cbn in Hm1'; lia].
      rewrite append_cons in Hs. change ("" ++ s2) with s2 in Hs.
      injection Hs as <- <-.
      rewrite all_of_class_cons in Hma.
      apply andb_true_iff in Hma as [Hu _]. rewrite Hu.
      cbn [String.length skip] in *.
      rewrite (proj2 (Nat.eqb_neq _ _)) in G by lia.
      unfold upto in G. rewrite class_group_greedy in G by (lia || apply Hk0).
      destruct (1 <=? _) eqn:Hl; [|discriminate]. apply Nat.leb_le in Hl.
      injection G as <- <- <-.
      rewrite (proj2 (eqb_empty _)) by (by apply not_empty_length).
      cbn [negb]. exists (String c ""), (prefix_while digit (Some 15) r).
      split; [done|]. by captured.
    + unfold upto in F. rewrite class_group_greedy in F by (lia || apply Hk0).
      destruct (1 <=? _) eqn:Hl; [|discriminate]. apply Nat.leb_le in Hl.
      injection F as <- <- <-.
      assert (upper c = false) as ->.
      { cbn [prefix_while] in Hl. rewrite bool_decide_eq_false_2 in Hl by done.
        destruct (digit c) eqn:Hd; [|cbn in Hl; lia].
        destruct (upper c) eqn:Hu; [|done].
        apply upper_not_digit in Hu. congruence. }
      cbn [String.length skip].
      rewrite (proj2 (eqb_empty _)) by (by apply not_empty_length).
      cbn [negb]. exists "", (prefix_while digit (Some 15) (String c r)).
      split; [done|]. by captured.
Qed.

Lemma floor_limit_shape_match data currency dcMark ds rest :
  floor_limit_shape data currency dcMark ds rest →
  is_Some (match_at (PATTERN TagDebitAndCreditFloorLimit) 0 data).
Proof.
  intros (-> & Hcur & Hm & Hds). unfold match_at.
  match goal with
  | |- is_Some (match ?x with _ => _ end) =>
      assert (is_Some x) as [[[? ?] ?] ->]; [|done]
  end.
  cbn [PATTERN]. rewrite !m_Seq, m_Bol. cbn [Nat.eqb].
  apply class_group_complete; [done|]. cbn beta.
  destruct Hm as [Hma [_ Hml]].
  destruct dcMark as [|c [|c' tl]]; [| |cbn in Hml; lia].
  - change ("" ++ ds ++ rest) with (ds ++ rest).
    destruct ds as [|c ds]; [destruct Hds as [_ [Hl _]]; cbn in Hl; lia|].
    rewrite append_cons, opt_eq.
    match goal with
    | |- is_Some (match ?x with _ => _ end) =>
        destruct x; [done|]
    end.
    rewrite <- append_cons. by apply class_group_complete.
  - rewrite append_cons, opt_eq.
    match goal with
    | |- is_Some (match ?x with _ => _ end) =>
        assert (is_Some x) as [z ->]; [|done]
    end.
    rewrite <- append_cons.
    apply class_group_complete; [by repeat split|].
    cbn [String.length]. rewrite (proj2 (Nat.eqb_neq _ _)) by lia.
    by apply class_group_complete.
Qed.

(** X10: the construction of a tag 34F reads three capital letters at
    the start of the data, one more capital letter when there is one,
    whichever it is, and the longest run of digits after them, of at
    most fifteen; the fields are the letters, the further letter or the
    empty string, and the integer of the digits, never negative and
    below [10^15].  It succeeds exactly when the data start with three
    capital letters, at most one more and a digit, and gives the error
    of a mismatch otherwise. *)
Theorem floor_limit_tag (data : string) :
  Tag_new TagDebitAndCreditFloorLimit data
  = Some (match floor_limit_read data with
          | Some (currency, dcMark, ds) =>
              Ok (MkTag (Str "34F") data
                    (floor_limit_fields currency dcMark
                       (JsString.digits_value ds)) None 0)
          | None => Throw ("Cannot parse tag 34F: " ++ data)
          end)
  ∧ (is_Some (floor_limit_read data)
     ↔ ∃ currency dcMark ds rest,
         floor_limit_shape data currency dcMark ds rest)
  ∧ ∀ currency dcMark ds,
      floor_limit_read data = Some (currency, dcMark, ds) →
      (∃ rest, floor_limit_shape data currency dcMark ds rest
               ∧ prefix_while digit (Some 15) (ds ++ rest) = ds)
      ∧ (0 <= JsString.digits_value ds < 10 ^ 15)%Z.
Proof.
  assert (Hsh : ∀ currency dcMark ds,
            floor_limit_read data = Some (currency, dcMark, ds) →
            (∃ rest, floor_limit_shape data currency dcMark ds rest
                     ∧ prefix_while digit (Some 15) (ds ++ rest) = ds)
            ∧ (0 <= JsString.digits_value ds < 10 ^ 15)%Z).
  { intros currency dcMark ds H.
    destruct (floor_limit_read_shape _ _ _ _ H) as (rest & Hs & Hm).
    split; [by exists rest|].
    destruct Hs as (_ & _ & _ & Hds). by apply big_number_digits. }
  split; [|split; [split|exact Hsh]].
  - rewrite Tag_new_eq by done. rewrite exec_anchored by done.
    destruct (match_at _ 0 data) as [mr|] eqn:E.
    + destruct (floor_limit_match _ _ E)
        as (currency & dcMark & ds & R & H1 & H2 & H3).
      rewrite R. cbn [_extractFields].
      rewrite bind_Ok, H1, H2, H3. cbn [str_value].
      destruct (Hsh _ _ _ R) as [(rest & (_ & _ & _ & Hds) & _) _].
      rewrite (proj1 (big_number_digits ds Hds)).
      unfold floor_limit_fields. by rewrite insert_empty.
    + destruct (floor_limit_read data) as [[[currency dcMark] ds]|] eqn:R;
        [exfalso|done].
      destruct (floor_limit_read_shape _ _ _ _ R) as (rest & Hs & _).
      apply floor_limit_shape_match in Hs. rewrite E in Hs.
      by apply is_Some_None in Hs.
  - intros [[[currency dcMark] ds] R].
    destruct (floor_limit_read_shape _ _ _ _ R) as (rest & Hs & _).
    by exists currency, dcMark, ds, rest.
  - intros (currency & dcMark & ds & rest & Hs).
    destruct (floor_limit_shape_match _ _ _ _ _ Hs) as [mr E].
    destruct (floor_limit_match _ _ E) as (? & ? & ? & -> & _). done.
Qed.

Lemma floor_limit_tag_witness :
  Tag_new TagDebitAndCreditFloorLimit "EURD123"
  = Some (Ok (MkTag (Str "34F") "EURD123"
                (floor_limit_fields "EUR" "D" 123) None 0))
  ∧ (∃ rest, floor_limit_shape "EURD123" "EUR" "D" "123" rest
             ∧ prefix_while digit (Some 15) ("123" ++ rest) = "123")
  ∧ (0 <= JsString.digits_value "123" < 10 ^ 15)%Z.
Proof.
  split.
  - exact (proj1 (floor_limit_tag "EURD123")).
  - apply (proj2 (proj2 (floor_limit_tag "EURD123")) "EUR" "D" "123").
    reflexivity.
Defined.

End IntegerAmounts.

(** ** The statement number *)

Section StatementNumber.
Import Regex RegexSpec TagFactory TagSpec ExtraSpec.
Local Open Scope nat_scope.

Ltac captured :=
  cbn [clear groups foldr app];
  repeat (rewrite lookup_insert_eq
          || (rewrite lookup_insert_ne by done)
          || (rewrite lookup_delete_ne by done)
          || rewrite lookup_delete_eq
          || rewrite lookup_empty).

(** An optional part never stops a match that its continuation
    completes. *)
Lemma opt_total r i s cs k :
  (∀ i' s' cs', is_Some (k i' s' cs')) → is_Some (m (opt r) i s cs k).
Proof.
  intros Hk. destruct s as [|c s]; [rewrite opt_nil; apply Hk|].
  rewrite opt_eq. destruct (m r _ _ _ _); [done|apply Hk].
Qed.

(** The optional part of a statement number, the groups [g] and [h]: it
    is taken whenever a slash and a digit come next, with the longest
    run of digits. *)
Lemma opt_slash_eq g h i s cs k :
  (∀ i' s' cs', is_Some (k i' s' cs')) →
  m (opt (Grp g (lit "/" ⋅ Grp h (upto 1 5 (Chr digit))))) i s cs k
  = if String.eqb (slash_digits s) "" then k i s cs
    else k (S i + String.length (slash_digits s)) (after_slash s)
           (<[g := "/" ++ slash_digits s]>
              (<[h := slash_digits s]> (delete g (delete h cs)))).
Proof.
  intros Hk. unfold after_slash. destruct s as [|c r]; [done|].
  rewrite opt_eq, m_Grp, m_Seq. unfold lit. rewrite m_Chr.
  cbn [slash_digits]. rewrite (Ascii.eqb_sym c "/").
  destruct (Ascii.eqb_spec "/" c) as [<-|Hc]; [|done].
  unfold upto. rewrite class_group_greedy; [|lia|].
  2:{ intros i' s' cs' Hi. cbn beta.
      rewrite (proj2 (Nat.eqb_neq i' i)) by lia. apply Hk. }
  cbn [clear groups foldr app].
  destruct (prefix_while digit (Some 5) r) as [|d ds] eqn:Hp; [done|].
  cbn [String.length Nat.leb String.eqb skip].
  rewrite (proj2 (Nat.eqb_neq _ _)) by lia.
  replace (S i + S (String.length ds) - i) with (S (S (String.length ds)))
    by lia.
  assert (take (S (S (String.length ds))) (String "/" r)
          = "/" ++ String d ds) as ->.
  { pose proof (take_prefix_while digit r (Some 5)) as Ht.
    rewrite Hp in Ht. cbn [String.length] in Ht.
    change (take (S (S (String.length ds))) (String "/" r))
      with (String "/" (take (S (String.length ds)) r)).
    by rewrite Ht. }
  match goal with
  | |- match ?x with _ => _ end = _ =>
      assert (is_Some x) as [z ->] by apply Hk
  end.
  done.
Qed.

Lemma slash_digits_class s :
  slash_digits s = "" ∨ class_string digit 1 5 (slash_digits s).
Proof.
  destruct (decide (slash_digits s = "")) as [|Hne]; [by left|right].
  destruct s as [|c r]; [done|]. cbn [slash_digits] in *.
  destruct (Ascii.eqb c "/"); [|done]. by apply run_of_digits.
Qed.

Lemma after_slash_spec s :
  s = slashed (slash_digits s) ++ after_slash s.
Proof.
  unfold slashed, after_slash.
  destruct (String.eqb (slash_digits s) "") eqn:E; [done|].
  destruct s as [|c r]; [done|]. cbn [slash_digits] in *.
  destruct (Ascii.eqb_spec c "/") as [->|]; [|done].
  cbn [skip]. change ("/" ++ ?x) with (String "/" x).
  rewrite append_cons. f_equal. apply prefix_while_skip.
Qed.

(** X11: the construction of a tag 28 reads the longest run of digits
    at the start of the data, of at most five, as the statement number,
    then the longest run of digits after a slash as the sequence number,
    and the one after a further slash as the section number, each of at
    most five digits and empty when the slash or the digits are not
    there; so there is no section number without a sequence number.  It
    fails, with the error of a mismatch, exactly when the data do not
    start with a digit. *)
Theorem statement_number_tag (data : string) :
  Tag_new TagStatementNumber data
  = Some (match statement_number_read data with
          | Some (number, sequence, section) =>
              Ok (MkTag (Num (Some 28%Z)) data
                    (statement_number_fields number sequence section)
                    None 0)
          | None => Throw ("Cannot parse tag 28: " ++ data)
          end)
  ∧ (statement_number_read data = None
     ↔ ∀ c rest, data = String c rest → digit c = false)
  ∧ ∀ number sequence section,
      statement_number_read data = Some (number, sequence, section) →
      class_string digit 1 5 number
      ∧ (sequence = "" ∨ class_string digit 1 5 sequence)
      ∧ (section = "" ∨ class_string digit 1 5 section)
      ∧ (sequence = "" → section = "")
      ∧ ∃ rest, data = number ++ slashed sequence ++ slashed section
                       ++ rest.
Proof.
  assert (Hk0 : ∀ (i' : nat) (s' : string) (cs' : gmap nat string),
            is_Some (Some (i', s', cs'))) by done.
  split; [|split].
  - rewrite Tag_new_eq by done. cbn [PATTERN].
    rewrite exec_anchored by done. unfold match_at.
    rewrite !m_Seq, m_Bol. cbn [Nat.eqb]. unfold upto at 1.
    rewrite class_group_greedy;
      [|lia|by intros; cbn beta; apply opt_total; intros; apply opt_total].
    unfold statement_number_read.
    destruct (prefix_while digit (Some 5) data) as [|d ds] eqn:Hp; [done|].
    cbn [String.length Nat.leb String.eqb].
    rewrite opt_slash_eq by (by intros; apply opt_total).
    set (r1 := skip (S (String.length ds)) data).
    destruct (String.eqb (slash_digits r1) "") eqn:E1.
    + apply String.eqb_eq in E1.
      assert (after_slash r1 = r1) as ->
        by (unfold after_slash; by rewrite E1).
      rewrite opt_slash_eq by done. rewrite E1. cbn [String.eqb].
      cbn [_extractFields group]. rewrite bind_Ok. captured.
      cbn [str_value or_empty]. unfold statement_number_fields.
      by rewrite insert_empty.
    + rewrite opt_slash_eq by done.
      destruct (String.eqb (slash_digits (after_slash r1)) "") eqn:E2.
      * apply String.eqb_eq in E2. rewrite E2.
        cbn [_extractFields group]. rewrite bind_Ok. captured.
        cbn [str_value or_empty]. unfold statement_number_fields.
        by rewrite insert_empty.
      * cbn [_extractFields group]. rewrite bind_Ok. captured.
        cbn [str_value or_empty]. unfold statement_number_fields.
        by rewrite insert_empty.
  - unfold statement_number_read. destruct data as [|c rest].
    { split; [by intros _ c rest|done]. }
    cbn [prefix_while]. rewrite bool_decide_eq_false_2 by done.
    destruct (digit c) eqn:Hc.
    + split; [done|]. intros H. specialize (H c rest eq_refl). congruence.
    + split; [|done]. intros _ c' rest' [= <- <-]. done.
  - intros number sequence section. unfold statement_number_read.
    destruct (String.eqb (prefix_while digit (Some 5) data) "") eqn:En;
      [discriminate|].
    apply eqb_empty in En. intros [= <- <- <-].
    set (r1 := skip _ data).
    split; [by apply run_of_digits|].
    split; [apply slash_digits_class|].
    split; [apply slash_digits_class|]. split.
    + intros H. unfold after_slash. by rewrite H.
    + exists (after_slash (after_slash r1)).
      rewrite <- !after_slash_spec. apply prefix_while_skip.
Qed.

Lemma statement_number_tag_witness :
  Tag_new TagStatementNumber "12345/67/890123"
  = Some (Ok (MkTag (Num (Some 28%Z)) "12345/67/890123"
                (statement_number_fields "12345" "67" "89012") None 0))
  ∧ class_string digit 1 5 "12345"
  ∧ ("67" = "" ∨ class_string digit 1 5 "67")
  ∧ ("89012" = "" ∨ class_string digit 1 5 "89012")
  ∧ ("67" = "" → "89012" = "")
  ∧ ∃ rest, "12345/67/890123"
            = "12345" ++ slashed "67" ++ slashed "89012" ++ rest.
Proof.
  split.
  - exact (proj1 (statement_number_tag "12345/67/890123")).
  - apply (proj2 (proj2 (statement_number_tag "12345/67/890123"))
             "12345" "67" "89012").
    reflexivity.
Defined.

End StatementNumber.

(** ** The balances *)

Section Balances.
Import Regex RegexSpec TagFactory TagSpec AmountSpec ExtraSpec.
Local Open Scope nat_scope.

Ltac captured :=
  cbn [clear groups foldr app];
  repeat (rewrite lookup_insert_eq
          || (rewrite lookup_insert_ne by done)
          || (rewrite lookup_delete_ne by done)
          || rewrite lookup_delete_eq
          || rewrite lookup_empty).

Lemma amount_char_spec c :
  amount_char c = JsString.is_digit c || Ascii.eqb c ",".
Proof. by destruct c as [[] [] [] [] [] [] [] []]. Qed.

Lemma all_of_class_amount s : all_of_class amount_char s = amount_chars s.
Proof.
  unfold all_of_class. induction s as [|c s IH]; [done|].
  cbn [list_ascii_of_string forallb amount_chars].
  by rewrite IH, amount_char_spec.
Qed.

Lemma prefix_while_class p : ∀ s hi,
  all_of_class p (prefix_while p hi s) = true.
Proof.
  unfold all_of_class.
  induction s as [|c s IH]; intros hi; cbn [prefix_while]; [done|].
  case_bool_decide; [done|]. destruct (p c) eqn:Hp; [|done].
  cbn [list_ascii_of_string forallb]. by rewrite Hp, IH.
Qed.

(** The mark of a balance. *)
Lemma balance_mark_inv i s cs k z :
  m (Grp 1 (Chr (one_of "DC"))) i s cs k = Some z →
  ∃ mark rest, s = mark ++ rest ∧ mark ∈ ["D"; "C"]
               ∧ k (S i) rest (<[1 := mark]> cs) = Some z.
Proof.
  rewrite m_Grp. destruct s as [|c rest]; [discriminate|].
  rewrite m_Chr. destruct (one_of "DC" c) eqn:Hc; [|discriminate].
  replace (S i - i) with 1 by lia. cbn [take]. intros H.
  exists (String c ""), rest. split; [done|]. split; [|done].
  unfold one_of in Hc. cbn in Hc.
  destruct (Ascii.eqb_spec c "D") as [->|]; [set_solver|].
  destruct (Ascii.eqb_spec c "C") as [->|]; [set_solver|done].
Qed.

Lemma balance_mark_complete i mark rest cs k :
  mark ∈ ["D"; "C"] →
  is_Some (k (S i) rest (<[1 := mark]> cs)) →
  is_Some (m (Grp 1 (Chr (one_of "DC"))) i (mark ++ rest) cs k).
Proof.
  intros Hm Hk. rewrite m_Grp.
  set_unfold in Hm.
  destruct Hm as [->|[->|[]]]; rewrite append_cons, m_Chr;
    replace (S i - i) with 1 by lia; exact Hk.
Qed.

(** X12: a balance, of the tags 60, 62, 64 and 65, is read from data
    that start with [D] or [C], six digits and three capital letters.
    The amount string is the longest run of digits and commas that
    follows, of at most sixteen characters: with a digit and at most one
    comma in it the tag is made, with the date of the digits, the
    letters and the signed amount in hundredths; otherwise the error is
    the one of the amount. Other data give the error of a mismatch. *)
Theorem balance_tag (c : tag_class) (data : string) :
  c ∈ balances →
  ∃ r, Tag_new c data = Some r
       ∧ match r with
         | Throw msg =>
             (msg = "Cannot parse tag " ++ jsval_toString (ID c)
                    ++ ": " ++ data
              ∧ ∀ mark y mo d cur rest,
                  ¬ balance_head data mark y mo d cur rest)
             ∨ ∃ mark y mo d cur rest,
                 balance_head data mark y mo d cur rest
                 ∧ well_formed_amount (amount_prefix rest) = false
                 ∧ msg = "Amount cannot be parsed: " ++ amount_prefix rest
         | Ok t =>
             ∃ mark y mo d cur rest,
               balance_head data mark y mo d cur rest
               ∧ well_formed_amount (amount_prefix rest) = true
               ∧ fields t
                 = balance_fields (BankDate.parse y mo d) cur
                     (round2 (signed mark (magnitude (amount_prefix rest))))
         end.
Proof.
  intros Hc.
  assert (global c = false ∧ PATTERN c = PATTERN_Balance
          ∧ ∀ mr li, _extractFields c data mr li
                     = Some (x ← extractFields_Balance mr;
                             Ok (x, None, li)))
    as (Hg & Hp & Hf)
    by (unfold balances in Hc; set_unfold in Hc;
        by destruct Hc as [->|[->|[->|[->|[]]]]]).
  rewrite Tag_new_eq, Hp by done.
  unfold PATTERN_Balance. rewrite !exec_anchored by done.
  destruct (match_at _ 0 data) as [mr|] eqn:E.
  - rewrite Hf. unfold match_at in E.
    destruct (m _ 0 data ∅ _) as [[[i' s'] cs']|] eqn:F; [|discriminate].
    injection E as <-.
    rewrite !m_Seq, m_Bol in F. cbn [Nat.eqb] in F.
    apply balance_mark_inv in F as (mark & s1 & -> & Hm & F).
    apply class_group_inv in F as (y & s2 & -> & Hy & F); [|lia].
    apply class_group_inv in F as (mo & s3 & -> & Hmo & F); [|lia].
    apply class_group_inv in F as (d & s4 & -> & Hd & F); [|lia].
    apply class_group_inv in F as (cur & rest & -> & Hcur & F); [|lia].
    rewrite m_Grp in F. unfold upto in F. rewrite m_Rep in F.
    cbn [groups Nat.add] in F.
    rewrite repeat_chr_greedy in F by (eauto || lia).
    injection F as <- <- <-.
    match goal with
    | |- context [take ?n rest] =>
        replace (take n rest) with (amount_prefix rest)
          by (unfold amount_prefix;
              rewrite <- (take_prefix_while amount_char rest (Some 16)) at 1;
              f_equal; unfold amount_char; lia)
    end.
    assert (balance_head (mark ++ y ++ mo ++ d ++ cur ++ rest)
              mark y mo d cur rest) as Hhead by done.
    unfold extractFields_Balance, helperModels.Amount_parse,
      helperModels.Date_parse.
    cbn [group]. captured. cbn [defined str_arg str_value].
    rewrite !bind_Ok.
    assert (mark ∈ markers) as Hmk
      by (unfold markers; set_unfold in Hm; set_unfold;
          destruct Hm as [->|[->|[]]]; auto).
    rewrite (parse_marker _ _ Hmk).
    destruct (magnitude_amount (amount_prefix rest)) as [-> ->].
    { rewrite <- all_of_class_amount. apply prefix_while_class. }
    destruct (well_formed_amount (amount_prefix rest)) eqn:Hw;
      cbn [negb].
    + rewrite bind_Ok. eexists. split; [done|]. cbn [fields].
      exists mark, y, mo, d, cur, rest. split; [done|]. split; [done|].
      unfold balance_fields. by rewrite insert_empty.
    + rewrite bind_Throw. eexists. split; [done|]. right.
      by exists mark, y, mo, d, cur, rest.
  - eexists. split; [done|]. left. split; [done|].
    intros mark y mo d cur rest (-> & Hm & Hy & Hmo & Hd & Hcur).
    unfold match_at in E.
    destruct (m _ 0 _ ∅ _) as [z|] eqn:F; [by destruct z as [[? ?] ?]|].
    rewrite !m_Seq, m_Bol in F. cbn [Nat.eqb] in F.
    eapply is_Some_None. rewrite <- F.
    apply balance_mark_complete; [done|]. cbn beta.
    apply class_group_complete; [done|]. cbn beta.
    apply class_group_complete; [done|]. cbn beta.
    apply class_group_complete; [done|]. cbn beta.
    apply class_group_complete; [done|]. cbn beta.
    change rest with ("" ++ rest) at 1.
    apply class_group_complete; [|done].
    split; [done|cbn; lia].
Qed.

Lemma balance_tag_witness :
  ∃ r, Tag_new TagOpeningBalance "C200101EUR1,5,3" = Some r
       ∧ match r with
         | Throw msg =>
             (msg = "Cannot parse tag "
                    ++ jsval_toString (ID TagOpeningBalance)
                    ++ ": " ++ "C200101EUR1,5,3"
              ∧ ∀ mark y mo d cur rest,
                  ¬ balance_head "C200101EUR1,5,3" mark y mo d cur rest)
             ∨ ∃ mark y mo d cur rest,
                 balance_head "C200101EUR1,5,3" mark y mo d cur rest
                 ∧ well_formed_amount (amount_prefix rest) = false
                 ∧ msg = "Amount cannot be parsed: " ++ amount_prefix rest
         | Ok t =>
             ∃ mark y mo d cur rest,
               balance_head "C200101EUR1,5,3" mark y mo d cur rest
               ∧ well_formed_amount (amount_prefix rest) = true
               ∧ fields t
                 = balance_fields (BankDate.parse y mo d) cur
                     (round2 (signed mark (magnitude (amount_prefix rest))))
         end.
Proof.
  apply (balance_tag TagOpeningBalance "C200101EUR1,5,3").
  apply (bool_decide_unpack _). by vm_compute.
Defined.

End Balances.

(** ** The date and time indications *)

Section DateTimeIndication.
Import Regex RegexSpec TagFactory TagSpec ExtraSpec.
Local Open Scope nat_scope.

Lemma class_rep_inv lo hi p i s cs k z :
  lo ≤ hi →
  m (Rep lo (Some hi) true (Chr p)) i s cs k = Some z →
  ∃ pre rest, s = pre ++ rest ∧ class_string p lo hi pre
              ∧ k (i + String.length pre) rest cs = Some z.
Proof.
  intros Hle. rewrite m_Rep. intros H.
  apply repeat_chr_inv in H as (pre & rest & -> & Ha & Hl & Hu & Hk);
    [|lia|by intros h [= <-]].
  exists pre, rest. split; [done|]. split; [|done].
  split; [done|]. split; [done|]. by apply Hu.
Qed.

Lemma class_rep_complete lo hi p i pre rest cs k :
  class_string p lo hi pre →
  is_Some (k (i + String.length pre) rest cs) →
  is_Some (m (Rep lo (Some hi) true (Chr p)) i (pre ++ rest) cs k).
Proof.
  intros [Ha [Hl Hu]] Hk. rewrite m_Rep.
  apply repeat_chr_complete; [done|done|by intros h [= <-]| |done].
  rewrite length_append. lia.
Qed.

Lemma take_app_two (a b rest : string) :
  take (String.length a + String.length b) (a ++ b ++ rest) = a ++ b.
Proof.
  by rewrite <- append_assoc, <- length_append, take_app_length.
Qed.

(** The offset of the tag 13D, the group 3. *)
Lemma offset_group_inv i s cs k z :
  m (Grp 3 (times 1 (Chr (one_of "+-")) ⋅ times 4 (Chr digit))) i s cs k
  = Some z →
  ∃ sign off rest,
    offset_head s sign off rest
    ∧ k (i + String.length sign + String.length off) rest
        (<[3 := sign ++ off]> cs) = Some z.
Proof.
  rewrite m_Grp, m_Seq. intros H.
  apply class_rep_inv in H as (sign & s1 & -> & Hsg & H); [|lia].
  apply class_rep_inv in H as (off & rest & -> & Hoff & H); [|lia].
  exists sign, off, rest. split; [done|].
  replace (i + String.length sign + String.length off - i)
    with (String.length sign + String.length off) in H by lia.
  by rewrite take_app_two in H.
Qed.

Lemma offset_group_complete i sign off rest cs k :
  class_string (one_of "+-") 1 1 sign → class_string digit 4 4 off →
  is_Some (k (i + String.length sign + String.length off) rest
             (<[3 := sign ++ off]> cs)) →
  is_Some (m (Grp 3 (times 1 (Chr (one_of "+-")) ⋅ times 4 (Chr digit)))
             i (sign ++ off ++ rest) cs k).
Proof.
  intros Hsg Hoff Hk. rewrite m_Grp, m_Seq.
  apply class_rep_complete; [done|]. cbn beta.
  apply class_rep_complete; [done|].
  replace (i + String.length sign + String.length off - i)
    with (String.length sign + String.length off) by lia.
  by rewrite take_app_two.
Qed.

(** X13: a tag 13 is made exactly of data that start with ten digits,
    and a tag 13D of data in which a sign and four digits follow them;
    other data give the error of a mismatch. The instant is read from
    the text that has been matched, with [0000] for the offset of the
    tag 13; the digits are not checked to be a date or a time here. *)
Theorem date_time_tags (data : string) :
  (∃ r, Tag_new TagDateTimeIndication13 data = Some r
        ∧ match r with
          | Throw msg =>
              msg = "Cannot parse tag 13: " ++ data
              ∧ ∀ date time rest, ¬ date_time_head data date time rest
          | Ok t =>
              ∃ date time rest,
                date_time_head data date time rest
                ∧ fields t = instant_field (date ++ time ++ "0000")
          end)
  ∧ (∃ r, Tag_new TagDateTimeIndication data = Some r
          ∧ match r with
            | Throw msg =>
                msg = "Cannot parse tag 13D: " ++ data
                ∧ ∀ date time s sign off rest,
                    ¬ (date_time_head data date time s
                       ∧ offset_head s sign off rest)
            | Ok t =>
                ∃ date time s sign off rest,
                  date_time_head data date time s
                  ∧ offset_head s sign off rest
                  ∧ fields t = instant_field (date ++ time ++ sign ++ off)
            end).
Proof.
  split.
  - rewrite Tag_new_eq by done. cbn [PATTERN].
    rewrite !exec_anchored by done.
    destruct (match_at _ 0 data) as [mr|] eqn:E.
    + cbn [_extractFields]. rewrite bind_Ok.
      eexists. split; [done|]. cbn [fields].
      unfold match_at in E.
      destruct (m _ 0 data ∅ _) as [[[i' s'] cs']|] eqn:F; [|discriminate].
      injection E as <-.
      rewrite !m_Seq, m_Bol in F. cbn [Nat.eqb] in F.
      apply class_group_inv in F as (date & s1 & -> & Hd & F); [|lia].
      apply class_group_inv in F as (time & rest & -> & Ht & F); [|lia].
      injection F as <- <- <-.
      exists date, time, rest. split; [done|].
      unfold helperModels.Date_forOffsetDateTime. cbn [group].
      rewrite lookup_insert_eq.
      rewrite lookup_insert_ne by done. rewrite lookup_insert_eq.
      done.
    + eexists. split; [done|]. split; [done|].
      intros date time rest (-> & Hd & Ht).
      unfold match_at in E.
      destruct (m _ 0 _ ∅ _) as [z|] eqn:F; [by destruct z as [[? ?] ?]|].
      rewrite !m_Seq, m_Bol in F. cbn [Nat.eqb] in F.
      eapply is_Some_None. rewrite <- F.
      apply class_group_complete; [done|]. cbn beta.
      by apply class_group_complete.
  - rewrite Tag_new_eq by done. cbn [PATTERN].
    rewrite !exec_anchored by done.
    destruct (match_at _ 0 data) as [mr|] eqn:E.
    + cbn [_extractFields]. rewrite bind_Ok.
      eexists. split; [done|]. cbn [fields].
      unfold match_at in E.
      destruct (m _ 0 data ∅ _) as [[[i' s'] cs']|] eqn:F; [|discriminate].
      injection E as <-.
      rewrite !m_Seq, m_Bol in F. cbn [Nat.eqb] in F.
      apply class_group_inv in F as (date & s1 & -> & Hd & F); [|lia].
      apply class_group_inv in F as (time & s2 & -> & Ht & F); [|lia].
      apply offset_group_inv in F as (sign & off & rest & Ho & F).
      injection F as <- <- <-.
      exists date, time, s2, sign, off, rest.
      split; [done|]. split; [done|].
      unfold helperModels.Date_forOffsetDateTime. cbn [group].
      rewrite lookup_insert_eq.
      rewrite !lookup_insert_ne by done. rewrite lookup_insert_eq.
      rewrite !lookup_insert_ne by done. rewrite lookup_insert_eq.
      done.
    + eexists. split; [done|]. split; [done|].
      intros date time s sign off rest
        [(-> & Hd & Ht) (-> & Hsg & Hoff)].
      unfold match_at in E.
      destruct (m _ 0 _ ∅ _) as [z|] eqn:F; [by destruct z as [[? ?] ?]|].
      rewrite !m_Seq, m_Bol in F. cbn [Nat.eqb] in F.
      eapply is_Some_None. rewrite <- F.
      apply class_group_complete; [done|]. cbn beta.
      apply class_group_complete; [done|]. cbn beta.
      by apply offset_group_complete.
Qed.

End DateTimeIndication.

(** ** The errors of the statement line *)

Section StatementLineErrors.
Import Regex RegexSpec TagFactory TagSpec AmountSpec ExtraSpec.
Local Open Scope nat_scope.

Ltac captured :=
  cbn [clear groups foldr app];
  repeat (rewrite lookup_insert_eq
          || (rewrite lookup_insert_ne by done)
          || (rewrite lookup_delete_ne by done)
          || rewrite lookup_delete_eq
          || rewrite lookup_empty).

Ltac tail H :=
  let i := fresh "i" in let s := fresh "s" in let cs := fresh "cs" in
  let Hc := fresh "Hc" in
  apply m_reaches in H as (i & s & cs & H & _ & Hc).

(** The mark of a statement line is one of eight. *)
Lemma line_mark_inv i s cs k z :
  m (Grp 7 (opt (Chr (one_of "E|R")) ⋅ Chr (one_of "DC"))) i s cs k = Some z →
  ∃ mark rest, s = mark ++ rest ∧ mark ∈ line_marks
               ∧ k (i + String.length mark) rest (<[7 := mark]> cs) = Some z.
Proof.
  assert (Hdc : ∀ c, one_of "DC" c = true → c = "D"%char ∨ c = "C"%char).
  { intros c Hc. unfold one_of in Hc. cbn in Hc.
    destruct (Ascii.eqb_spec c "D") as [Hd|]; [by left|].
    destruct (Ascii.eqb_spec c "C") as [Hd|]; [by right|done]. }
  assert (Her : ∀ c, one_of "E|R" c = true
                     → c = "E"%char ∨ c = "|"%char ∨ c = "R"%char).
  { intros c Hc. unfold one_of in Hc. cbn in Hc.
    destruct (Ascii.eqb_spec c "E") as [He|]; [by left|].
    destruct (Ascii.eqb_spec c "|") as [He|]; [right; by left|].
    destruct (Ascii.eqb_spec c "R") as [He|]; [right; by right|done]. }
  rewrite m_Grp, m_Seq. intros H.
  apply opt_inv in H as [(d & H & Hd)|H].
  - destruct s as [|c1 s1]; [discriminate|]. rewrite m_Chr in H.
    destruct (one_of "E|R" c1) eqn:E1; [|discriminate].
    apply Hd in H. destruct s1 as [|c2 s2]; [discriminate|].
    rewrite m_Chr in H. destruct (one_of "DC" c2) eqn:E2; [|discriminate].
    exists (String c1 (String c2 "")), s2. split; [done|]. split.
    + unfold line_marks, markers.
      destruct (Her _ E1) as [H1 | [H1 | H1]], (Hdc _ E2) as [H2 | H2];
        rewrite H1, H2; apply (bool_decide_unpack _); by vm_compute.
    + replace (S (S i) - i) with 2 in H by lia. cbn [take] in H.
      cbn [clear groups foldr] in H.
      by replace (i + String.length (String c1 (String c2 "")))
        with (S (S i)) by (cbn; lia).
  - destruct s as [|c1 s1]; [discriminate|]. rewrite m_Chr in H.
    destruct (one_of "DC" c1) eqn:E1; [|discriminate].
    exists (String c1 ""), s1. split; [done|]. split.
    + unfold line_marks, markers. destruct (Hdc _ E1) as [H1 | H1]; rewrite H1;
        apply (bool_decide_unpack _); by vm_compute.
    + replace (S i - i) with 1 in H by lia. cbn [take] in H.
      by replace (i + String.length (String c1 "")) with (S i)
        by (cbn; lia).
Qed.

(** The statement line from the mark on: the groups 7 and 9 of a match
    are a mark and a string of digits and commas. *)
Lemma line_tail_inv i s cs z :
  m (Grp 7 (opt (Chr (one_of "E|R")) ⋅ Chr (one_of "DC"))
     ⋅ opt (Grp 8 (Chr upper))
     ⋅ Grp 9 (upto 0 16 (Chr (one_of "0123456789,")))
     ⋅ Grp 10 (Chr upper ⋅ times 3 (Chr (fun c => upper c || digit c)))
     ⋅ Grp 11 (upto 0 16
                 (Chr (fun c => negb (Ascii.eqb c "/")
                              && negb (code c =? 10)%Z)))
     ⋅ opt (Grp 12 (lit "/" ⋅ lit "/" ⋅ Grp 13 (upto 0 16 (Chr dot))))
     ⋅ opt (Grp 14 (Chr (fun c => (code c =? 10)%Z)
                    ⋅ Grp 15 (upto 0 34 (Chr dot)))))
    i s cs (λ i' s' cs', Some (i', s', cs')) = Some z →
  ∃ mark amt, z.2 !! 7 = Some mark ∧ mark ∈ line_marks
              ∧ z.2 !! 9 = Some amt ∧ amount_chars amt = true.
Proof.
  rewrite !m_Seq. intros E.
  apply line_mark_inv in E as (mark & rest & -> & Hmark & E).
  exists mark.
  apply opt_inv in E as [(d & E & Hd)|E].
  - rewrite m_Grp in E. destruct rest as [|c r]; [discriminate|].
    rewrite m_Chr in E. destruct (upper c); [|discriminate].
    apply Hd in E.
    apply class_group_inv in E as (amt & r' & -> & Hamt & E); [|lia].
    do 4 tail E. injection E as <-. exists amt. cbn [snd].
    assert (∀ n, n < 10 → cs3 !! n = cs0 !! n) as Hfin.
    { intros n Hn.
      rewrite Hc2, Hc1, Hc0; [done|cbn; set_unfold; lia..]. }
    assert (∀ n, n < 10 → cs0 !! n = _ !! n) as Hfin'
      by (intros n Hn; apply Hc; cbn; set_unfold; lia).
    rewrite !Hfin, !Hfin' by lia. captured.
    split; [done|]. split; [done|]. split; [done|].
    rewrite <- all_of_class_amount. by destruct Hamt.
  - apply class_group_inv in E as (amt & r' & -> & Hamt & E); [|lia].
    do 4 tail E. injection E as <-. exists amt. cbn [snd].
    assert (∀ n, n < 10 → cs3 !! n = cs0 !! n) as Hfin.
    { intros n Hn.
      rewrite Hc2, Hc1, Hc0; [done|cbn; set_unfold; lia..]. }
    assert (∀ n, n < 10 → cs0 !! n = _ !! n) as Hfin'
      by (intros n Hn; apply Hc; cbn; set_unfold; lia).
    rewrite !Hfin, !Hfin' by lia. captured.
    split; [done|]. split; [done|]. split; [done|].
    rewrite <- all_of_class_amount. by destruct Hamt.
Qed.

(** The groups 7 and 9 of a match of the statement line. *)
Lemma statement_line_amount data mr :
  match_at PATTERN_StatementLine 0 data = Some mr →
  ∃ mark amt, group mr !! 7 = Some mark ∧ mark ∈ line_marks
              ∧ group mr !! 9 = Some amt ∧ amount_chars amt = true.
Proof.
  unfold match_at.
  destruct (m _ 0 data ∅ _) as [[[i' s'] cs']|] eqn:F; [|discriminate].
  intros [= <-]. cbn [group].
  unfold PATTERN_StatementLine in F.
  rewrite !m_Seq, m_Bol in F. cbn [Nat.eqb] in F.
  apply class_group_inv in F as (y & s1 & -> & Hy & F); [|lia].
  apply class_group_inv in F as (mo & s2 & -> & Hmo & F); [|lia].
  apply class_group_inv in F as (d & s3 & -> & Hd & F); [|lia].
  apply opt_inv in F as [(k & F & Hk)|F].
  - rewrite m_Grp, m_Seq in F.
    apply class_group_inv in F as (em & s4 & -> & Hem & F); [|lia].
    apply class_group_inv in F as (ed & s5 & -> & Hed & F); [|lia].
    apply Hk in F.
    by apply line_tail_inv in F.
  - by apply line_tail_inv in F.
Qed.

(** X14: the construction of a statement line returns for every data,
    and it has three errors and no other: the one of a mismatch, the
    one of an amount without a digit or with more than one comma, and
    the one of a mark that starts with a vertical bar, which the pattern
    lets through. A tag that is made has one of the six markers and the
    signed amount of its amount string in hundredths. *)
Theorem statement_line_errors :
  (∀ data,
     ∃ r, Tag_new TagStatementLine data = Some r
          ∧ match r with
            | Throw msg =>
                msg = "Cannot parse tag 61: " ++ data
                ∨ (∃ amt, amount_chars amt = true
                          ∧ well_formed_amount amt = false
                          ∧ msg = "Amount cannot be parsed: " ++ amt)
                ∨ (∃ mark, mark ∈ ["|D"; "|C"]
                           ∧ msg = "Not a reversal/expected mark: " ++ mark)
            | Ok t =>
                ∃ mr mark amt,
                  exec PATTERN_StatementLine data = Some mr
                  ∧ group mr !! 7 = Some mark ∧ mark ∈ markers
                  ∧ group mr !! 9 = Some amt
                  ∧ amount_chars amt = true
                  ∧ well_formed_amount amt = true
                  ∧ fields t !! "amount"
                    = Some (VAmount (round2 (signed mark (magnitude amt))))
            end)
  ∧ Tag_new TagStatementLine line_with_bar
    = Some (Throw "Not a reversal/expected mark: |D").
Proof.
  split; [|by vm_compute].
  intros data. rewrite Tag_new_eq by done. cbn [PATTERN].
  assert (exec PATTERN_StatementLine data
          = match_at PATTERN_StatementLine 0 data) as Hx
    by (by apply exec_anchored).
  rewrite Hx.
  destruct (match_at _ 0 data) as [mr|] eqn:E;
    [|eexists; split; [done|by left]].
  destruct (statement_line_amount _ _ E) as (mark & amt & H7 & Hm & H9 & Ha).
  cbn [_extractFields]. unfold extractFields_StatementLine.
  unfold helperModels.Amount_parse. rewrite H7, H9.
  cbn [defined]. rewrite !bind_Ok.
  unfold line_marks in Hm. apply elem_of_app in Hm as [Hm|Hm].
  - rewrite (parse_marker _ _ Hm).
    destruct (magnitude_amount amt Ha) as [-> ->].
    destruct (well_formed_amount amt) eqn:Hw; cbn [negb].
    + rewrite !bind_Ok. eexists. split; [done|]. cbn [fields].
      exists mr, mark, amt. repeat (split; [done|]).
      rewrite !lookup_insert_ne by done. by rewrite lookup_insert_eq.
    + rewrite !bind_Throw. eexists. split; [done|].
      right. left. by exists amt.
  - assert (BankAmount.parse mark amt
            = Throw ("Not a reversal/expected mark: " ++ mark)) as ->
      by (set_unfold in Hm; by destruct Hm as [->|[->|[]]]).
    rewrite !bind_Throw. eexists. split; [done|].
    right. right. by exists mark.
Qed.

End StatementLineErrors.

(** ** The fields of the message block *)

Section MessageBlockFields.
Import Regex RegexSpec TagFactory TagSpec ExtraSpec.
Local Open Scope nat_scope.

(** When there is no further match, the pattern is left at the start. *)
Lemma next_match_none c data li li' :
  global c = true → _nextMatch c data li = (None, li') → li' = 0.
Proof.
  unfold _nextMatch, exec_global. intros -> H.
  destruct (drop li data) as [s|]; [|by injection H].
  destruct (search _ li s); [discriminate|by injection H].
Qed.

Lemma block_fields_insert d x f :
  digit d = true → block_fields f →
  block_fields (<[String d "" := VStr x]> f).
Proof.
  intros Hd Hf name v. rewrite lookup_insert. case_decide as Hn.
  - intros [= <-]. right. by exists d, x.
  - apply Hf.
Qed.

Lemma block_fields_EOB f :
  block_fields f → block_fields (<["EOB" := VStr ""]> f).
Proof.
  intros Hf name v. rewrite lookup_insert. case_decide as Hn.
  - intros [= <-]. by left.
  - apply Hf.
Qed.

(** The rounds after the first set fields of blocks only, and end with
    the pattern at the start. *)
Lemma next_round_fields data : ∀ fuel li f f' li',
  0 < li → next_round fuel data li f = Some (f', li') →
  block_fields f → block_fields f' ∧ li' = 0.
Proof.
  induction fuel as [|fuel IH]; intros li f f' li' Hli; unfold next_round;
    destruct (_nextMatch TagMessageBlock data li) as [[mr|] li1] eqn:E;
    cbn [scan_blocks]; try discriminate;
    try (intros [= <- <-] Hf; split; [done|];
         by apply (next_match_none TagMessageBlock data li _ eq_refl)).
  pose proof (next_match_later _ _ _ _ Hli E) as (Hb & Hlt & Hle).
  fold (next_round fuel data li1). intros H Hf.
  destruct Hb as (d & v & H3 & Hd & H4 & Hw).
  apply String.eqb_neq in Hw. rewrite Hw, H3, H4 in H.
  cbn [str_arg str_value] in H.
  eapply IH; [|exact H|by apply block_fields_insert]. lia.
Qed.

(** X15: every field of a message block is named [EOB], with the empty
    string, or by one digit, with a string; and when the tag is made its
    pattern is left at the start. *)
Theorem message_block_fields (data : string) (t : Tag) :
  Tag_new TagMessageBlock data = Some (Ok t) →
  block_fields (fields t) ∧ lastIndex t = 0.
Proof.
  unfold Tag_new.
  destruct (_nextMatch TagMessageBlock data 0) as [[mr|] li] eqn:E;
    [|discriminate].
  cbn [_extractFields].
  destruct (scan_blocks _ data (Some mr) li ∅) as [[f li']|] eqn:Hs;
    [|discriminate].
  intros [= <-]. cbn [fields lastIndex].
  apply first_match in E as (Hli & Hm).
  rewrite scan_blocks_Some in Hs.
  assert (block_fields ∅) as H0 by (intros name v; by rewrite lookup_empty).
  destruct (starts_with "-}" data).
  - rewrite Hm in Hs. cbn [String.eqb Ascii.eqb Bool.eqb] in Hs.
    eapply next_round_fields; [|exact Hs|by apply block_fields_EOB]. lia.
  - destruct Hm as (d & v & H3 & Hd & H4 & Hw).
    apply String.eqb_neq in Hw. rewrite Hw, H3, H4 in Hs.
    cbn [str_arg str_value] in Hs.
    eapply next_round_fields; [|exact Hs|by apply block_fields_insert]. lia.
Qed.

Lemma message_block_fields_witness :
  ∃ t, Tag_new TagMessageBlock two_blocks = Some (Ok t)
       ∧ block_fields (fields t) ∧ lastIndex t = 0.
Proof.
  eexists. split; [vm_compute; reflexivity|].
  apply (message_block_fields two_blocks). vm_compute. reflexivity.
Defined.

End MessageBlockFields.

(** ** The year and the range of a date *)

Section DatesMore.
Import DateSpec ExtraSpec.

Lemma digits_value_four a b c d :
  JsString.digits_value (String a (String b (two c d)))
  = 1000 * JsString.digit_value a + 100 * JsString.digit_value b
    + two_value c d.
Proof.
  unfold JsString.digits_value, two, two_value.
  cbn [JsString.digits_value_acc]. lia.
Qed.

(** X16: [parse] reads a year of any number of digits, and moves the
    number to the century of 2000 when it is below 100, however it is
    written: a year of four digits gives the same date as its last two
    digits when it starts with [20], and also when it starts with [00],
    while any other year of four digits is taken as it is. *)
Theorem parse_date_year_forms :
  (∀ year month day,
     JsString.all_digits year = true → year ≠ "" →
     BankDate.parse year month day
     = JsDate.UTC (Some (full_year (JsString.digits_value year)))
                  (JsNumber.sub (JsNumber.parseInt month) (Some 1))
                  (JsNumber.of_digit_string day))
  ∧ (∀ a b month day,
       JsString.is_digit a = true → JsString.is_digit b = true →
       BankDate.parse (String "2" (String "0" (two a b))) month day
       = BankDate.parse (two a b) month day
       ∧ BankDate.parse (String "0" (String "0" (two a b))) month day
         = BankDate.parse (two a b) month day)
  ∧ (∀ year, 100 <= year → full_year year = year).
Proof.
  assert (Hgen : ∀ year month day,
            JsString.all_digits year = true → year ≠ "" →
            BankDate.parse year month day
            = JsDate.UTC (Some (full_year (JsString.digits_value year)))
                         (JsNumber.sub (JsNumber.parseInt month) (Some 1))
                         (JsNumber.of_digit_string day)).
  { intros year month day Ha Hne. unfold BankDate.parse.
    rewrite (proj1 (parseInt_digits year Ha Hne)).
    unfold JsNumber.lt, JsNumber.add, full_year.
    by destruct (JsString.digits_value year <? 100). }
  split; [exact Hgen|]. split.
  - intros a b month day Ha Hb.
    pose proof (two_value_range a b Ha Hb) as Hr.
    assert (JsString.digits_value (two a b) = two_value a b) as Hv
      by (unfold JsString.digits_value, two, two_value;
          cbn [JsString.digits_value_acc]; lia).
    rewrite !Hgen;
      try done; try (cbn [JsString.all_digits two]; by rewrite Ha, Hb).
    rewrite !digits_value_four, Hv.
    change (JsString.digit_value "2") with 2.
    change (JsString.digit_value "0") with 0.
    unfold full_year.
    rewrite (proj2 (Z.ltb_lt (two_value a b) 100)) by lia.
    rewrite (proj2 (Z.ltb_lt (1000 * 0 + 100 * 0 + two_value a b) 100))
      by lia.
    rewrite (proj2 (Z.ltb_ge (1000 * 2 + 100 * 0 + two_value a b) 100))
      by lia.
    split; do 2 f_equal; lia.
  - intros year Hy. unfold full_year.
    by rewrite (proj2 (Z.ltb_ge year 100)).
Qed.

Lemma parse_date_year_forms_witness :
  BankDate.parse "1999" "12" "31"
  = JsDate.UTC (Some (full_year (JsString.digits_value "1999")))
               (JsNumber.sub (JsNumber.parseInt "12") (Some 1))
               (JsNumber.of_digit_string "31")
  ∧ (BankDate.parse (String "2" (String "0" (two "2"%char "3"%char))) "02" "28"
     = BankDate.parse (two "2"%char "3"%char) "02" "28"
     ∧ BankDate.parse (String "0" (String "0" (two "2"%char "3"%char))) "02" "28"
       = BankDate.parse (two "2"%char "3"%char) "02" "28")
  ∧ full_year 1999 = 1999.
Proof.
  split; [|split].
  - apply (proj1 parse_date_year_forms "1999" "12" "31"); done.
  - apply (proj1 (proj2 parse_date_year_forms) "2"%char "3"%char "02" "28");
      reflexivity.
  - apply (proj2 (proj2 parse_date_year_forms) 1999). lia.
Defined.

Lemma days_before_month_range leap mn :
  0 <= leap <= 1 → 0 <= mn <= 11 →
  28 * mn <= JsDate.days_before_month leap mn <= 31 * mn.
Proof.
  intros H Hm.
  assert (mn ∈ [0; 1; 2; 3; 4; 5; 6; 7; 8; 9; 10; 11]) as Hin
    by (set_unfold; lia).
  set_unfold in Hin.
  repeat (destruct Hin as [->|Hin]; [cbn; lia|]). done.
Qed.

Lemma DaysInYear_range y : 365 <= JsDate.DaysInYear y <= 366.
Proof.
  unfold JsDate.DaysInYear.
  destruct (y mod 4 =? 0), (y mod 100 =? 0), (y mod 400 =? 0); cbn; lia.
Qed.

(** X17: the date of three groups of two digits, as the tags give them,
    is never the invalid date, whatever the digits: it is the start of
    the day that [Date.UTC] counts from the year in the century of 2000,
    the month and the day, which lies between the years 1999 and 2108. *)
Theorem parse_date_never_invalid (y1 y2 m1 m2 d1 d2 : ascii) :
  JsString.is_digit y1 = true → JsString.is_digit y2 = true →
  JsString.is_digit m1 = true → JsString.is_digit m2 = true →
  JsString.is_digit d1 = true → JsString.is_digit d2 = true →
  ∃ day,
    BankDate.parse (two y1 y2) (two m1 m2) (two d1 d2)
    = Some (day * JsDate.msPerDay)
    ∧ day = JsDate.MakeDay (2000 + two_value y1 y2) (two_value m1 m2 - 1)
              (two_value d1 d2)
    ∧ JsDate.DayFromYear 1999 <= day < JsDate.DayFromYear 2108.
Proof.
  intros Hy1 Hy2 Hm1 Hm2 Hd1 Hd2.
  rewrite parse_two by done.
  rewrite parseInt_two, of_digit_string_two by done.
  pose proof (two_value_range y1 y2 Hy1 Hy2) as Hy.
  pose proof (two_value_range m1 m2 Hm1 Hm2) as Hm.
  pose proof (two_value_range d1 d2 Hd1 Hd2) as Hd.
  generalize dependent (two_value y1 y2). intros y Hy.
  generalize dependent (two_value m1 m2). intros mo Hm.
  generalize dependent (two_value d1 d2). intros d Hd.
  eexists. split; [|split; [reflexivity|]].
  - unfold JsNumber.sub, JsDate.UTC.
    rewrite (proj2 (andb_false_iff _ _))
      by (right; apply Z.leb_gt; lia).
    unfold JsDate.TimeClip.
    rewrite (proj2 (Z.ltb_ge _ _)); [done|].
    unfold JsDate.MakeDay, JsDate.DayFromYear, JsDate.msPerDay.
    pose proof (days_before_month_range
                  (JsDate.DaysInYear (2000 + y + (mo - 1) / 12) - 365)
                  ((mo - 1) mod 12)
                  ltac:(pose proof (DaysInYear_range
                                      (2000 + y + (mo - 1) / 12)); lia)
                  ltac:(pose proof (Z.mod_pos_bound (mo - 1) 12); lia)).
    Z.div_mod_to_equations. lia.
  - unfold JsDate.MakeDay, JsDate.DayFromYear.
    pose proof (days_before_month_range
                  (JsDate.DaysInYear (2000 + y + (mo - 1) / 12) - 365)
                  ((mo - 1) mod 12)
                  ltac:(pose proof (DaysInYear_range
                                      (2000 + y + (mo - 1) / 12)); lia)
                  ltac:(pose proof (Z.mod_pos_bound (mo - 1) 12); lia)).
    Z.div_mod_to_equations. lia.
Qed.

Lemma parse_date_never_invalid_witness :
  ∃ day,
    BankDate.parse (two "0"%char "0"%char) (two "0"%char "0"%char) (two "0"%char "0"%char)
    = Some (day * JsDate.msPerDay)
    ∧ day = JsDate.MakeDay (2000 + two_value "0"%char "0"%char) (two_value "0"%char "0"%char - 1)
              (two_value "0"%char "0"%char)
    ∧ JsDate.DayFromYear 1999 <= day < JsDate.DayFromYear 2108.
Proof.
  apply (parse_date_never_invalid "0"%char "0"%char "0"%char "0"%char
           "0"%char "0"%char); reflexivity.
Defined.

End DatesMore.

(** ** The scan of the message block *)

Section BlockScan.
Import Regex RegexSpec TagFactory TagSpec BlockSpec.
Local Open Scope nat_scope.

Lemma head_eq i s cs k :
  m (lit "{" ⋅ Grp 3 (Chr digit) ⋅ lit ":") i s cs k
  = match head_of s with
    | Some (d, rest) => k (S (S (S i))) rest (<[3 := String d ""]> cs)
    | None => None
    end.
Proof.
  rewrite !m_Seq. unfold lit, head_of.
  destruct s as [|b [|d [|c rest]]]; try done.
  - rewrite m_Chr. by destruct (Ascii.eqb "{" b).
  - rewrite m_Chr. destruct (Ascii.eqb "{" b); [|done].
    rewrite m_Grp, m_Chr. by destruct (digit d).
  - rewrite m_Chr, (Ascii.eqb_sym b "{").
    destruct (Ascii.eqb "{" b); [|done].
    rewrite m_Grp, m_Chr. destruct (digit d); [|done].
    rewrite m_Chr, (Ascii.eqb_sym c ":").
    destruct (Ascii.eqb ":" c); [|done].
    replace (S (S i) - S i) with 1 by lia. done.
Qed.

Lemma m_Look r i s cs k :
  m (Look r) i s cs k
  = match m r i s cs (λ i' s' cs', Some (i', s', cs')) with
    | Some (_, _, cs') => k i s cs'
    | None => None
    end.
Proof. reflexivity. Qed.

Lemma m_Eol i s cs k :
  m Eol i s cs k = if String.eqb s "" then k i s cs else None.
Proof. reflexivity. Qed.

Lemma head6_eq i s cs :
  m (Grp 6 (lit "{" ⋅ Chr digit ⋅ lit ":")) i s cs
    (λ i' s' cs', Some (i', s', cs'))
  = match head_of s with
    | Some (d, rest) => Some (S (S (S i)), rest, <[6 := take 3 s]> cs)
    | None => None
    end.
Proof.
  rewrite m_Grp, !m_Seq. unfold lit, head_of.
  destruct s as [|b [|d [|c rest]]]; try done.
  - rewrite m_Chr. by destruct (Ascii.eqb "{" b).
  - rewrite m_Chr. destruct (Ascii.eqb "{" b); [|done].
    rewrite m_Chr. by destruct (digit d).
  - rewrite m_Chr, (Ascii.eqb_sym b "{").
    destruct (Ascii.eqb "{" b); [|done].
    rewrite m_Chr. destruct (digit d); [|done].
    rewrite m_Chr, (Ascii.eqb_sym c ":").
    destruct (Ascii.eqb ":" c); [|done].
    replace (S (S (S i)) - i) with 3 by lia. done.
Qed.

(** The lookahead of the end of a block. *)
Lemma look_eq i s cs k :
  ∃ cs', (∀ n, n ≠ 6 → cs' !! n = cs !! n)
         ∧ m (Look (Grp 6 (lit "{" ⋅ Chr digit ⋅ lit ":") ∣ Eol)) i s cs k
           = if String.eqb s "" || bool_decide (is_Some (head_of s))
             then k i s cs' else None.
Proof.
  rewrite m_Look, m_Alt, head6_eq, m_Eol.
  destruct (head_of s) as [[d rest]|] eqn:Hh.
  - rewrite bool_decide_eq_true_2 by done. rewrite orb_true_r.
    eexists. split; [|reflexivity].
    intros n Hn. by rewrite lookup_insert_ne.
  - rewrite bool_decide_eq_false_2 by (by intros [? ?]).
    rewrite orb_false_r. exists cs. split; [done|].
    by destruct (String.eqb s "").
Qed.

(** The end of a block: the group 5. *)
Lemma closing_eq i s cs k :
  ∃ cs', (∀ n, n ∉ [5; 6] → cs' !! n = cs !! n)
         ∧ m (Grp 5 (Eol ∣ lit "}"
                           ⋅ Look (Grp 6 (lit "{" ⋅ Chr digit ⋅ lit ":")
                                   ∣ Eol)))
             i s cs k
           = if closes s
             then k (i + (if String.eqb s "" then 0 else 1))
                    (skip (if String.eqb s "" then 0 else 1) s) cs'
             else None.
Proof.
  rewrite m_Grp, m_Alt, m_Eol. destruct s as [|c rest].
  - exists (<[5 := ""]> cs). split.
    + intros n Hn. rewrite lookup_insert_ne; [done|set_solver].
    + cbn [String.eqb closes skip]. rewrite Nat.sub_diag, Nat.add_0_r.
      cbn [take]. by destruct (k i "" _).
  - cbn [String.eqb closes skip]. rewrite m_Seq. unfold lit at 1.
    rewrite m_Chr, (Ascii.eqb_sym c "}").
    destruct (Ascii.eqb "}" c); [|by exists cs].
    cbn [andb].
    destruct (look_eq (S i) rest cs
                (λ i' s' cs', k i' s' (<[5 := take (i' - i) (String c rest)]> cs')))
      as (cs' & Hcs & ->).
    destruct (String.eqb rest "" || _); [|by exists cs].
    replace (S i - i) with 1 by lia. rewrite Nat.add_1_r.
    eexists. split; [|reflexivity].
    intros n Hn. rewrite lookup_insert_ne by set_solver.
    apply Hcs. set_solver.
Qed.

Lemma closes_spec s :
  closes s = true →
  s = "" ∨ ∃ rest, s = String "}" rest
                   ∧ (rest = "" ∨ is_Some (head_of rest)).
Proof.
  destruct s as [|c rest]; [by left|]. cbn [closes].
  intros [Hc Hr]%andb_true_iff. right. exists rest.
  apply Ascii.eqb_eq in Hc as ->. split; [done|].
  apply orb_true_iff in Hr as [Hr|Hr].
  - left. by apply String.eqb_eq.
  - right. by apply bool_decide_eq_true in Hr.
Qed.

(** What is read as the content of a block is at the start of the
    string, and the block ends after it. *)
Lemma read_content_spec : ∀ s x,
  read_content s = Some x →
  take (String.length x) s = x ∧ closes (skip (String.length x) s) = true.
Proof.
  induction s as [|c rest IH]; intros x; cbn [read_content].
  - by intros [= <-].
  - destruct (closes (String c rest)) eqn:Hc; [by intros [= <-]|].
    destruct (dot c); [|discriminate].
    destruct (read_content rest) as [y|] eqn:Hy; [|discriminate].
    intros [= <-]. cbn [String.length take skip].
    destruct (IH y eq_refl) as [-> ->]. done.
Qed.

(** The lazy repetition of the content of a block stops at the first
    place where the block ends. *)
Lemma lazy_content K :
  (∀ i s cs, closes s = false → K i s cs = None) →
  (∀ i s cs, closes s = true → is_Some (K i s cs)) →
  ∀ fuel s i cs,
    String.length s ≤ fuel →
    repeat (m (Chr dot)) [] false fuel 0 None i s cs K
    = match read_content s with
      | Some x => K (i + String.length x) (skip (String.length x) s) cs
      | None => None
      end.
Proof.
  intros HK0 HK1. induction fuel as [|fuel IH]; intros s i cs Hf.
  - destruct s; [|cbn in Hf; lia]. cbn. by rewrite Nat.add_0_r.
  - cbn [repeat]. rewrite bool_decide_eq_false_2 by done.
    cbn [Nat.eqb negb andb].
    destruct s as [|c rest].
    + cbn [read_content String.length skip]. rewrite Nat.add_0_r.
      destruct (HK1 i "" cs eq_refl) as [z ->]. done.
    + cbn [read_content].
      destruct (closes (String c rest)) eqn:Hc.
      * cbn [String.length skip]. rewrite Nat.add_0_r.
        destruct (HK1 i (String c rest) cs Hc) as [z ->]. done.
      * rewrite (HK0 _ _ _ Hc). rewrite m_Chr.
        destruct (dot c); [|done].
        rewrite (proj2 (Nat.eqb_neq (S i) i)) by lia.
        cbn [clear foldr Nat.pred dec_hi fmap option_fmap option_map].
        rewrite IH by (cbn in Hf; lia).
        destruct (read_content rest) as [x|]; [|done].
        cbn [fmap option_fmap option_map String.length skip].
        by rewrite Nat.add_succ_r.
Qed.

Lemma head_of_spec s d rest :
  head_of s = Some (d, rest) →
  s = String "{" (String d (String ":" rest)) ∧ digit d = true.
Proof.
  unfold head_of. destruct s as [|b [|d' [|c r]]]; try discriminate.
  destruct (Ascii.eqb_spec b "{") as [->|]; [|discriminate].
  destruct (digit d') eqn:Hd; [|discriminate].
  destruct (Ascii.eqb_spec c ":") as [->|]; [|discriminate].
  by intros [= <- <-].
Qed.

(** A match of the pattern at an index is the block that starts there,
    when the terminator is out of the question. *)
Lemma block_match i s :
  i ≠ 0 ∨ starts_with "-}" s = false →
  match read_block s with
  | Some (d, x, n) =>
      ∃ mr, match_at PATTERN_MessageBlock i s = Some mr
            ∧ group mr !! 3 = Some (String d "")
            ∧ group mr !! 4 = Some x
            ∧ end_index mr = i + n
            ∧ whole mr ≠ "-}"
  | None => match_at PATTERN_MessageBlock i s = None
  end.
Proof.
  intros Hi. unfold match_at, PATTERN_MessageBlock. rewrite m_Alt.
  assert (m (Grp 1 (Bol ⋅ lit "-" ⋅ lit "}")) i s ∅
            (λ i' s' cs', Some (i', s', cs')) = None) as ->.
  { destruct (m (Grp 1 _) i s ∅ _) as [z|] eqn:E1; [exfalso|done].
    apply terminator_match in E1 as (-> & rest & -> & _).
    by destruct Hi. }
  rewrite m_Grp. do 2 rewrite m_Seq. rewrite head_eq.
  unfold read_block.
  destruct (head_of s) as [[d rest]|] eqn:Hh; [|done].
  apply head_of_spec in Hh as [-> Hd].
  rewrite m_Grp. unfold star_lazy. rewrite m_Rep. cbn [groups Nat.add].
  rewrite lazy_content; [| | |done].
  2:{ intros i' s' cs' Hc. cbn beta.
      match goal with
      | |- m ?r ?a ?b ?c ?k = None =>
          destruct (closing_eq a b c k) as (cs2 & _ & ->)
      end.
      by rewrite Hc. }
  2:{ intros i' s' cs' Hc. cbn beta.
      match goal with
      | |- is_Some (m ?r ?a ?b ?c ?k) =>
          destruct (closing_eq a b c k) as (cs2 & _ & ->)
      end.
      by rewrite Hc. }
  destruct (read_content rest) as [x|] eqn:Hx; [|done].
  destruct (read_content_spec _ _ Hx) as [Ht Hc].
  match goal with
  | |- context [m ?r ?a ?b ?c ?k] =>
      destruct (closing_eq a b c k) as (cs2 & Hcs & ->)
  end.
  rewrite Hc. eexists. split; [reflexivity|]. cbn [group end_index whole].
  rewrite !lookup_insert_ne by done.
  rewrite !Hcs by (set_unfold; lia).
  rewrite lookup_insert_ne by done. rewrite !lookup_insert_eq.
  split; [done|]. split.
  { f_equal. rewrite <- Ht at 2. f_equal. lia. }
  split; [lia|].
  match goal with
  | |- take ?n _ ≠ _ => destruct n eqn:En; [lia|]
  end.
  cbn [take]. discriminate.
Qed.

Lemma scan_text_skip : ∀ n s, scan_text n s = scan_text 0 (skip n s).
Proof.
  induction n as [|n IH]; intros s; [by destruct s|].
  destruct s as [|c rest]; [done|]. cbn [scan_text skip]. apply IH.
Qed.

Lemma skip_length : ∀ n s,
  String.length (skip n s) = String.length s - n.
Proof.
  induction n as [|n IH]; intros [|c s]; cbn [skip String.length];
    try lia.
  apply IH.
Qed.

Lemma read_block_length s d x n :
  read_block s = Some (d, x, n) → 3 ≤ n ≤ String.length s.
Proof.
  unfold read_block.
  destruct (head_of s) as [[d' rest]|] eqn:Hh; [|discriminate].
  apply head_of_spec in Hh as [-> _].
  destruct (read_content rest) as [y|] eqn:Hy; [|discriminate].
  intros [= <- <- <-]. cbn [String.length].
  destruct (read_content_spec _ _ Hy) as [Ht _].
  pose proof (skip_length (String.length y) rest) as Hs.
  assert (String.length y ≤ String.length rest) as Hle.
  { rewrite <- Ht at 1. clear. revert rest.
    induction (String.length y) as [|n IH]; intros [|c r];
      cbn [take String.length]; try lia.
    specialize (IH r). lia. }
  destruct (String.eqb_spec (skip (String.length y) rest) "") as [E|E];
    [lia|].
  assert (String.length (skip (String.length y) rest) ≠ 0)
    by (by destruct (skip (String.length y) rest)).
  lia.
Qed.

(** The first match that a search finds is the first block of the
    text, and the rest of the blocks are those after it. *)
Lemma search_scan : ∀ s i,
  i ≠ 0 ∨ starts_with "-}" s = false →
  match search PATTERN_MessageBlock i s with
  | Some mr =>
      ∃ d x n,
        scan_text 0 s = (d, x) :: scan_text 0 (skip n s)
        ∧ 0 < n ≤ String.length s
        ∧ end_index mr = i + n
        ∧ group mr !! 3 = Some (String d "")
        ∧ group mr !! 4 = Some x
        ∧ whole mr ≠ "-}"
  | None => scan_text 0 s = []
  end.
Proof.
  induction s as [|c rest IH]; intros i Hi; rewrite search_eq;
    pose proof (block_match i _ Hi) as Hb.
  - cbn in Hb. by rewrite Hb.
  - cbn [scan_text].
    destruct (read_block (String c rest)) as [[[d x] n]|] eqn:Hr.
    + destruct Hb as (mr & -> & H3 & H4 & He & Hw).
      pose proof (read_block_length _ _ _ _ Hr) as Hn.
      exists d, x, n. split.
      { destruct n as [|n]; [lia|]. cbn [Nat.pred skip].
        by rewrite scan_text_skip. }
      repeat split; try done; lia.
    + rewrite Hb. specialize (IH (S i) (or_introl (Nat.neq_succ_0 i))).
      destruct (search _ (S i) rest) as [mr|]; [|done].
      destruct IH as (d & x & n & Hs & Hn & He & H3 & H4 & Hw).
      exists d, x, (S n). cbn [skip String.length].
      repeat split; try done; lia.
Qed.

Lemma drop_skip : ∀ li data s n,
  drop li data = Some s → n ≤ String.length s →
  drop (li + n) data = Some (skip n s).
Proof.
  induction li as [|li IH]; intros data s n.
  - cbn [drop Nat.add]. intros [= <-]. revert data.
    induction n as [|n IHn]; intros [|c r]; cbn [drop skip String.length];
      try done; try lia.
    intros Hn. apply IHn. lia.
  - destruct data as [|c r]; [done|]. cbn [drop Nat.add]. apply IH.
Qed.

Lemma drop_length : ∀ li data s,
  drop li data = Some s → String.length s ≤ String.length data.
Proof.
  induction li as [|li IH]; intros [|c r] s; cbn [drop]; try done.
  - by intros [= <-].
  - by intros [= <-].
  - intros H. apply IH in H. cbn [String.length]. lia.
Qed.

(** The rounds after the first set the fields of the blocks of the
    rest of the text, and leave the pattern at the start. *)
Lemma next_round_scan data : ∀ fuel li f s,
  0 < li → drop li data = Some s → String.length s ≤ fuel →
  next_round fuel data li f
  = Some (foldl set_field f (scan_text 0 s), 0).
Proof.
  induction fuel as [|fuel IH]; intros li f s Hli Hd Hf;
    unfold next_round, _nextMatch; cbn [global PATTERN];
    unfold exec_global; rewrite Hd;
    pose proof (search_scan s li (or_introl (Nat.neq_sym _ _
                  (Nat.lt_neq _ _ Hli)))) as Hs;
    destruct (search PATTERN_MessageBlock li s) as [mr|].
  - destruct Hs as (d & x & n & _ & Hn & _). lia.
  - by rewrite Hs.
  - destruct Hs as (d & x & n & Hs & Hn & He & H3 & H4 & Hw).
    rewrite scan_blocks_Some.
    apply String.eqb_neq in Hw. rewrite Hw, H3, H4.
    cbn [str_arg str_value].
    rewrite (IH (end_index mr) _ (skip n s)).
    + by rewrite Hs.
    + lia.
    + rewrite He. apply drop_skip; [done|lia].
    + rewrite skip_length. lia.
  - by rewrite Hs.
Qed.

(** The loop of the message block gives the fields of the record of the
    data. *)
Lemma scan_blocks_record data mr li :
  _nextMatch TagMessageBlock data 0 = (Some mr, li) →
  ∃ f, block_record data = Some f
       ∧ scan_blocks (S (String.length data)) data (Some mr) li ∅
         = Some (f, 0).
Proof.
  unfold _nextMatch, exec_global. cbn [global PATTERN drop].
  unfold block_record, blocks.
  destruct (starts_with "-}" data) eqn:Hst.
  - apply starts_with_terminator in Hst as (rest & ->).
    rewrite search_eq. cbn -[scan_blocks scan_text]. intros [= <- <-].
    eexists. split; [reflexivity|].
    rewrite scan_blocks_Some. cbn [whole String.eqb Ascii.eqb Bool.eqb].
    rewrite (next_round_scan _ _ 2 _ rest); [|lia|done|cbn; lia].
    by rewrite insert_empty.
  - pose proof (search_scan data 0 (or_intror Hst)) as Hs.
    destruct (search PATTERN_MessageBlock 0 data) as [mr'|];
      [|discriminate].
    intros [= -> <-].
    destruct Hs as (d & x & n & Hs & Hn & He & H3 & H4 & Hw).
    rewrite Hs. eexists. split; [reflexivity|].
    rewrite scan_blocks_Some.
    apply String.eqb_neq in Hw. rewrite Hw, H3, H4.
    cbn [str_arg str_value].
    rewrite (next_round_scan _ _ (end_index mr) _ (skip n data)).
    + done.
    + lia.
    + rewrite He. apply (drop_skip 0); [done|lia].
    + rewrite skip_length. lia.
Qed.

Lemma no_match_no_record data :
  (_nextMatch TagMessageBlock data 0).1 = None → block_record data = None.
Proof.
  unfold _nextMatch, exec_global. cbn [global PATTERN drop].
  unfold block_record, blocks.
  destruct (starts_with "-}" data) eqn:Hst.
  - apply starts_with_terminator in Hst as (rest & ->).
    rewrite search_eq. cbn -[scan_text]. discriminate.
  - pose proof (search_scan data 0 (or_intror Hst)) as Hs.
    destruct (search PATTERN_MessageBlock 0 data) as [mr'|];
      [discriminate|].
    by rewrite Hs.
Qed.

Lemma set_fields_other bs : ∀ (f : gmap string value) name,
  (∀ d, name ≠ String d "") →
  foldl set_field f bs !! name = f !! name.
Proof.
  induction bs as [|b bs IH]; intros f name Hn; [done|].
  cbn [foldl]. rewrite IH by done. unfold set_field.
  by rewrite lookup_insert_ne.
Qed.

(** The field of a digit is the content of the last block of the
    digit. *)
Lemma set_fields_lookup bs : ∀ (f : gmap string value) d,
  foldl set_field f bs !! String d ""
  = match last (filter (λ b, b.1 = d) bs) with
    | Some b => Some (VStr b.2)
    | None => f !! String d ""
    end.
Proof.
  induction bs as [|b bs IH] using rev_ind; intros f d; [done|].
  rewrite foldl_app, filter_app. cbn [foldl]. unfold set_field at 1.
  destruct (decide (b.1 = d)) as [<-|Hne].
  - rewrite lookup_insert_eq.
    rewrite filter_cons_True by done. rewrite filter_nil.
    by rewrite last_snoc.
  - rewrite lookup_insert_ne by congruence.
    rewrite filter_cons_False by done.
    rewrite filter_nil, app_nil_r. apply IH.
Qed.

Lemma set_fields_strings bs : ∀ f : gmap string value,
  all_strings f → all_strings (foldl set_field f bs).
Proof.
  induction bs as [|b bs IH]; intros f Hf; [done|].
  cbn [foldl]. apply IH. intros name v. unfold set_field.
  rewrite lookup_insert. case_decide; [|by apply Hf].
  intros [= <-]. eauto.
Qed.

Lemma block_record_strings data f :
  block_record data = Some f → all_strings f.
Proof.
  unfold block_record.
  destruct (starts_with "-}" data).
  - intros [= <-]. apply set_fields_strings.
    intros name v [<- <-]%lookup_singleton_Some. eauto.
  - destruct (blocks data) as [|b bs]; [discriminate|].
    intros [= <-]. apply set_fields_strings.
    intros name v. unfold set_field. rewrite lookup_insert.
    case_decide; [intros [= <-]; eauto|by rewrite lookup_empty].
Qed.

(** The fields of the record: [EOB], and the last block of each
    digit. *)
Lemma block_record_fields data f :
  block_record data = Some f →
  f !! "EOB" = (if starts_with "-}" data then Some (VStr "") else None)
  ∧ ∀ d, f !! String d ""
         = (λ b, VStr b.2) <$> last (filter (λ b, b.1 = d) (blocks data)).
Proof.
  unfold block_record.
  destruct (starts_with "-}" data).
  - intros [= <-]. split.
    + rewrite set_fields_other by done. by rewrite lookup_singleton_eq.
    + intros d. rewrite set_fields_lookup.
      destruct (last _); [done|]. by rewrite lookup_singleton_ne.
  - destruct (blocks data) as [|b bs] eqn:Hb; [discriminate|].
    intros [= <-].
    change (foldl set_field (set_field ∅ b) bs)
      with (foldl set_field ∅ (b :: bs)).
    split.
    + rewrite set_fields_other by done. by rewrite lookup_empty.
    + intros d. rewrite set_fields_lookup.
      destruct (last _); [done|]. by rewrite lookup_empty.
Qed.

(** The construction of a message block gives the tag of the blocks of
    the data. *)
Lemma Tag_new_block data :
  Tag_new TagMessageBlock data = Some (block_tag data).
Proof.
  unfold Tag_new, block_tag.
  destruct (_nextMatch TagMessageBlock data 0) as [[mr|] li] eqn:E.
  - destruct (scan_blocks_record _ _ _ E) as (f & Hf & Hs).
    cbn [_extractFields]. rewrite Hs, Hf. do 4 f_equal.
    apply bool_decide_ext. unfold get_field.
    destruct (f !! "1") as [v|] eqn:E1.
    + destruct (block_record_strings _ _ Hf _ _ E1) as [x ->].
      split; [eauto|done].
    + split; [done|]. by intros [? ?].
  - rewrite no_match_no_record; [done|]. by rewrite E.
Qed.

Lemma last_filter_is_Some {A} (P : A → Prop) `{∀ x, Decision (P x)}
    (l : list A) :
  is_Some (last (filter P l)) ↔ ∃ x, x ∈ l ∧ P x.
Proof.
  rewrite last_is_Some. split.
  - intros Hne. destruct (filter P l) as [|x l'] eqn:E; [done|].
    assert (x ∈ filter P l) as Hin by (rewrite E; by left).
    apply list_elem_of_filter in Hin as [HP Hx]. by exists x.
  - intros (x & Hx & HP) E.
    assert (x ∈ filter P l) as Hin by (by apply list_elem_of_filter).
    rewrite E in Hin. by apply elem_of_nil in Hin.
Qed.

(** C2, as the code has it: the text [{1:F01BANKXXXX}{2:abc}-}] gives
    the fields [1], with [F01BANKXXXX], and [2], with [abc}-], no field
    [EOB], and [isStarting] true.  In general the construction of a
    message block returns for every text, and it scans the whole text:
    from left to right it takes every block, a brace, a digit, a colon
    and the content up to the first closing brace that the head of a
    block or the end of the text follows, or up to the end of the text,
    and goes on after the block; the terminator counts at the start of
    the text only.  The field of a digit is the content of the last
    block of the digit, the field [EOB] is set, to the empty string,
    exactly when the text starts with the terminator, [isStarting] says
    whether there is a block of the digit 1, and a text with neither
    block nor terminator at its start gives the error of a mismatch. *)
Theorem message_block_scan :
  (∀ data, createTag (Str "MB") None data = Some (block_tag data))
  ∧ (∀ data f,
       block_record data = Some f →
       f !! "EOB" = (if starts_with "-}" data then Some (VStr "") else None)
       ∧ (∀ d, f !! String d ""
               = (λ b, VStr b.2)
                   <$> last (filter (λ b, b.1 = d) (blocks data)))
       ∧ (is_Some (f !! "1") ↔ ∃ x, ("1"%char, x) ∈ blocks data))
  ∧ (∀ data, ∃ r, createTag (Str "MB") None data = Some r)
  ∧ (∀ data t,
       createTag (Str "MB") None data = Some (Ok t) →
       fields t !! "EOB"
       = (if starts_with "-}" data then Some (VStr "") else None)
       ∧ isStarting t = Some (bool_decide (is_Some (fields t !! "1"))))
  ∧ blocks two_blocks = [("1"%char, "F01BANKXXXX"); ("2"%char, "abc}-")]
  ∧ createTag (Str "MB") None two_blocks
    = Some (Ok (MkTag (Str "MB") two_blocks
                  (<["1" := VStr "F01BANKXXXX"]> {["2" := VStr "abc}-"]})
                  (Some true) 0)).
Proof.
  assert (∀ data, createTag (Str "MB") None data = Some (block_tag data))
    as Hc.
  { intros data. rewrite (createTag_key _ _ _ TagMessageBlock) by done.
    apply Tag_new_block. }
  split; [exact Hc|]. split; [|split; [|split; [|split]]].
  - intros data f Hf.
    destruct (block_record_fields _ _ Hf) as [HE Hd].
    split; [done|]. split; [done|].
    rewrite (Hd "1"%char), fmap_is_Some, last_filter_is_Some. split.
    + intros ([d x] & Hin & Hx). cbn in Hx. subst d. by exists x.
    + intros (x & Hin). by exists ("1"%char, x).
  - intros data. rewrite Hc. eauto.
  - intros data t. rewrite Hc. unfold block_tag.
    destruct (block_record data) as [f|] eqn:Hf; [|discriminate].
    intros [= <-]. cbn [fields isStarting].
    by destruct (block_record_fields _ _ Hf) as [-> _].
  - by vm_compute.
  - vm_compute. reflexivity.
Qed.

Lemma message_block_scan_witness :
  fields (MkTag (Str "MB") two_blocks
            (<["1" := VStr "F01BANKXXXX"]> {["2" := VStr "abc}-"]})
            (Some true) 0) !! "EOB"
  = (if starts_with "-}" two_blocks then Some (VStr "") else None)
  ∧ Some true
    = Some (bool_decide
              (is_Some ((<["1" := VStr "F01BANKXXXX"]>
                         {["2" := VStr "abc}-"]} : gmap string value)
                        !! "1"))).
Proof.
  exact (proj1 (proj2 (proj2 (proj2 message_block_scan))) two_blocks _
           (proj2 (proj2 (proj2 (proj2 (proj2 message_block_scan)))))).
Defined.

End BlockScan.

(** ** What the construction of a tag gives *)

Section Outcome.
Import Regex RegexSpec TagFactory TagSpec BlockSpec ExtractionSpec ExtraSpec.
Local Open Scope nat_scope.

Lemma reaches_frame gs i s cs k z :
  reaches gs i s cs k z → sets_frame [] gs cs k z.
Proof.
  intros (i' & s' & cs' & Hk & _ & Hc). exists i', s', cs'.
  split; [done|]. split; [|done]. intros n Hn. by apply elem_of_nil in Hn.
Qed.

Lemma repeat_sets step gs sts greedy :
  (∀ i s cs k z, step i s cs k = Some z → sets_frame sts gs cs k z) →
  ∀ fuel lo hi i s cs k z,
    lo ≤ fuel → (∀ h, hi = Some h → lo ≤ h) →
    repeat step gs greedy fuel lo hi i s cs k = Some z →
    ∃ i' s' cs',
      k i' s' cs' = Some z
      ∧ (1 ≤ lo ∨ (∀ n, n ∈ sts → is_Some (cs !! n)) →
         ∀ n, n ∈ sts → is_Some (cs' !! n))
      ∧ ∀ n, n ∉ gs → cs' !! n = cs !! n.
Proof.
  intros Hstep.
  induction fuel as [|fuel IH]; intros lo hi i s cs k z Hlo Hhi H.
  - exists i, s, cs. split; [done|]. split; [|done].
    intros [?|?]; [lia|done].
  - cbn [repeat] in H.
    assert (Hk : lo = 0 → k i s cs = Some z →
                 ∃ i' s' cs',
                   k i' s' cs' = Some z
                   ∧ (1 ≤ lo ∨ (∀ n, n ∈ sts → is_Some (cs !! n)) →
                      ∀ n, n ∈ sts → is_Some (cs' !! n))
                   ∧ ∀ n, n ∉ gs → cs' !! n = cs !! n).
    { intros -> Hz. exists i, s, cs. split; [done|]. split; [|done].
      intros [?|?]; [lia|done]. }
    assert (Hit : step i s (clear gs cs)
                    (λ i' s' cs',
                       if (lo =? 0) && (i' =? i) then None
                       else repeat step gs greedy fuel (Nat.pred lo)
                                   (dec_hi hi) i' s' cs' k) = Some z →
                  ∃ i' s' cs',
                    k i' s' cs' = Some z
                    ∧ (1 ≤ lo ∨ (∀ n, n ∈ sts → is_Some (cs !! n)) →
                       ∀ n, n ∈ sts → is_Some (cs' !! n))
                    ∧ ∀ n, n ∉ gs → cs' !! n = cs !! n).
    { intros Hz. apply Hstep in Hz as (i1 & s1 & cs1 & Hd & Hs1 & Hc).
      destruct ((lo =? 0) && (i1 =? i)); [discriminate|].
      apply IH in Hd as (i2 & s2 & cs2 & Hk2 & Hs2 & Hc2); [|lia|].
      2:{ intros h Hd'. destruct hi as [h'|]; [|done]. cbn in Hd'.
          injection Hd' as <-. specialize (Hhi h' eq_refl). lia. }
      exists i2, s2, cs2. split; [done|]. split.
      - intros _. apply Hs2. by right.
      - intros n Hn. rewrite Hc2, Hc by done. by apply clear_lookup. }
    case_bool_decide as H0.
    { apply Hk; [|done]. specialize (Hhi 0 H0). lia. }
    destruct (lo =? 0) eqn:El; cbn [negb] in H; [|by apply Hit].
    apply Nat.eqb_eq in El.
    destruct greedy.
    + destruct (step i s (clear gs cs) _) as [z'|] eqn:E.
      * simplify_eq. by apply Hit.
      * by apply Hk.
    + destruct (k i s cs) as [z'|] eqn:E.
      * simplify_eq. by apply Hk.
      * by apply Hit.
Qed.

(** A match sets the groups that every match of the expression sets,
    and no group of another expression. *)
Lemma m_sets r : ∀ i s cs k z,
  m r i s cs k = Some z → sets_frame (sets r) (groups r) cs k z.
Proof.
  induction r as [|p| | |r1 IH1 r2 IH2|r1 IH1 r2 IH2|lo hi greedy r1 IH1
                  |g r1 IH1|r1 IH1]; intros i s cs k z H;
    try (apply (reaches_frame _ i s), (m_reaches _ _ _ _ _ _ H)).
  - rewrite m_Seq in H.
    apply IH1 in H as (i1 & s1 & cs1 & H & Hs1 & Hc1).
    apply IH2 in H as (i2 & s2 & cs2 & H & Hs2 & Hc2).
    exists i2, s2, cs2. split; [done|]. split.
    + intros n. cbn [sets]. rewrite elem_of_app, list_elem_of_filter.
      intros [[Hn2 Hn1]|Hn]; [|by apply Hs2].
      rewrite Hc2 by done. by apply Hs1.
    + intros n Hn. cbn [groups] in Hn. rewrite Hc2, Hc1; set_solver.
  - cbn [sets].
    destruct ((1 <=? lo)
              && match hi with Some h => lo <=? h | None => true end)
      eqn:Hc;
      [|apply (reaches_frame _ i s), (m_reaches _ _ _ _ _ _ H)].
    apply andb_true_iff in Hc as [Hlo Hhi].
    apply Nat.leb_le in Hlo.
    rewrite m_Rep in H.
    apply (repeat_sets (m r1) (groups r1) (sets r1)) in H
      as (i' & s' & cs' & Hk & Hs & Hf); [|exact IH1|lia|].
    2:{ intros h ->. by apply Nat.leb_le. }
    exists i', s', cs'. split; [done|]. split; [|done].
    apply Hs. by left.
  - rewrite m_Grp in H.
    apply IH1 in H as (i1 & s1 & cs1 & H & Hs1 & Hc1).
    eexists i1, s1, _. split; [exact H|]. split.
    + intros n Hn. cbn [sets] in Hn. apply elem_of_cons in Hn as [->|Hn].
      * by rewrite lookup_insert_eq.
      * rewrite lookup_insert. case_decide; [done|]. by apply Hs1.
    + intros n Hn. cbn [groups] in Hn.
      rewrite lookup_insert_ne by set_solver. apply Hc1. set_solver.
Qed.

Lemma match_sets r i s mr n :
  match_at r i s = Some mr → n ∈ sets r → is_Some (group mr !! n).
Proof.
  unfold match_at.
  destruct (m r i s ∅ _) as [[[i' s'] cs']|] eqn:E; [|discriminate].
  intros [= <-] Hn. cbn [group].
  apply m_sets in E as (i1 & s1 & cs1 & [= <- <- <-] & Hs & _).
  by apply Hs.
Qed.

Lemma reversal_mark mark :
  bool_decide (JsString.at_index mark 0 = Some "R") = starts_with "R" mark.
Proof.
  destruct mark as [|c tl]; [done|].
  unfold JsString.at_index, starts_with. cbn [String.get String.length take].
  cbn [String.eqb]. destruct (Ascii.eqb_spec c "R") as [->|Hc].
  - by rewrite bool_decide_eq_true_2.
  - rewrite bool_decide_eq_false_2; [done|]. by intros [= ->].
Qed.

Ltac group_of Hsets n x H :=
  destruct (Hsets n) as [x H];
  [apply (bool_decide_unpack _); vm_compute; reflexivity|].

(** The construction of a tag gives the outcome of its class. *)
Lemma Tag_new_outcome c data : Tag_new c data = Some (outcome c data).
Proof.
  destruct (decide (c = TagMessageBlock)) as [->|Hc];
    [apply Tag_new_block|].
  assert (global c = false) as Hg by (by destruct c).
  assert (anchored (PATTERN c) = true) as Ha by (by destruct c).
  rewrite Tag_new_eq by done.
  assert (outcome c data
          = match exec (PATTERN c) data with
            | None =>
                Throw ("Cannot parse tag " ++ jsval_toString (ID c)
                       ++ ": " ++ data)
            | Some mr =>
                match value_error c mr with
                | Some msg => Throw msg
                | None => Ok (MkTag (ID c) data (record c mr) None 0)
                end
            end) as -> by (by destruct c).
  destruct (exec (PATTERN c) data) as [mr|] eqn:E; [|done].
  rewrite exec_anchored in E by done.
  pose proof (λ n, match_sets _ _ _ _ n E) as Hsets.
  destruct c; try done; clear Hc Hg Ha;
    unfold _extractFields, extractFields_Balance,
      extractFields_NumberAndSumOfEntries, extractFields_StatementLine,
      helperModels.Amount_parse, helperModels.Date_parse,
      helperModels.Date_forOffsetDateTime,
      record, value_error, amount_of, codec, group_text;
    cbn [amount_groups].
  (* 20, 21, 25 *)
  1-3: group_of Hsets 1 x1 H1; by rewrite H1.
  (* 28 *)
  1: group_of Hsets 1 x1 H1; by rewrite H1.
  (* 34F *)
  1: group_of Hsets 1 x1 H1; group_of Hsets 3 x3 H3; by rewrite H1, H3.
  (* 13D *)
  1: group_of Hsets 1 x1 H1; group_of Hsets 2 x2 H2;
     group_of Hsets 3 x3 H3; by rewrite H1, H2, H3.
  (* 13 *)
  1: group_of Hsets 1 x1 H1; group_of Hsets 2 x2 H2; by rewrite H1, H2.
  (* NS *)
  1: group_of Hsets 1 x1 H1; by rewrite H1.
  (* 60, 62 *)
  1-2: group_of Hsets 1 x1 H1; group_of Hsets 2 x2 H2;
       group_of Hsets 3 x3 H3; group_of Hsets 4 x4 H4;
       group_of Hsets 5 x5 H5; group_of Hsets 6 x6 H6;
       rewrite H1, H2, H3, H4, H5, H6; cbn [defined or_empty str_arg];
       rewrite !bind_Ok; by destruct (BankAmount.parse x1 x6).
  (* 90D, 90C *)
  1-2: group_of Hsets 1 x1 H1; group_of Hsets 2 x2 H2;
       group_of Hsets 3 x3 H3; by rewrite H1, H2, H3.
  (* 64, 65 *)
  1-2: group_of Hsets 1 x1 H1; group_of Hsets 2 x2 H2;
       group_of Hsets 3 x3 H3; group_of Hsets 4 x4 H4;
       group_of Hsets 5 x5 H5; group_of Hsets 6 x6 H6;
       rewrite H1, H2, H3, H4, H5, H6; cbn [defined or_empty str_arg];
       rewrite !bind_Ok; by destruct (BankAmount.parse x1 x6).
  (* 61 *)
  - assert (exec PATTERN_StatementLine data = Some mr) as Hx
      by (by rewrite exec_anchored).
    destruct (statement_line_match _ _ Hx)
      as (y & mo & d & mark & entry & _ & H1 & H2 & H3 & H7 & _ & He).
    group_of Hsets 9 x9 H9. group_of Hsets 10 x10 H10.
    group_of Hsets 11 x11 H11.
    rewrite H1, H2, H3, H7, H9, H10, H11.
    cbn [defined or_empty str_arg str_value]. rewrite !bind_Ok.
    destruct (BankAmount.parse mark x9) as [a|msg]; [|done].
    rewrite !bind_Ok, reversal_mark.
    destruct entry as [[em ed]|].
    + destruct He as ((e1 & e2 & e3 & e4 & -> & -> & _) & -> & -> & -> & _).
      cbn [or_empty str_arg]. rewrite !append_cons.
      by cbn [String.eqb].
    + destruct He as (-> & _). by cbn [or_empty String.eqb].
  (* 86 *)
  - group_of Hsets 1 x1 H1. by rewrite H1.
Qed.

Lemma nextMatch_block_record data :
  block_record data = None → (_nextMatch TagMessageBlock data 0).1 = None.
Proof.
  intros Hn.
  destruct (_nextMatch TagMessageBlock data 0) as [[mr|] li] eqn:E; [|done].
  destruct (scan_blocks_record _ _ _ E) as (f & Hf & _). congruence.
Qed.

Ltac record_dom :=
  cbn [record field_names list_to_set foldr];
  rewrite ?dom_insert_L, ?dom_singleton_L, ?dom_empty_L; set_solver.

(** The record of a class has the fields of the class, and each of
    them has a value. *)
Lemma record_complete c mr :
  c ≠ TagMessageBlock →
  dom (record c mr) = list_to_set (field_names c)
  ∧ ∀ name v, record c mr !! name = Some v → v ≠ VUndefined.
Proof.
  intros Hc. split.
  - destruct c; try done; record_dom.
  - intros name v.
    destruct c; try done; cbn [record];
      repeat (rewrite lookup_insert; case_decide;
              [intros [= <-]; try done;
               by repeat match goal with
                         | |- context [if ?b then _ else _] => destruct b
                         end|]);
      try (rewrite lookup_empty; done);
      intros [_ <-]%lookup_singleton_Some; done.
Qed.

(** C8: [createTag] returns for every identifier and data, with an
    error or with a tag, and what it returns is fixed by the class that
    the identifier resolves to.  Without a class the error is the one of
    an unknown tag.  With a class whose pattern does not match the data,
    it is the one of a mismatch, "Cannot parse tag" with the identifier
    and the data.  After a match, for a balance and for the statement
    line, whenever the amount codec throws on the mark and the amount
    string of the match, the construction throws that error and makes
    no tag.  In every other case the tag is made, with the identifier
    of the class, the data and the complete record: every field of the
    class, each with a value, made of the texts of the groups of the
    match; for the message block, the fields of the blocks of the
    data. *)
Theorem extraction_all_or_nothing (tagId : jsval) (subId : option string)
    (text : string) :
  (∃ r, createTag tagId subId text = Some r
        ∧ ((tagMap !! Str (composite_key tagId subId) = None
            ∧ tagMap !! tag_id tagId = None
            ∧ r = Throw ("Unknown tag " ++ composite_key tagId subId))
           ∨ ∃ c, (tagMap !! Str (composite_key tagId subId) = Some c
                   ∨ (tagMap !! Str (composite_key tagId subId) = None
                      ∧ tagMap !! tag_id tagId = Some c))
                  ∧ Tag_new c text = Some r ∧ r = outcome c text))
  ∧ (∀ c msg,
       outcome c text = Throw msg →
       ((_nextMatch c text 0).1 = None
        ∧ msg = "Cannot parse tag " ++ jsval_toString (ID c) ++ ": " ++ text)
       ∨ ∃ mr g1 g2,
           (_nextMatch c text 0).1 = Some mr
           ∧ amount_groups c = Some (g1, g2)
           ∧ BankAmount.parse (group_text mr g1) (group_text mr g2)
             = Throw msg)
  ∧ (∀ c mr g1 g2 msg,
       exec (PATTERN c) text = Some mr →
       amount_groups c = Some (g1, g2) →
       BankAmount.parse (group_text mr g1) (group_text mr g2) = Throw msg →
       Tag_new c text = Some (Throw msg))
  ∧ (∀ c t,
       outcome c text = Ok t →
       id t = ID c ∧ data t = text
       ∧ (∀ name v, fields t !! name = Some v → v ≠ VUndefined)
       ∧ (c = TagMessageBlock → block_record text = Some (fields t))
       ∧ (c ≠ TagMessageBlock →
          dom (fields t) = list_to_set (field_names c)
          ∧ ∃ mr, exec (PATTERN c) text = Some mr
                  ∧ value_error c mr = None
                  ∧ fields t = record c mr)).
Proof.
  split; [|split; [|split]].
  - rewrite createTag_unfold.
    destruct (tagMap !! Str _) as [c|] eqn:E1.
    + exists (outcome c text). split; [apply Tag_new_outcome|].
      right. exists c. split; [by left|]. split; [apply Tag_new_outcome|done].
    + destruct (tagMap !! tag_id tagId) as [c|] eqn:E2.
      * exists (outcome c text). split; [apply Tag_new_outcome|].
        right. exists c. split; [by right|].
        split; [apply Tag_new_outcome|done].
      * eexists. split; [reflexivity|]. by left.
  - intros c msg.
    destruct (decide (c = TagMessageBlock)) as [->|Hc].
    + cbn [outcome]. unfold block_tag.
      destruct (block_record text) as [f|] eqn:Hf; [discriminate|].
      intros [= <-]. left. split; [by apply nextMatch_block_record|done].
    + assert (global c = false) as Hg by (by destruct c).
      rewrite nextMatch_eq by done.
      assert (outcome c text
              = match exec (PATTERN c) text with
                | None =>
                    Throw ("Cannot parse tag " ++ jsval_toString (ID c)
                           ++ ": " ++ text)
                | Some mr =>
                    match value_error c mr with
                    | Some msg => Throw msg
                    | None => Ok (MkTag (ID c) text (record c mr) None 0)
                    end
                end) as -> by (by destruct c).
      destruct (exec (PATTERN c) text) as [mr|]; [|intros [= <-]; by left].
      unfold value_error, codec.
      destruct (amount_groups c) as [[g1 g2]|] eqn:Hgs; [|discriminate].
      destruct (BankAmount.parse _ _) as [a|msg'] eqn:Hp; [discriminate|].
      intros [= <-]. right. by exists mr, g1, g2.
  - intros c mr g1 g2 msg Hx Hgs Hp. rewrite Tag_new_outcome.
    assert (c ≠ TagMessageBlock) as Hc by (by intros ->).
    assert (outcome c text
            = match exec (PATTERN c) text with
              | None =>
                  Throw ("Cannot parse tag " ++ jsval_toString (ID c)
                         ++ ": " ++ text)
              | Some mr =>
                  match value_error c mr with
                  | Some msg => Throw msg
                  | None => Ok (MkTag (ID c) text (record c mr) None 0)
                  end
              end) as -> by (by destruct c).
    rewrite Hx. unfold value_error, codec. by rewrite Hgs, Hp.
  - intros c t.
    destruct (decide (c = TagMessageBlock)) as [->|Hc].
    + cbn [outcome]. unfold block_tag.
      destruct (block_record text) as [f|] eqn:Hf; [|discriminate].
      intros [= <-]. cbn [id data fields].
      split; [done|]. split; [done|]. split; [|done].
      intros name v Hv.
      by destruct (block_record_strings _ _ Hf _ _ Hv) as [x ->].
    + assert (outcome c text
              = match exec (PATTERN c) text with
                | None =>
                    Throw ("Cannot parse tag " ++ jsval_toString (ID c)
                           ++ ": " ++ text)
                | Some mr =>
                    match value_error c mr with
                    | Some msg => Throw msg
                    | None => Ok (MkTag (ID c) text (record c mr) None 0)
                    end
                end) as -> by (by destruct c).
      destruct (exec (PATTERN c) text) as [mr|]; [|discriminate].
      destruct (value_error c mr) eqn:Hv; [discriminate|].
      intros [= <-]. cbn [id data fields].
      destruct (record_complete c mr Hc) as [Hd Hu].
      split; [done|]. split; [done|]. split; [done|]. split; [done|].
      intros _. split; [done|]. by exists mr.
Qed.

Lemma extraction_all_or_nothing_witness :
  Tag_new TagOpeningBalance balance_without_amount
  = Some (Throw "Amount cannot be parsed: ")
  ∧ ∃ t, outcome TagOpeningBalance "C090202EUR1,5" = Ok t
         ∧ id t = ID TagOpeningBalance ∧ data t = "C090202EUR1,5"
         ∧ (∀ name v, fields t !! name = Some v → v ≠ VUndefined)
         ∧ (TagOpeningBalance = TagMessageBlock →
            block_record "C090202EUR1,5" = Some (fields t))
         ∧ (TagOpeningBalance ≠ TagMessageBlock →
            dom (fields t) = list_to_set (field_names TagOpeningBalance)
            ∧ ∃ mr, exec (PATTERN TagOpeningBalance) "C090202EUR1,5"
                    = Some mr
                    ∧ value_error TagOpeningBalance mr = None
                    ∧ fields t = record TagOpeningBalance mr).
Proof.
  split.
  - eapply (proj1 (proj2 (proj2 (extraction_all_or_nothing
                                   (Str "60") (Some "F")
                                   balance_without_amount)))
              TagOpeningBalance _ 1 6).
    + vm_compute. reflexivity.
    + reflexivity.
    + vm_compute. reflexivity.
  - eexists. split; [vm_compute; reflexivity|].
    apply (proj2 (proj2 (proj2 (extraction_all_or_nothing
                                  (Str "60") (Some "F") "C090202EUR1,5")))
             TagOpeningBalance).
    vm_compute. reflexivity.
Defined.

End Outcome.
